(** * OpportunityOS: store, detector and lifecycle orchestration

    A shallow embedding of the TypeScript sources
    - [src/core/OpportunityStore.ts]     (module [OpportunityStore]),
    - [src/core/OpportunityDetector.ts]  (module [OpportunityDetector]),
    - [src/OpportunityOS.ts]             (module [OpportunityOS]),
    - [src/demo/DemoOpportunityOS.ts]    (module [DemoOpportunityOS]),
    - [src/config/ConfigurationManager.ts] (the two defaulted settings used here),
    followed by the properties established about them.

    Modelling conventions.
    - TypeScript types are erased at run time, so an [Opportunity] is the
      JavaScript object it is at run time: a finite map from property names
      to values ([JSObject]).  The store is the [Map<string, Opportunity>]
      of the source, a [gmap string JSObject]; the iteration order of a
      JavaScript [Map] (insertion order) is not represented.
    - A JavaScript number is an exact rational ([Q]); NaN and the
      infinities are not represented, and [Math.round] is the exact
      round-half-up.
    - [async] methods run to completion one after the other; a computation
      is a function from the state of the world to an outcome (a returned
      value or a thrown exception) and the next state.  State changes made
      before a [throw] persist, as in JavaScript.
    - Everything outside the process (the clock, the uuid generator, the
      file system's faults, Slack, Kiro) and the JavaScript runtime library
      functions that are not re-implemented ([JSON.parse], [JSON.stringify],
      [String.prototype.trim], number formatting) are fields of [Env]; each
      outside call is indexed by the world's call counter [tick], so an
      environment may answer every call differently.
    - Calls to the logger only print and are left out. *)

From Stdlib Require Import QArith Qround Qminmax ZArith Lia Lqa.
From stdpp Require Import gmap strings list fin_maps.

Local Open Scope string_scope.
Local Open Scope list_scope.

(* ===================================================================== *)
(** ** JavaScript values *)
(* ===================================================================== *)

#[warnings="-register-all"]
Inductive JSValue : Type :=
| JUndefined
| JNull
| JBool (b : bool)
| JNum (n : Q)
| JStr (s : string)
| JArr (elems : list JSValue)
| JObj (props : gmap string JSValue).

Abbreviation JSObject := (gmap string JSValue).

(** [o.k] on an object: a missing property reads as [undefined]. *)
Definition prop (o : JSObject) (k : string) : JSValue :=
  default JUndefined (o !! k).

(** ToBoolean. *)
Definition truthy (v : JSValue) : bool :=
  match v with
  | JUndefined | JNull => false
  | JBool b => b
  | JNum n => negb (Qeq_bool n 0)
  | JStr s => negb (String.eqb s "")
  | JArr _ | JObj _ => true
  end.

(** [typeof v === 'string'] and [typeof v === 'number']. *)
Definition typeof_string (v : JSValue) : bool :=
  match v with JStr _ => true | _ => false end.

Definition typeof_number (v : JSValue) : bool :=
  match v with JNum _ => true | _ => false end.

(** [v < c] and [v > c] for a value already known to be a number; on
    anything else the comparison is not reached in the code below. *)
Definition Qlt_bool (x y : Q) : bool := negb (Qle_bool y x).

Definition num_lt (v : JSValue) (c : Q) : bool :=
  match v with JNum n => Qlt_bool n c | _ => false end.

Definition num_gt (v : JSValue) (c : Q) : bool :=
  match v with JNum n => Qlt_bool c n | _ => false end.

(** [arr.includes(v)] for an array of strings: strict equality with one of
    them. *)
Definition includes (arr : list string) (v : JSValue) : bool :=
  match v with
  | JStr s => existsb (String.eqb s) arr
  | _ => false
  end.

(** [a === b] where [b] is a string constant. *)
Definition strict_eq_str (a : JSValue) (b : string) : bool :=
  match a with JStr s => String.eqb s b | _ => false end.

(** [Math.round]: nearest integer, halves towards plus infinity. *)
Definition Math_round (x : Q) : Z := Qfloor (x + (1 # 2)).

(** [Math.min] and [Math.max] on two numbers. *)
Definition Math_min (x y : Q) : Q := Qmin x y.
Definition Math_max (x y : Q) : Q := Qmax x y.

(* ===================================================================== *)
(** ** [src/types.ts] *)
(* ===================================================================== *)

Inductive OpportunityStatus : Set :=
| DETECTED | PROMOTED | DISMISSED | INVESTIGATING | SPEC_GENERATED | SHIPPED.

(** The string each member of the enum is at run time. *)
Definition status_value (s : OpportunityStatus) : string :=
  match s with
  | DETECTED => "detected"
  | PROMOTED => "promoted"
  | DISMISSED => "dismissed"
  | INVESTIGATING => "investigating"
  | SPEC_GENERATED => "spec_generated"
  | SHIPPED => "shipped"
  end.

(** [Object.values(OpportunityStatus)]. *)
Definition OpportunityStatus_values : list string :=
  map status_value
      [DETECTED; PROMOTED; DISMISSED; INVESTIGATING; SPEC_GENERATED; SHIPPED].

Inductive OpportunityType : Set :=
| FUNNEL_DROP | LOW_NPS | FEATURE_UNDERUSE.

Definition type_value (t : OpportunityType) : string :=
  match t with
  | FUNNEL_DROP => "funnel_drop"
  | LOW_NPS => "low_nps"
  | FEATURE_UNDERUSE => "feature_underuse"
  end.

Record DateRange : Type := { dr_start : string; dr_end : string }.

Record FunnelStep : Type :=
  { stepName : string; userCount : Q; dropoffRate : Q }.

Record FunnelData : Type :=
  { funnelId : string; funnelName : string;
    steps : list FunnelStep; funnel_dateRange : DateRange }.

Record NPSResponse : Type :=
  { nr_userId : string; nr_score : Q;
    nr_feedback : option string; nr_timestamp : string }.

Record NPSData : Type :=
  { nps_score : Q; responseCount : Q;
    detractors : list NPSResponse; passives : list NPSResponse;
    promoters : list NPSResponse; nps_dateRange : DateRange }.

Record FeatureUsageData : Type :=
  { featureId : string; featureName : string;
    activeUsers : Q; totalUsers : Q; usageRate : Q;
    feature_dateRange : DateRange }.

(** The optional settings of [OpportunityOSConfig] that the modelled code
    reads, as passed in ([Partial<OpportunityOSConfig>]) and as normalized.
    The required credentials are not represented. *)
Record PartialConfig : Type :=
  { partial_minOpportunityScore : option Q;
    partial_autoGenerateSpecs : option bool }.

Record OpportunityOSConfig : Type :=
  { minOpportunityScore : Q; autoGenerateSpecs : bool }.

(** An object literal. *)
Definition obj (fields : list (string * JSValue)) : JSObject :=
  list_to_map fields.

(** The [id: string] field of an [Opportunity].  The store only ever holds
    and hands out records whose [id] is a string. *)
Definition Opportunity_id (o : JSObject) : string :=
  match o !! "id" with Some (JStr s) => s | _ => "" end.

(* ===================================================================== *)
(** ** Exceptions *)
(* ===================================================================== *)

Inductive Collaborator : Set := Slack | Kiro.

(** One constructor per [throw] site of the modelled sources, carrying the
    values interpolated into the message, and one per class of exception
    raised by the runtime or by the outside world. *)
Inductive Exn : Type :=
| InvalidId
    (* Error('Invalid opportunity: missing or invalid id') *)
| InvalidStatus (status : JSValue)
    (* Error(`Invalid opportunity: invalid status ${opp.status}`) *)
| InvalidScore
    (* Error('Invalid opportunity: score must be between 0 and 100') *)
| IdAlreadyExists (id : string)
    (* Error(`Opportunity with id ${id} already exists`) *)
| IdNotFound (id : string)
    (* OpportunityStore.update: Error(`Opportunity with id ${id} not found`) *)
| OpportunityNotFound (id : string)
    (* markAsShipped, generateSpec: Error(`Opportunity ${id} not found`) *)
| MustBePromoted (status : JSValue)
    (* Error(`Opportunity must be promoted first. Current status: ...`) *)
| TypeError (message : string)
    (* raised by the runtime: property of null, value not iterable *)
| SyntaxError (message : string)
    (* raised by JSON.parse *)
| SystemError (code : string)
    (* raised by fs, with its [code] property *)
| CollaboratorError (who : Collaborator) (message : string).
    (* raised by a call to Slack or Kiro *)

(** [error.code === 'ENOENT'] and [error instanceof SyntaxError]. *)
Definition code_is_ENOENT (e : Exn) : bool :=
  match e with SystemError c => String.eqb c "ENOENT" | _ => false end.

Definition instanceof_SyntaxError (e : Exn) : bool :=
  match e with SyntaxError _ => true | _ => false end.

(** The error taxonomy of the specification, and the kind each exception of
    the code falls under.  The last two kinds are not in the taxonomy: they
    collect the runtime's own exceptions and file-system failures. *)
Inductive ErrorKind : Set :=
| NotFound | AlreadyExists | InvalidRecord | IllegalTransition
| CollaboratorFailure | RuntimeFailure | StorageFailure.

Definition kind_of (e : Exn) : ErrorKind :=
  match e with
  | InvalidId | InvalidStatus _ | InvalidScore => InvalidRecord
  | IdAlreadyExists _ => AlreadyExists
  | IdNotFound _ | OpportunityNotFound _ => NotFound
  | MustBePromoted _ => IllegalTransition
  | TypeError _ | SyntaxError _ => RuntimeFailure
  | SystemError _ => StorageFailure
  | CollaboratorError _ _ => CollaboratorFailure
  end.

(** The outcome of a call: a returned value or a thrown exception. *)
Inductive Outcome (A : Type) : Type :=
| Return (a : A)
| Throw (e : Exn).
Arguments Return {A} a.
Arguments Throw {A} e.

Definition obind {A B : Type} (c : Outcome A) (k : A -> Outcome B) : Outcome B :=
  match c with
  | Return a => k a
  | Throw e => Throw e
  end.

Definition is_Return {A : Type} (c : Outcome A) : bool :=
  match c with Return _ => true | Throw _ => false end.

(** [v.k] on an arbitrary value, for the property names the store reads
    ([id], [type], [status], [score]): a TypeError on [null] and
    [undefined], [undefined] on primitives and arrays, which have no such
    property. *)
Definition member (v : JSValue) (k : string) : Outcome JSValue :=
  match v with
  | JObj o => Return (prop o k)
  | JUndefined | JNull => Throw (TypeError "Cannot read properties")
  | JBool _ | JNum _ | JStr _ | JArr _ => Return JUndefined
  end.

(** The values a [for ... of] loop visits: the elements of an array, the
    characters of a string; other values are not iterable. *)
Fixpoint chars (s : string) : list JSValue :=
  match s with
  | EmptyString => []
  | String c s' => JStr (String c EmptyString) :: chars s'
  end.

Definition iterate (v : JSValue) : Outcome (list JSValue) :=
  match v with
  | JArr l => Return l
  | JStr s => Return (chars s)
  | _ => Throw (TypeError "is not iterable")
  end.

(* ===================================================================== *)
(** ** The world and its environment *)
(* ===================================================================== *)

(** The calls that leave the process and are kept in the world's trace. *)
Inductive Event : Type :=
| FsMkdir
| FsWriteFile (data : string)
| SlackPostOpportunity (opportunity : JSObject)
| SlackUpdateOpportunity (messageTs : JSValue) (opportunity : JSObject)
| KiroGenerateSpec (request : JSObject)
| KiroProvideFeedback (opportunityId : string) (feedback : JSObject).

Record SpecGenerationResponse : Type :=
  { specUrl : JSValue; generatedAt : string }.

Record Env : Type := {
  (* the configuration held by the ConfigurationManager *)
  config : OpportunityOSConfig;
  (* the JavaScript runtime *)
  Date_toISOString : nat -> string;
  uuidv4 : nat -> string;
  JSON_parse : string -> string + JSValue;      (* inl: SyntaxError message *)
  JSON_stringify : JSValue -> string;
  String_trim : string -> string;
  Number_toString : Q -> string;
  Number_toFixed1 : Q -> string;
  (* the file system: the error code of a failing mkdir or writeFile *)
  fs_fault : nat -> option string;
  (* Slack and Kiro: inl is the message of the exception thrown *)
  slack_postOpportunity : nat -> JSObject -> string + string;
  slack_updateOpportunity : nat -> JSValue -> JSObject -> option string;
  kiro_generateSpec : nat -> JSObject -> string + SpecGenerationResponse;
  kiro_provideFeedback : nat -> string -> JSObject -> option string
}.

Record World : Type := mkWorld {
  opportunities : gmap string JSObject;  (* OpportunityStore.opportunities *)
  initialized : bool;                    (* OpportunityStore.initialized *)
  fs_dir : bool;                         (* path.dirname(filePath) exists *)
  fs_file : option string;               (* contents of filePath, if any *)
  tick : nat;                            (* outside calls made so far *)
  trace : list Event                     (* most recent call first *)
}.

Definition set_opportunities (m : gmap string JSObject) (w : World) : World :=
  mkWorld m (initialized w) (fs_dir w) (fs_file w) (tick w) (trace w).

Definition set_initialized (b : bool) (w : World) : World :=
  mkWorld (opportunities w) b (fs_dir w) (fs_file w) (tick w) (trace w).

Definition set_fs_dir (b : bool) (w : World) : World :=
  mkWorld (opportunities w) (initialized w) b (fs_file w) (tick w) (trace w).

Definition set_fs_file (f : option string) (w : World) : World :=
  mkWorld (opportunities w) (initialized w) (fs_dir w) f (tick w) (trace w).

(** One outside call: the counter advances and the call is recorded. *)
Definition called (ev : Event) (w : World) : World :=
  mkWorld (opportunities w) (initialized w) (fs_dir w) (fs_file w)
          (S (tick w)) (ev :: trace w).

(** A call that is not recorded (reading the clock, drawing a uuid). *)
Definition ticked (w : World) : World :=
  mkWorld (opportunities w) (initialized w) (fs_dir w) (fs_file w)
          (S (tick w)) (trace w).

(** Computations. *)
Definition M (A : Type) : Type := World -> Outcome A * World.

Definition ret {A : Type} (a : A) : M A := fun w => (Return a, w).

Definition throw {A : Type} (e : Exn) : M A := fun w => (Throw e, w).

Definition bind {A B : Type} (c : M A) (k : A -> M B) : M B :=
  fun w =>
    match c w with
    | (Return a, w') => k a w'
    | (Throw e, w') => (Throw e, w')
    end.

(** [try { c } catch (error) { h error }]. *)
Definition try_catch {A : Type} (c : M A) (h : Exn -> M A) : M A :=
  fun w =>
    match c w with
    | (Return a, w') => (Return a, w')
    | (Throw e, w') => h e w'
    end.

(** A computation without effects. *)
Definition lift {A : Type} (c : Outcome A) : M A := fun w => (c, w).

Definition modify (f : World -> World) : M unit := fun w => (Return tt, f w).

Definition read {A : Type} (f : World -> A) : M A := fun w => (Return (f w), w).

Declare Scope js_scope.
Delimit Scope js_scope with js.
Notation "x <- c ;; k" := (bind c (fun x => k))
  (at level 100, c at next level, right associativity) : js_scope.
Notation "c ;; k" := (bind c (fun _ => k))
  (at level 100, right associativity) : js_scope.

Local Open Scope js_scope.

(** [for (const x of xs) { body x }]. *)
Fixpoint for_of {A : Type} (xs : list A) (body : A -> M unit) : M unit :=
  match xs with
  | [] => ret tt
  | x :: xs' => body x ;; for_of xs' body
  end.

(* ===================================================================== *)
(** ** The outside world *)
(* ===================================================================== *)

(** [fs/promises], on the store's directory and file.  [access] and
    [readFile] fail with ENOENT exactly when their target is missing;
    [mkdir] and [writeFile] fail when the environment says so (a write
    into a missing directory is one of the failures it may report). *)
Module fs.
Section WithEnv.
Context (E : Env).

Definition access_dir : M unit := fun w =>
  if fs_dir w then (Return tt, w) else (Throw (SystemError "ENOENT"), w).

Definition access_file : M unit := fun w =>
  match fs_file w with
  | Some _ => (Return tt, w)
  | None => (Throw (SystemError "ENOENT"), w)
  end.

Definition readFile : M string := fun w =>
  match fs_file w with
  | Some data => (Return data, w)
  | None => (Throw (SystemError "ENOENT"), w)
  end.

Definition mkdir : M unit := fun w =>
  match fs_fault E (tick w) with
  | Some code => (Throw (SystemError code), called FsMkdir w)
  | None => (Return tt, called FsMkdir (set_fs_dir true w))
  end.

Definition writeFile (data : string) : M unit := fun w =>
  match fs_fault E (tick w) with
  | Some code => (Throw (SystemError code), called (FsWriteFile data) w)
  | None =>
      (Return tt, called (FsWriteFile data) (set_fs_file (Some data) w))
  end.
End WithEnv.
End fs.

(** [new Date().toISOString()] and [uuidv4()]. *)
Definition new_Date_toISOString (E : Env) : M string := fun w =>
  (Return (Date_toISOString E (tick w)), ticked w).

Definition new_uuidv4 (E : Env) : M string := fun w =>
  (Return (uuidv4 E (tick w)), ticked w).

(** [JSON.parse(data)]. *)
Definition JSON_parse_call (E : Env) (data : string) : M JSValue :=
  match JSON_parse E data with
  | inl message => throw (SyntaxError message)
  | inr v => ret v
  end.

(* ===================================================================== *)
(** ** [src/core/OpportunityStore.ts] *)
(* ===================================================================== *)

Module OpportunityStore.

(** [validateOpportunity(opp)]; it reads and writes no state. *)
Definition validateOpportunity (opp : JSValue) : Outcome unit :=
  obind (member opp "id") (fun id =>
  if negb (truthy id) || negb (typeof_string id) then Throw InvalidId else
  obind (member opp "type") (fun type =>
  obind (member opp "status") (fun status =>
  if negb (truthy type) || negb (includes OpportunityStatus_values status)
  then Throw (InvalidStatus status) else
  obind (member opp "score") (fun score =>
  if negb (typeof_number score) || num_lt score 0 || num_gt score 100
  then Throw InvalidScore else
  Return tt)))).

(** [this.opportunities.clear()], [.set(id, opp)], [.values()]. *)
Definition clear : M unit := modify (set_opportunities ∅).

Definition set (id : string) (opp : JSObject) : M unit :=
  modify (fun w => set_opportunities (<[id := opp]> (opportunities w)) w).

Definition values : M (list JSObject) :=
  read (fun w => (map_to_list (opportunities w)).*2).

(** [this.opportunities.set(opp.id, opp)] in [load], where [opp] is a
    parsed value that has just passed [validateOpportunity]: an object
    whose [id] is a string (lemma [validateOpportunity_accepts]). *)
Definition set_loaded (opp : JSValue) : M unit :=
  match opp with
  | JObj o => set (Opportunity_id o) o
  | _ => ret tt
  end.

Section WithEnv.
Context (E : Env).

Definition ensureDirectoryExists : M unit :=
  try_catch fs.access_dir (fun _ => fs.mkdir E).

Definition load : M unit :=
  try_catch
    (fs.access_file ;;
     data <- fs.readFile ;;
     if negb (truthy (JStr data)) || String.eqb (String_trim E data) ""
     then clear
     else
       (parsed <- JSON_parse_call E data ;;
        clear ;;
        items <- lift (iterate parsed) ;;
        for_of items (fun opp =>
          lift (validateOpportunity opp) ;;
          set_loaded opp)))
    (fun error =>
       if code_is_ENOENT error then clear
       else if instanceof_SyntaxError error then clear
       else throw error).

Definition initialize : M unit :=
  already <- read initialized ;;
  if already then ret tt
  else
    try_catch
      (ensureDirectoryExists ;;
       load ;;
       modify (set_initialized true))
      (fun error => throw error).

Definition save : M unit :=
  opps <- values ;;
  let data := JSON_stringify E (JArr (JObj <$> opps)) in
  fs.writeFile E data.

Definition create (opportunity : JSObject) : M unit :=
  lift (validateOpportunity (JObj opportunity)) ;;
  present <- read (fun w =>
    bool_decide (is_Some (opportunities w !! Opportunity_id opportunity))) ;;
  if present then throw (IdAlreadyExists (Opportunity_id opportunity))
  else
    (set (Opportunity_id opportunity) opportunity ;;
     save).

Definition update (id : string) (updates : JSObject) : M JSObject :=
  existing <- read (fun w => opportunities w !! id) ;;
  match existing with
  | None => throw (IdNotFound id)
  | Some existing =>
      now <- new_Date_toISOString E ;;
      let updated : JSObject :=
        <["updatedAt" := JStr now]> (<["id" := JStr id]> (updates ∪ existing)) in
      lift (validateOpportunity (JObj updated)) ;;
      set id updated ;;
      save ;;
      ret updated
  end.
End WithEnv.

Definition get (id : string) : M (option JSObject) :=
  read (fun w => opportunities w !! id).

Definition getAll : M (list JSObject) := values.

Definition getByStatus (status : OpportunityStatus) : M (list JSObject) :=
  all <- getAll ;;
  ret (filter (fun opp =>
                 strict_eq_str (prop opp "status") (status_value status) = true)
              all).

End OpportunityStore.

(** The Slack notifier and the Kiro agent, as the orchestrators see them. *)
Module slack.
Section WithEnv.
Context (E : Env).

Definition postOpportunity (opportunity : JSObject) : M string := fun w =>
  let w' := called (SlackPostOpportunity opportunity) w in
  match slack_postOpportunity E (tick w) opportunity with
  | inl message => (Throw (CollaboratorError Slack message), w')
  | inr messageTs => (Return messageTs, w')
  end.

Definition updateOpportunity (messageTs : JSValue) (opportunity : JSObject)
  : M unit := fun w =>
  let w' := called (SlackUpdateOpportunity messageTs opportunity) w in
  match slack_updateOpportunity E (tick w) messageTs opportunity with
  | Some message => (Throw (CollaboratorError Slack message), w')
  | None => (Return tt, w')
  end.
End WithEnv.
End slack.

Module kiro.
Section WithEnv.
Context (E : Env).

Definition generateSpec (request : JSObject) : M SpecGenerationResponse :=
  fun w =>
  let w' := called (KiroGenerateSpec request) w in
  match kiro_generateSpec E (tick w) request with
  | inl message => (Throw (CollaboratorError Kiro message), w')
  | inr response => (Return response, w')
  end.

Definition provideFeedback (opportunityId : string) (feedback : JSObject)
  : M unit := fun w =>
  let w' := called (KiroProvideFeedback opportunityId feedback) w in
  match kiro_provideFeedback E (tick w) opportunityId feedback with
  | Some message => (Throw (CollaboratorError Kiro message), w')
  | None => (Return tt, w')
  end.
End WithEnv.
End kiro.

(* ===================================================================== *)
(** ** [src/config/ConfigurationManager.ts] *)
(* ===================================================================== *)

Module ConfigurationManager.

(** The defaults [validateAndNormalize] gives the two settings:
    [config.minOpportunityScore ?? 60] and
    [config.autoGenerateSpecs ?? false]. *)
Definition validateAndNormalize (config : PartialConfig)
  : OpportunityOSConfig :=
  {| minOpportunityScore := default 60%Q (partial_minOpportunityScore config);
     autoGenerateSpecs := default false (partial_autoGenerateSpecs config) |}.

End ConfigurationManager.

(* ===================================================================== *)
(** ** [src/core/OpportunityDetector.ts] *)
(* ===================================================================== *)

Definition DateRange_toJS (d : DateRange) : JSValue :=
  JObj (obj [("start", JStr (dr_start d)); ("end", JStr (dr_end d))]).

Definition FunnelStep_toJS (s : FunnelStep) : JSValue :=
  JObj (obj [("stepName", JStr (stepName s));
             ("userCount", JNum (userCount s));
             ("dropoffRate", JNum (dropoffRate s))]).

Definition FunnelData_toJS (f : FunnelData) : JSValue :=
  JObj (obj [("funnelId", JStr (funnelId f));
             ("funnelName", JStr (funnelName f));
             ("steps", JArr (FunnelStep_toJS <$> steps f));
             ("dateRange", DateRange_toJS (funnel_dateRange f))]).

Definition NPSResponse_toJS (r : NPSResponse) : JSValue :=
  JObj (obj ([("userId", JStr (nr_userId r)); ("score", JNum (nr_score r))]
             ++ match nr_feedback r with
                | Some f => [("feedback", JStr f)]
                | None => []
                end
             ++ [("timestamp", JStr (nr_timestamp r))])).

Definition NPSData_toJS (n : NPSData) : JSValue :=
  JObj (obj [("score", JNum (nps_score n));
             ("responseCount", JNum (responseCount n));
             ("detractors", JArr (NPSResponse_toJS <$> detractors n));
             ("passives", JArr (NPSResponse_toJS <$> passives n));
             ("promoters", JArr (NPSResponse_toJS <$> promoters n));
             ("dateRange", DateRange_toJS (nps_dateRange n))]).

Definition FeatureUsageData_toJS (f : FeatureUsageData) : JSValue :=
  JObj (obj [("featureId", JStr (featureId f));
             ("featureName", JStr (featureName f));
             ("activeUsers", JNum (activeUsers f));
             ("totalUsers", JNum (totalUsers f));
             ("usageRate", JNum (usageRate f));
             ("dateRange", DateRange_toJS (feature_dateRange f))]).

(** The double-quote character, for the messages that contain it. *)
Definition dquote : string := String (Ascii.ascii_of_nat 34) EmptyString.

(** A loop over [xs] with its index, whose body pushes onto a result
    array: the pushes, in order. *)
Fixpoint collect {A B : Type} (body : nat -> A -> M (list B))
    (i : nat) (xs : list A) : M (list B) :=
  match xs with
  | [] => ret []
  | x :: xs' =>
      pushed <- body i x ;;
      more <- collect body (S i) xs' ;;
      ret (pushed ++ more)
  end.

Module OpportunityDetector.

Local Open Scope Q_scope.

Definition calculateFunnelScore (dropoffRate userCount : Q) : Z :=
  let dropoffScore := Math_min (dropoffRate * 100) 70 in
  let impactScore := Math_min ((userCount / 1000) * 30) 30 in
  Math_round (dropoffScore + impactScore).

Definition calculateNPSScore (npsScore responseCount : Q) : Z :=
  let baseScore := Math_max 0 ((30 - npsScore) * 2) in
  let confidenceScore := Math_min ((responseCount / 100) * 30) 30 in
  Math_round (baseScore + confidenceScore).

Definition calculateFeatureUsageScore (usageRate totalUsers : Q) : Z :=
  let baseScore := (1 - usageRate) * 70 in
  let impactScore := Math_min ((totalUsers / 1000) * 30) 30 in
  Math_round (baseScore + impactScore).

Section WithEnv.
Context (E : Env).

Let str (q : Q) : string := Number_toString E q.
Let fixed1 (q : Q) : string := Number_toFixed1 E q.

Definition createFunnelOpportunity (funnel : FunnelData) (step : FunnelStep)
    (stepIndex : nat) (score : Z) : M JSObject :=
  let insights :=
    [ JStr (fixed1 (dropoffRate step * 100) +:+ "% dropoff at step "
            +:+ str (inject_Z (Z.of_nat stepIndex + 1)));
      JStr ("Affecting " +:+ str (userCount step) +:+ " users") ]
    ++ (if Qlt_bool (1 # 2) (dropoffRate step)
        then [JStr "Critical: Over 50% dropoff rate"] else []) in
  id <- new_uuidv4 E ;;
  createdAt <- new_Date_toISOString E ;;
  updatedAt <- new_Date_toISOString E ;;
  ret (obj
    [ ("id", JStr id);
      ("type", JStr (type_value FUNNEL_DROP));
      ("status", JStr (status_value DETECTED));
      ("score", JNum (inject_Z score));
      ("title", JStr ("High Dropoff in " +:+ funnelName funnel +:+ " - "
                      +:+ stepName step));
      ("description",
       JStr ("Users are dropping off at " +:+ dquote +:+ stepName step
             +:+ dquote +:+ " with a " +:+ fixed1 (dropoffRate step * 100)
             +:+ "% dropoff rate."));
      ("evidence", JObj (obj
         [ ("dataSource", JStr "userpilot");
           ("rawData", FunnelData_toJS funnel);
           ("metrics", JObj (obj
              [ ("dropoffRate", JNum (dropoffRate step));
                ("userCount", JNum (userCount step));
                ("stepIndex", JNum (inject_Z (Z.of_nat stepIndex))) ]));
           ("insights", JArr insights) ]));
      ("createdAt", JStr createdAt);
      ("updatedAt", JStr updatedAt) ]).

Definition createNPSOpportunity (npsData : NPSData) (score : Z)
  : M JSObject :=
  let count := inject_Z (Z.of_nat (length (detractors npsData))) in
  let feedbackSample :=
    omap nr_feedback
      (take 3 (filter (fun d => truthy (from_option JStr JUndefined
                                           (nr_feedback d)) = true)
                      (detractors npsData))) in
  let insights :=
    [ JStr ("NPS score of " +:+ str (nps_score npsData)
            +:+ " (below 30 threshold)");
      JStr (str count +:+ " detractors out of "
            +:+ str (responseCount npsData) +:+ " responses") ]
    ++ match feedbackSample with
       | first :: _ =>
           [JStr ("Common feedback: " +:+ dquote +:+ first +:+ dquote)]
       | [] => []
       end in
  id <- new_uuidv4 E ;;
  createdAt <- new_Date_toISOString E ;;
  updatedAt <- new_Date_toISOString E ;;
  ret (obj
    [ ("id", JStr id);
      ("type", JStr (type_value LOW_NPS));
      ("status", JStr (status_value DETECTED));
      ("score", JNum (inject_Z score));
      ("title", JStr ("Low NPS Score: " +:+ str (nps_score npsData)));
      ("description",
       JStr ("Product has a low NPS score of " +:+ str (nps_score npsData)
             +:+ " with " +:+ str count +:+ " detractors."));
      ("evidence", JObj (obj
         [ ("dataSource", JStr "userpilot");
           ("rawData", NPSData_toJS npsData);
           ("metrics", JObj (obj
              [ ("npsScore", JNum (nps_score npsData));
                ("detractorCount", JNum count);
                ("responseCount", JNum (responseCount npsData)) ]));
           ("insights", JArr insights) ]));
      ("createdAt", JStr createdAt);
      ("updatedAt", JStr updatedAt) ]).

Definition createFeatureUsageOpportunity (feature : FeatureUsageData)
    (score : Z) : M JSObject :=
  let usagePercent := fixed1 (usageRate feature * 100) in
  let insights :=
    [ JStr ("Only " +:+ usagePercent +:+ "% usage rate");
      JStr (str (totalUsers feature - activeUsers feature)
            +:+ " users not using this feature") ]
    ++ (if Qlt_bool (usageRate feature) (1 # 10)
        then [JStr "Critical: Less than 10% adoption"] else []) in
  id <- new_uuidv4 E ;;
  createdAt <- new_Date_toISOString E ;;
  updatedAt <- new_Date_toISOString E ;;
  ret (obj
    [ ("id", JStr id);
      ("type", JStr (type_value FEATURE_UNDERUSE));
      ("status", JStr (status_value DETECTED));
      ("score", JNum (inject_Z score));
      ("title", JStr ("Low Adoption of " +:+ featureName feature));
      ("description",
       JStr ("Feature " +:+ dquote +:+ featureName feature +:+ dquote
             +:+ " has only " +:+ usagePercent +:+ "% adoption rate."));
      ("evidence", JObj (obj
         [ ("dataSource", JStr "userpilot");
           ("rawData", FeatureUsageData_toJS feature);
           ("metrics", JObj (obj
              [ ("usageRate", JNum (usageRate feature));
                ("activeUsers", JNum (activeUsers feature));
                ("totalUsers", JNum (totalUsers feature)) ]));
           ("insights", JArr insights) ]));
      ("createdAt", JStr createdAt);
      ("updatedAt", JStr updatedAt) ]).

(** [this.minOpportunityScore], set by the orchestrators from the
    configuration. *)
Let threshold : Q := minOpportunityScore (config E).

Definition detectFunnelOpportunities (funnels : list FunnelData)
  : M (list JSObject) :=
  collect (fun _ funnel =>
    collect (fun i step =>
      if Qlt_bool (3 # 10) (dropoffRate step) then
        let score := calculateFunnelScore (dropoffRate step) (userCount step) in
        if Qle_bool threshold (inject_Z score) then
          opportunity <- createFunnelOpportunity funnel step i score ;;
          ret [opportunity]
        else ret []
      else ret [])
      0%nat (steps funnel))
    0%nat funnels.

Definition detectNPSOpportunities (npsData : NPSData) : M (list JSObject) :=
  if Qlt_bool (nps_score npsData) 30 && Qle_bool 20 (responseCount npsData)
  then
    let score := calculateNPSScore (nps_score npsData) (responseCount npsData) in
    if Qle_bool threshold (inject_Z score) then
      opportunity <- createNPSOpportunity npsData score ;;
      ret [opportunity]
    else ret []
  else ret [].

Definition detectFeatureUsageOpportunities (features : list FeatureUsageData)
  : M (list JSObject) :=
  collect (fun _ feature =>
    if Qlt_bool (usageRate feature) (2 # 10)
       && Qle_bool 100 (totalUsers feature)
    then
      let score :=
        calculateFeatureUsageScore (usageRate feature) (totalUsers feature) in
      if Qle_bool threshold (inject_Z score) then
        opportunity <- createFeatureUsageOpportunity feature score ;;
        ret [opportunity]
      else ret []
    else ret [])
    0%nat features.
End WithEnv.
End OpportunityDetector.

(* ===================================================================== *)
(** ** [src/OpportunityOS.ts] *)
(* ===================================================================== *)

(** The [action] argument: ['promote' | 'dismiss' | 'investigate']. *)
Inductive Action : Set := promote | dismiss | investigate.

(** [{ status: s }]. *)
Definition status_update (s : OpportunityStatus) : JSObject :=
  obj [("status", JStr (status_value s))].

(** The request object both orchestrators hand to [kiro.generateSpec]. *)
Definition spec_request (opportunity : JSObject) : JSObject :=
  obj [ ("opportunityId", prop opportunity "id");
        ("title", prop opportunity "title");
        ("description", prop opportunity "description");
        ("evidence", prop opportunity "evidence") ].

(** [if (o.slackMessageTs) { await this.slack.updateOpportunity(o.slackMessageTs, o); }] *)
Definition update_slack_message (E : Env) (o : JSObject) : M unit :=
  if truthy (prop o "slackMessageTs")
  then slack.updateOpportunity E (prop o "slackMessageTs") o
  else ret tt.

(** What [runDetection] awaits from Userpilot: the three results that
    [Promise.all([getAllFunnels(), getNPSData(), getFeatureUsageData()])]
    resolves to, or the exception it rejects with. *)
Definition Fetched : Type :=
  Exn + (list FunnelData * NPSData * list FeatureUsageData).

Module OpportunityOS.
Section WithEnv.
Context (E : Env).

Definition runDetection (fetched : Fetched) : M (list JSObject) :=
  try_catch
    (data <- lift (match fetched with
                   | inl error => Throw error
                   | inr data => Return data
                   end) ;;
     let '(funnels, npsData, features) := data in
     funnelOpps <- OpportunityDetector.detectFunnelOpportunities E funnels ;;
     npsOpps <- OpportunityDetector.detectNPSOpportunities E npsData ;;
     featureOpps <-
       OpportunityDetector.detectFeatureUsageOpportunities E features ;;
     let opps := funnelOpps ++ npsOpps ++ featureOpps in
     for_of opps (fun opp =>
       OpportunityStore.create E opp ;;
       messageTs <- slack.postOpportunity E opp ;;
       OpportunityStore.update E (Opportunity_id opp)
         (obj [("slackMessageTs", JStr messageTs)]) ;;
       ret tt) ;;
     ret opps)
    (fun error => throw error).

Definition promoteOpportunity (opportunity : JSObject) : M unit :=
  updated <- OpportunityStore.update E (Opportunity_id opportunity)
               (status_update PROMOTED) ;;
  update_slack_message E updated ;;
  try_catch
    (spec <- kiro.generateSpec E (spec_request opportunity) ;;
     withSpec <- OpportunityStore.update E (Opportunity_id opportunity)
                   (obj [ ("status", JStr (status_value SPEC_GENERATED));
                          ("specUrl", specUrl spec) ]) ;;
     update_slack_message E withSpec)
    (fun error =>
       OpportunityStore.update E (Opportunity_id opportunity)
         (status_update PROMOTED) ;;
       throw error).

Definition dismissOpportunity (opportunity : JSObject) : M unit :=
  updated <- OpportunityStore.update E (Opportunity_id opportunity)
               (status_update DISMISSED) ;;
  update_slack_message E updated.

Definition investigateOpportunity (opportunity : JSObject) : M unit :=
  updated <- OpportunityStore.update E (Opportunity_id opportunity)
               (status_update INVESTIGATING) ;;
  update_slack_message E updated.

Definition handleOpportunityAction (opportunityId : string) (action : Action)
  : M unit :=
  opportunity <- OpportunityStore.get opportunityId ;;
  match opportunity with
  | None => ret tt
  | Some opportunity =>
      try_catch
        (match action with
         | promote => promoteOpportunity opportunity
         | dismiss => dismissOpportunity opportunity
         | investigate => investigateOpportunity opportunity
         end)
        (fun error => throw error)
  end.

Definition markAsShipped (opportunityId : string) (actualImpact : JSObject)
  : M unit :=
  opportunity <- OpportunityStore.get opportunityId ;;
  match opportunity with
  | None => throw (OpportunityNotFound opportunityId)
  | Some opportunity =>
      measuredAt <- new_Date_toISOString E ;;
      updated <- OpportunityStore.update E opportunityId
                   (obj [ ("status", JStr (status_value SHIPPED));
                          ("actualImpact",
                           JObj (<["measuredAt" := JStr measuredAt]>
                                   actualImpact)) ]) ;;
      update_slack_message E updated ;;
      if truthy (prop opportunity "specUrl")
      then kiro.provideFeedback E opportunityId
             (obj [ ("rating", JNum 5);
                    ("actualImpact", prop actualImpact "metricsAfter") ])
      else ret tt
  end.
End WithEnv.
End OpportunityOS.

(* ===================================================================== *)
(** ** [src/demo/DemoOpportunityOS.ts] *)
(* ===================================================================== *)

Module DemoOpportunityOS.
Section WithEnv.
Context (E : Env).

Definition promoteOpportunity (opportunity : JSObject) : M unit :=
  updated <- OpportunityStore.update E (Opportunity_id opportunity)
               (status_update PROMOTED) ;;
  update_slack_message E updated ;;
  let autoGenerate := autoGenerateSpecs (config E) in
  if negb autoGenerate then ret tt
  else
    (spec <- kiro.generateSpec E (spec_request opportunity) ;;
     withSpec <- OpportunityStore.update E (Opportunity_id opportunity)
                   (obj [ ("status", JStr (status_value SPEC_GENERATED));
                          ("specUrl", specUrl spec) ]) ;;
     update_slack_message E withSpec).

Definition generateSpec (opportunityId : string) : M unit :=
  opportunity <- OpportunityStore.get opportunityId ;;
  match opportunity with
  | None => throw (OpportunityNotFound opportunityId)
  | Some opportunity =>
      if negb (strict_eq_str (prop opportunity "status")
                             (status_value PROMOTED))
      then throw (MustBePromoted (prop opportunity "status"))
      else
        (spec <- kiro.generateSpec E (spec_request opportunity) ;;
         withSpec <- OpportunityStore.update E (Opportunity_id opportunity)
                       (obj [ ("status", JStr (status_value SPEC_GENERATED));
                              ("specUrl", specUrl spec) ]) ;;
         update_slack_message E withSpec)
  end.
End WithEnv.
End DemoOpportunityOS.

(* ===================================================================== *)
(** ** Vocabulary of the properties *)
(* ===================================================================== *)

(** What [validateOpportunity] accepts, said declaratively. *)
Definition valid_record (o : JSObject) : Prop :=
  (exists id, o !! "id" = Some (JStr id) /\ id <> "") /\
  truthy (prop o "type") = true /\
  (exists s, prop o "status" = JStr (status_value s)) /\
  (exists n, prop o "score" = JNum n /\ (0 <= n)%Q /\ (n <= 100)%Q).

(** A record as the store keeps it under key [id]: it passes validation
    and its own [id] is the key. *)
Definition stored_ok (id : string) (o : JSObject) : Prop :=
  OpportunityStore.validateOpportunity (JObj o) = Return tt /\
  o !! "id" = Some (JStr id).

(** The invariant of the store's map. *)
Definition store_wf (m : gmap string JSObject) : Prop :=
  map_Forall stored_ok m.

(** The record [update] builds from the stored one:
    [{ ...existing, ...updates, id, updatedAt: now }]. *)
Definition merged (id : string) (now : string) (updates existing : JSObject)
  : JSObject :=
  <["updatedAt" := JStr now]> (<["id" := JStr id]> (updates ∪ existing)).

(** The file contents [save] writes for a map. *)
Definition saved_data (E : Env) (m : gmap string JSObject) : string :=
  JSON_stringify E (JArr (JObj <$> (map_to_list m).*2)).

(** The body of the loop of [load]. *)
Definition load_record (opp : JSValue) : M unit :=
  lift (OpportunityStore.validateOpportunity opp) ;;
  OpportunityStore.set_loaded opp.

(** Two worlds that differ at most in the map of records. *)
Definition same_outside (w w' : World) : Prop :=
  initialized w' = initialized w /\ fs_dir w' = fs_dir w /\
  fs_file w' = fs_file w /\ tick w' = tick w /\ trace w' = trace w.

(** The world after a successful [update] that stored [updated] under
    [id]: the clock was read, the map changed and the file was rewritten. *)
Definition after_update (E : Env) (id : string) (updated : JSObject)
    (w : World) : World :=
  let m := <[id := updated]> (opportunities w) in
  called (FsWriteFile (saved_data E m))
         (set_fs_file (Some (saved_data E m)) (set_opportunities m (ticked w))).

(** The world after [update_slack_message] returned. *)
Definition after_slack (o : JSObject) (w : World) : World :=
  if truthy (prop o "slackMessageTs")
  then called (SlackUpdateOpportunity (prop o "slackMessageTs") o) w
  else w.

(** A computation that never throws an illegal-transition error. *)
Definition never_illegal {A : Type} (c : M A) : Prop :=
  forall w e w', c w = (Throw e, w') -> kind_of e <> IllegalTransition.

(** The steps of all funnels, in the order the detector visits them. *)
Definition all_steps (funnels : list FunnelData) : list FunnelStep :=
  concat (map steps funnels).

(** The score of a funnel step, and the test a step must pass to yield a
    candidate, as [detectFunnelOpportunities] makes it. *)
Definition funnel_score (step : FunnelStep) : Z :=
  OpportunityDetector.calculateFunnelScore (dropoffRate step) (userCount step).

Definition funnel_candidate (threshold : Q) (step : FunnelStep) : bool :=
  Qlt_bool (3 # 10) (dropoffRate step)
  && Qle_bool threshold (inject_Z (funnel_score step)).


(** An environment whose file system never fails on [mkdir]/[writeFile]. *)
Definition fs_reliable (E : Env) : Prop :=
  forall n, fs_fault E n = None.

(** An environment in which Slack accepts every update. *)
Definition slack_reliable (E : Env) : Prop :=
  forall n ts o, slack_updateOpportunity E n ts o = None.

(** An environment in which Kiro answers every request and accepts every
    feedback. *)
Definition kiro_reliable (E : Env) : Prop :=
  (forall n request, exists response,
      kiro_generateSpec E n request = inr response) /\
  (forall n id feedback, kiro_provideFeedback E n id feedback = None).

(** An environment in which every call to [kiro.generateSpec] throws. *)
Definition kiro_generateSpec_throws (E : Env) (message : string) : Prop :=
  forall n request, kiro_generateSpec E n request = inl message.

(** [kiro.generateSpec] was called at some point of the trace. *)
Definition is_KiroGenerateSpec (ev : Event) : bool :=
  match ev with KiroGenerateSpec _ => true | _ => false end.

Definition generateSpec_called (w : World) : bool :=
  existsb is_KiroGenerateSpec (trace w).

(* ===================================================================== *)
(** ** Concrete scenarios *)
(* ===================================================================== *)

(** The configuration obtained when no optional setting is given. *)
Definition default_config : OpportunityOSConfig :=
  ConfigurationManager.validateAndNormalize
    {| partial_minOpportunityScore := None;
       partial_autoGenerateSpecs := None |}.

(** An environment in which every outside call succeeds; [kiro] answers
    with a fixed spec URL, and no backing file parses. *)
Definition calm_env (cfg : OpportunityOSConfig) : Env :=
  {| config := cfg;
     Date_toISOString := fun _ => "2024-02-01T09:00:00.000Z";
     uuidv4 := fun _ => "test-uuid-123";
     JSON_parse := fun _ => inl "Unexpected token";
     JSON_stringify := fun _ => "[...]";
     String_trim := fun s => s;
     Number_toString := fun _ => "#";
     Number_toFixed1 := fun _ => "#.#";
     fs_fault := fun _ => None;
     slack_postOpportunity := fun _ _ => inr "1706778000.000100";
     slack_updateOpportunity := fun _ _ _ => None;
     kiro_generateSpec := fun _ _ =>
       inr {| specUrl := JStr "https://kiro.example/specs/opp-123";
              generatedAt := "2024-02-01T09:00:05.000Z" |};
     kiro_provideFeedback := fun _ _ _ => None |}.

(** The same, except that [kiro.generateSpec] always throws. *)
Definition kiro_down_env (cfg : OpportunityOSConfig) : Env :=
  {| config := cfg;
     Date_toISOString := Date_toISOString (calm_env cfg);
     uuidv4 := uuidv4 (calm_env cfg);
     JSON_parse := JSON_parse (calm_env cfg);
     JSON_stringify := JSON_stringify (calm_env cfg);
     String_trim := String_trim (calm_env cfg);
     Number_toString := Number_toString (calm_env cfg);
     Number_toFixed1 := Number_toFixed1 (calm_env cfg);
     fs_fault := fs_fault (calm_env cfg);
     slack_postOpportunity := slack_postOpportunity (calm_env cfg);
     slack_updateOpportunity := slack_updateOpportunity (calm_env cfg);
     kiro_generateSpec := fun _ _ => inl "Request failed with status code 500";
     kiro_provideFeedback := kiro_provideFeedback (calm_env cfg) |}.

(** An environment whose backing file parses to the given value. *)
Definition parsing_env (parsed : string + JSValue) : Env :=
  {| config := default_config;
     Date_toISOString := Date_toISOString (calm_env default_config);
     uuidv4 := uuidv4 (calm_env default_config);
     JSON_parse := fun _ => parsed;
     JSON_stringify := JSON_stringify (calm_env default_config);
     String_trim := String_trim (calm_env default_config);
     Number_toString := Number_toString (calm_env default_config);
     Number_toFixed1 := Number_toFixed1 (calm_env default_config);
     fs_fault := fs_fault (calm_env default_config);
     slack_postOpportunity := slack_postOpportunity (calm_env default_config);
     slack_updateOpportunity :=
       slack_updateOpportunity (calm_env default_config);
     kiro_generateSpec := kiro_generateSpec (calm_env default_config);
     kiro_provideFeedback := kiro_provideFeedback (calm_env default_config) |}.

(** The record used by the store's tests, in a given status and with a
    given score. *)
Definition sample_record (id : string) (s : OpportunityStatus) (score : Q)
  : JSObject :=
  obj [ ("id", JStr id);
        ("type", JStr (type_value FUNNEL_DROP));
        ("status", JStr (status_value s));
        ("score", JNum score);
        ("title", JStr "Test Opportunity");
        ("description", JStr "Test description");
        ("evidence", JObj (obj
           [ ("dataSource", JStr "userpilot");
             ("rawData", JObj (obj []));
             ("metrics", JObj (obj [("dropoffRate", JNum (45 # 100))]));
             ("insights", JArr [JStr "High dropoff at step 2"]) ]));
        ("createdAt", JStr "2024-01-01T00:00:00.000Z");
        ("updatedAt", JStr "2024-01-01T00:00:00.000Z");
        ("slackMessageTs", JStr "1704067200.000100") ].

Definition sample_opportunity (s : OpportunityStatus) : JSObject :=
  sample_record "opp-123" s 85.

(** The parsed contents of a backing file whose second record has a score
    out of range. *)
Definition records_with_bad_score : list JSValue :=
  [ JObj (sample_record "opp-1" DETECTED 85);
    JObj (sample_record "opp-2" DETECTED 150) ].

(** The funnel of the detector's first test, and the funnel made of its
    high-dropoff step alone. *)
Definition payment_step : FunnelStep :=
  {| stepName := "Payment"; userCount := 900; dropoffRate := 45 # 100 |}.

Definition checkout_funnel : FunnelData :=
  {| funnelId := "funnel-1"; funnelName := "Checkout Flow";
     steps := [ {| stepName := "Cart"; userCount := 1000;
                   dropoffRate := 1 # 10 |};
                payment_step;
                {| stepName := "Confirmation"; userCount := 495;
                   dropoffRate := 5 # 100 |} ];
     funnel_dateRange := {| dr_start := "2024-01-01"; dr_end := "2024-01-31" |} |}.


(** Satisfaction data in which every respondent is a detractor. *)
Definition all_detractors_nps : NPSData :=
  {| nps_score := -100; responseCount := 100;
     detractors := []; passives := []; promoters := [];
     nps_dateRange := {| dr_start := "2024-01-01"; dr_end := "2024-01-31" |} |}.

(** An impact report: a dropoff metric before and after shipping. *)
Definition sample_impact : JSObject :=
  obj [ ("metricsBefore", JObj (obj [("dropoff", JNum (45 # 100))]));
        ("metricsAfter", JObj (obj [("dropoff", JNum (30 # 100))])) ].

(** A freshly constructed store, before [initialize], next to a backing
    file with the given contents. *)
Definition fresh_world (file : option string) : World :=
  mkWorld ∅ false true file 0 [].

(** An initialized store holding no record, and one holding the sample
    record in a given status. *)
Definition empty_world : World :=
  mkWorld ∅ true true None 0 [].

Definition sample_world (s : OpportunityStatus) : World :=
  mkWorld {[ "opp-123" := sample_opportunity s ]} true true None 0 [].

(** The status the store holds for an id, if any. *)
Definition status_of (w : World) (id : string) : option JSValue :=
  (fun o => prop o "status") <$> opportunities w !! id.

(* ===================================================================== *)
(** ** Further vocabulary and scenarios *)
(* ===================================================================== *)


(** The file holds the serialization of the whole current map. *)
Definition file_in_sync (E : Env) (w : World) : Prop :=
  fs_file w = Some (saved_data E (opportunities w)).

(** The status [s] is the status of record [o]. *)
Definition has_status (s : OpportunityStatus) (o : JSObject) : Prop :=
  strict_eq_str (prop o "status") (status_value s) = true.

#[global] Instance has_status_dec (s : OpportunityStatus) (o : JSObject) :
  Decision (has_status s o).
Proof. unfold has_status. apply _. Defined.

(** The world after [k] calls that are not recorded (clock readings and
    uuid draws): only the counter has moved. *)
Definition after_ticks (k : nat) (w : World) : World := Nat.iter k ticked w.

(** The score of satisfaction data and of a feature, and the tests they
    must pass to yield a candidate, as [detectNPSOpportunities] and
    [detectFeatureUsageOpportunities] make them. *)
Definition nps_opportunity_score (npsData : NPSData) : Z :=
  OpportunityDetector.calculateNPSScore (nps_score npsData)
                                        (responseCount npsData).

Definition nps_candidate (threshold : Q) (npsData : NPSData) : bool :=
  Qlt_bool (nps_score npsData) 30 && Qle_bool 20 (responseCount npsData)
  && Qle_bool threshold (inject_Z (nps_opportunity_score npsData)).

Definition feature_score (feature : FeatureUsageData) : Z :=
  OpportunityDetector.calculateFeatureUsageScore (usageRate feature)
                                                 (totalUsers feature).

Definition feature_candidate (threshold : Q) (feature : FeatureUsageData)
  : bool :=
  Qlt_bool (usageRate feature) (2 # 10) && Qle_bool 100 (totalUsers feature)
  && Qle_bool threshold (inject_Z (feature_score feature)).

(** [o] is a freshly detected record of type [t] carrying [score]: its id
    was drawn from [uuidv4], its status is detected, and it has not been
    posted to Slack. *)
Definition detected_as (E : Env) (t : OpportunityType) (score : Z)
    (o : JSObject) : Prop :=
  (exists n, o !! "id" = Some (JStr (uuidv4 E n))) /\
  prop o "type" = JStr (type_value t) /\
  prop o "status" = JStr (status_value DETECTED) /\
  prop o "score" = JNum (inject_Z score) /\
  o !! "slackMessageTs" = None /\ o !! "specUrl" = None.





(** Environments like [calm_env] in which one collaborator fails: Slack
    refuses every update of a message; Slack refuses the updates that
    show a record with a generated spec; Kiro refuses every feedback. *)
Definition slack_down_env (cfg : OpportunityOSConfig) : Env :=
  {| config := cfg;
     Date_toISOString := Date_toISOString (calm_env cfg);
     uuidv4 := uuidv4 (calm_env cfg);
     JSON_parse := JSON_parse (calm_env cfg);
     JSON_stringify := JSON_stringify (calm_env cfg);
     String_trim := String_trim (calm_env cfg);
     Number_toString := Number_toString (calm_env cfg);
     Number_toFixed1 := Number_toFixed1 (calm_env cfg);
     fs_fault := fs_fault (calm_env cfg);
     slack_postOpportunity := slack_postOpportunity (calm_env cfg);
     slack_updateOpportunity := fun _ _ _ => Some "channel_not_found";
     kiro_generateSpec := kiro_generateSpec (calm_env cfg);
     kiro_provideFeedback := kiro_provideFeedback (calm_env cfg) |}.

Definition slack_refusing_spec_env (cfg : OpportunityOSConfig) : Env :=
  {| config := cfg;
     Date_toISOString := Date_toISOString (calm_env cfg);
     uuidv4 := uuidv4 (calm_env cfg);
     JSON_parse := JSON_parse (calm_env cfg);
     JSON_stringify := JSON_stringify (calm_env cfg);
     String_trim := String_trim (calm_env cfg);
     Number_toString := Number_toString (calm_env cfg);
     Number_toFixed1 := Number_toFixed1 (calm_env cfg);
     fs_fault := fs_fault (calm_env cfg);
     slack_postOpportunity := slack_postOpportunity (calm_env cfg);
     slack_updateOpportunity := fun _ _ o =>
       if strict_eq_str (prop o "status") (status_value SPEC_GENERATED)
       then Some "rate_limited" else None;
     kiro_generateSpec := kiro_generateSpec (calm_env cfg);
     kiro_provideFeedback := kiro_provideFeedback (calm_env cfg) |}.

Definition feedback_down_env (cfg : OpportunityOSConfig) : Env :=
  {| config := cfg;
     Date_toISOString := Date_toISOString (calm_env cfg);
     uuidv4 := uuidv4 (calm_env cfg);
     JSON_parse := JSON_parse (calm_env cfg);
     JSON_stringify := JSON_stringify (calm_env cfg);
     String_trim := String_trim (calm_env cfg);
     Number_toString := Number_toString (calm_env cfg);
     Number_toFixed1 := Number_toFixed1 (calm_env cfg);
     fs_fault := fs_fault (calm_env cfg);
     slack_postOpportunity := slack_postOpportunity (calm_env cfg);
     slack_updateOpportunity := slack_updateOpportunity (calm_env cfg);
     kiro_generateSpec := kiro_generateSpec (calm_env cfg);
     kiro_provideFeedback := fun _ _ _ =>
       Some "Request failed with status code 503" |}.

(** The configuration with automatic spec generation switched on. *)
Definition auto_config : OpportunityOSConfig :=
  ConfigurationManager.validateAndNormalize
    {| partial_minOpportunityScore := None;
       partial_autoGenerateSpecs := Some true |}.

(** The sample record once a spec has been generated for it, and a store
    holding it in a given status. *)
Definition sample_with_spec (s : OpportunityStatus) : JSObject :=
  <["specUrl" := JStr "https://kiro.example/specs/opp-123"]>
    (sample_opportunity s).

Definition spec_world (s : OpportunityStatus) : World :=
  mkWorld {[ "opp-123" := sample_with_spec s ]} true true None 0 [].

(** [kiro.provideFeedback] was called at some point of the trace. *)
Definition is_KiroProvideFeedback (ev : Event) : bool :=
  match ev with KiroProvideFeedback _ _ => true | _ => false end.

Definition provideFeedback_called (w : World) : bool :=
  existsb is_KiroProvideFeedback (trace w).

(** The updates the orchestrators store with a generated spec, and the
    feedback [markAsShipped] sends. *)
Definition spec_update (response : SpecGenerationResponse) : JSObject :=
  obj [ ("status", JStr (status_value SPEC_GENERATED));
        ("specUrl", specUrl response) ].

Definition shipped_feedback (actualImpact : JSObject) : JSObject :=
  obj [ ("rating", JNum 5);
        ("actualImpact", prop actualImpact "metricsAfter") ].

(** The status an action stores first. *)
Definition first_status (A : Action) : OpportunityStatus :=
  match A with
  | promote => PROMOTED
  | dismiss => DISMISSED
  | investigate => INVESTIGATING
  end.

(** Every run of [c], whether it returns or throws, relates the world it
    started in to the world it leaves by [R]. *)
Definition respects {A : Type} (R : World -> World -> Prop) (c : M A) : Prop :=
  forall w r w', c w = (r, w') -> R w w'.

(** The body of the loop of [runDetection]. *)
Definition store_and_post (E : Env) (opp : JSObject) : M unit :=
  OpportunityStore.create E opp ;;
  messageTs <- slack.postOpportunity E opp ;;
  OpportunityStore.update E (Opportunity_id opp)
    (obj [("slackMessageTs", JStr messageTs)]) ;;
  ret tt.

(** The three detectors in a row, as [runDetection] calls them. *)
Definition detect_all (E : Env) (funnels : list FunnelData)
    (npsData : NPSData) (features : list FeatureUsageData)
  : M (list JSObject) :=
  funnelOpps <- OpportunityDetector.detectFunnelOpportunities E funnels ;;
  npsOpps <- OpportunityDetector.detectNPSOpportunities E npsData ;;
  featureOpps <-
    OpportunityDetector.detectFeatureUsageOpportunities E features ;;
  ret (funnelOpps ++ npsOpps ++ featureOpps).





(** No record of [w] is changed or removed in [w']. *)
Definition records_kept (w w' : World) : Prop :=
  forall id o, opportunities w !! id = Some o -> opportunities w' !! id = Some o.



(** One step of the store's invariant, and the fields of a record that
    the actions of the orchestrator write. *)
Definition wf_step (w w' : World) : Prop :=
  store_wf (opportunities w) -> store_wf (opportunities w').

Definition action_fields : list string :=
  ["status"; "updatedAt"; "specUrl"; "actualImpact"].

(** Between [w] and [w'] nothing happened to the store but, at most, a
    change of the fields [keys] (and [id]) of the record stored under
    [id]: no record was added or removed, and the others are as they
    were. *)
Definition only_touches (id : string) (keys : list string) (w w' : World)
  : Prop :=
  (forall other, other <> id ->
     opportunities w' !! other = opportunities w !! other) /\
  (is_Some (opportunities w' !! id) <-> is_Some (opportunities w !! id)) /\
  (forall o o', opportunities w !! id = Some o ->
     opportunities w' !! id = Some o' ->
     forall k : string, k <> "id" -> k ∉ keys -> o' !! k = o !! k).

(** The calls that leave the map of records alone. *)
Definition same_records (w w' : World) : Prop :=
  opportunities w' = opportunities w.

(** A call of the store or of an orchestrator, and a run of such calls
    one after the other, going on after a call that throws as a process
    that serves Slack actions and scheduled detections does. *)
Inductive Operation : Type :=
| call_initialize
| call_create (opportunity : JSObject)
| call_update (id : string) (updates : JSObject)
| call_runDetection (fetched : Fetched)
| call_handleOpportunityAction (id : string) (action : Action)
| call_markAsShipped (id : string) (actualImpact : JSObject)
| call_Demo_handleOpportunityAction_promote (id : string)
| call_Demo_generateSpec (id : string).

Definition call (E : Env) (op : Operation) : M unit :=
  match op with
  | call_initialize => OpportunityStore.initialize E
  | call_create opportunity => OpportunityStore.create E opportunity
  | call_update id updates => OpportunityStore.update E id updates ;; ret tt
  | call_runDetection fetched => OpportunityOS.runDetection E fetched ;; ret tt
  | call_handleOpportunityAction id action =>
      OpportunityOS.handleOpportunityAction E id action
  | call_markAsShipped id actualImpact =>
      OpportunityOS.markAsShipped E id actualImpact
  | call_Demo_handleOpportunityAction_promote id =>
      opportunity <- OpportunityStore.get id ;;
      match opportunity with
      | None => ret tt
      | Some opportunity => DemoOpportunityOS.promoteOpportunity E opportunity
      end
  | call_Demo_generateSpec id => DemoOpportunityOS.generateSpec E id
  end.

Fixpoint calls (E : Env) (ops : list Operation) (w : World) : World :=
  match ops with
  | [] => w
  | op :: ops' => calls E ops' (call E op w).2
  end.

(** The calls made to Kiro so far, most recent first. *)
Definition kiro_calls (w : World) : list Event :=
  List.filter (fun ev => is_KiroGenerateSpec ev || is_KiroProvideFeedback ev)
              (trace w).

Definition same_kiro_calls (w w' : World) : Prop :=
  kiro_calls w' = kiro_calls w.



(* ===================================================================== *)
(** ** [src/config/ConfigurationManager.ts], the whole class *)
(* ===================================================================== *)

(** [v?.k]: [undefined] on [null] and [undefined]; on the other values
    that are not objects, which have no such property, [undefined] as
    well. *)
Definition optional_member (v : JSValue) (k : string) : JSValue :=
  match v with JObj o => prop o k | _ => JUndefined end.

(** [a || b] and [a ?? b]. *)
Definition js_or (a b : JSValue) : JSValue := if truthy a then a else b.

Definition js_nullish (a b : JSValue) : JSValue :=
  match a with JUndefined | JNull => b | _ => a end.

(** The five [Error]s of [validateAndNormalize], by the setting whose
    absence they report. *)
Inductive ConfigurationError : Set :=
| userpilot_apiToken_required
| slack_botToken_required
| slack_appToken_required
| slack_channelId_required
| kiro_apiKey_required.

Module ConfigurationManagerClass.

(** The configuration object as the caller passes it
    ([Partial<OpportunityOSConfig>]), and as the class keeps it. *)
Definition validateAndNormalize (config : JSObject)
  : ConfigurationError + JSObject :=
  let userpilot := prop config "userpilot" in
  let slack := prop config "slack" in
  let kiro := prop config "kiro" in
  if negb (truthy (optional_member userpilot "apiToken"))
  then inl userpilot_apiToken_required else
  if negb (truthy (optional_member slack "botToken"))
  then inl slack_botToken_required else
  if negb (truthy (optional_member slack "appToken"))
  then inl slack_appToken_required else
  if negb (truthy (optional_member slack "channelId"))
  then inl slack_channelId_required else
  if negb (truthy (optional_member kiro "apiKey"))
  then inl kiro_apiKey_required else
  inr (obj
    [ ("userpilot", JObj (obj
         [ ("apiToken", optional_member userpilot "apiToken");
           ("baseUrl", js_or (optional_member userpilot "baseUrl")
                             (JStr "https://api.userpilot.io/v1")) ]));
      ("slack", JObj (obj
         [ ("botToken", optional_member slack "botToken");
           ("appToken", optional_member slack "appToken");
           ("channelId", optional_member slack "channelId") ]));
      ("kiro", JObj (obj
         [ ("apiKey", optional_member kiro "apiKey");
           ("baseUrl", js_or (optional_member kiro "baseUrl")
                             (JStr "https://api.kiro.ai/v1")) ]));
      ("detectionSchedule",
       js_or (prop config "detectionSchedule") (JStr "0 9 * * 1"));
      ("dataStorePath",
       js_or (prop config "dataStorePath") (JStr "./data/opportunities.json"));
      ("logLevel", js_or (prop config "logLevel") (JStr "info"));
      ("minOpportunityScore",
       js_nullish (prop config "minOpportunityScore") (JNum 60));
      ("autoGenerateSpecs",
       js_nullish (prop config "autoGenerateSpecs") (JBool false)) ]).

(** [new ConfigurationManager(config)]: the instance is its [config]
    field. *)
Definition new (config : JSObject) : ConfigurationError + JSObject :=
  validateAndNormalize config.

(** [getConfig()] and [get(key)]. *)
Definition getConfig (this_config : JSObject) : JSObject := this_config.

Definition get (this_config : JSObject) (key : string) : JSValue :=
  prop this_config key.

(** [update(updates)]: the exception thrown, if any, and the [config]
    field afterwards. *)
Definition update (this_config updates : JSObject)
  : option ConfigurationError * JSObject :=
  match validateAndNormalize (updates ∪ this_config) with
  | inl error => (Some error, this_config)
  | inr normalized => (None, normalized)
  end.

(** [ConfigurationManager.validate(config)]. *)
Definition validate (config : JSObject) : bool :=
  match new config with
  | inr _ => true
  | inl _ => false
  end.

End ConfigurationManagerClass.

(** The five required settings of a configuration object, in the order
    in which they are checked. *)
Definition required_settings (config : JSObject) : list JSValue :=
  [ optional_member (prop config "userpilot") "apiToken";
    optional_member (prop config "slack") "botToken";
    optional_member (prop config "slack") "appToken";
    optional_member (prop config "slack") "channelId";
    optional_member (prop config "kiro") "apiKey" ].

Definition configuration_errors : list ConfigurationError :=
  [ userpilot_apiToken_required; slack_botToken_required;
    slack_appToken_required; slack_channelId_required; kiro_apiKey_required ].

(** The keys of a normalized configuration. *)
Definition configuration_keys : list string :=
  [ "userpilot"; "slack"; "kiro"; "detectionSchedule"; "dataStorePath";
    "logLevel"; "minOpportunityScore"; "autoGenerateSpecs" ].

(** A configuration with the five credentials and nothing else, and what
    the constructor makes of it. *)
Definition credentials : JSObject :=
  obj [ ("userpilot", JObj (obj [("apiToken", JStr "up-token")]));
        ("slack", JObj (obj [ ("botToken", JStr "xoxb-token");
                              ("appToken", JStr "xapp-token");
                              ("channelId", JStr "C0123456789") ]));
        ("kiro", JObj (obj [("apiKey", JStr "kiro-key")])) ].

Definition normalized_credentials : JSObject :=
  match ConfigurationManagerClass.new credentials with
  | inr normalized => normalized
  | inl _ => ∅
  end.

(* ===================================================================== *)
(** ** The store: validation *)
(* ===================================================================== *)

Lemma Qlt_bool_false_iff (x y : Q) : Qlt_bool x y = false <-> (y <= x)%Q.
Proof.
  unfold Qlt_bool. rewrite negb_false_iff. apply Qle_bool_iff.
Qed.

Lemma Qlt_bool_true_iff (x y : Q) : Qlt_bool x y = true <-> (x < y)%Q.
Proof.
  unfold Qlt_bool. rewrite negb_true_iff. split.
  - intros H. apply Qnot_le_lt. intros Hle.
    apply Qle_bool_iff in Hle. congruence.
  - intros H. destruct (Qle_bool y x) eqn:Hb; [|reflexivity].
    apply Qle_bool_iff in Hb. exfalso. exact (Qlt_not_le _ _ H Hb).
Qed.

Lemma includes_status_values (v : JSValue) :
  includes OpportunityStatus_values v = true <->
  exists s, v = JStr (status_value s).
Proof.
  split.
  - destruct v as [| | | |str| |]; simpl; try discriminate.
    rewrite !orb_true_iff, !String.eqb_eq.
    intros [H|[H|[H|[H|[H|[H|H]]]]]]; try discriminate; subst.
    + by exists DETECTED.
    + by exists PROMOTED.
    + by exists DISMISSED.
    + by exists INVESTIGATING.
    + by exists SPEC_GENERATED.
    + by exists SHIPPED.
  - intros [s ->]. by destruct s.
Qed.

(** On an object, validation throws one of its three errors or returns. *)
Lemma validateOpportunity_object_cases (o : JSObject) :
  let r := OpportunityStore.validateOpportunity (JObj o) in
  r = Return tt \/ r = Throw InvalidId \/
  r = Throw (InvalidStatus (prop o "status")) \/ r = Throw InvalidScore.
Proof.
  unfold OpportunityStore.validateOpportunity. simpl.
  repeat case_match; auto.
Qed.

Lemma validateOpportunity_object_kind (o : JSObject) (e : Exn) :
  OpportunityStore.validateOpportunity (JObj o) = Throw e ->
  kind_of e = InvalidRecord.
Proof.
  intros H.
  destruct (validateOpportunity_object_cases o) as [H'|[H'|[H'|H']]];
    simpl in H'; rewrite H' in H; by simplify_eq.
Qed.

(** Validation accepts exactly the valid records. *)
Lemma validateOpportunity_valid (o : JSObject) :
  OpportunityStore.validateOpportunity (JObj o) = Return tt <-> valid_record o.
Proof.
  unfold OpportunityStore.validateOpportunity, valid_record. simpl.
  split.
  - intros H.
    destruct (negb (truthy (prop o "id")) || negb (typeof_string (prop o "id")))
      eqn:Hid; [discriminate|].
    destruct (negb (truthy (prop o "type"))
              || negb (includes OpportunityStatus_values (prop o "status")))
      eqn:Hst; [discriminate|].
    destruct (negb (typeof_number (prop o "score")) || num_lt (prop o "score") 0
              || num_gt (prop o "score") 100) eqn:Hsc; [discriminate|].
    apply orb_false_iff in Hid as [Hid1 Hid2].
    apply orb_false_iff in Hst as [Hst1 Hst2].
    apply orb_false_iff in Hsc as [Hsc12 Hsc3].
    apply orb_false_iff in Hsc12 as [Hsc1 Hsc2].
    apply negb_false_iff in Hid1, Hid2, Hst1, Hst2, Hsc1.
    repeat split.
    + unfold prop in Hid1, Hid2.
      destruct (o !! "id") as [[| | | |s| |]|]; try discriminate.
      exists s. split; [done|]. intros ->. discriminate.
    + done.
    + by apply includes_status_values.
    + destruct (prop o "score") as [| | |n| | |]; try discriminate.
      exists n. simpl in Hsc2, Hsc3.
      apply Qlt_bool_false_iff in Hsc2, Hsc3. done.
  - intros ((id & Hid & Hne) & Hty & Hst & (n & Hsc & Hlo & Hhi)).
    unfold prop at 1 2. rewrite Hid. simpl.
    destruct (String.eqb id "") eqn:Heq;
      [apply String.eqb_eq in Heq; done|]. simpl.
    rewrite Hty. apply includes_status_values in Hst. rewrite Hst. simpl.
    rewrite Hsc. simpl.
    apply Qlt_bool_false_iff in Hlo, Hhi. by rewrite Hlo, Hhi.
Qed.

(** What is not an object never passes: [load] only stores objects, under
    the string [id] they carry. *)
Lemma validateOpportunity_accepts (v : JSValue) :
  OpportunityStore.validateOpportunity v = Return tt ->
  exists o id, v = JObj o /\ o !! "id" = Some (JStr id) /\ id <> "" /\
               Opportunity_id o = id.
Proof.
  destruct v as [| | | | | |o]; try discriminate.
  intros H. apply validateOpportunity_valid in H as ((id & Hid & Hne) & _).
  exists o, id. unfold Opportunity_id. by rewrite Hid.
Qed.

(* ===================================================================== *)
(** ** The store: [update] and [create] step by step *)
(* ===================================================================== *)

(** [update], unfolded into its four exits. *)
Lemma update_unfold (E : Env) (id : string) (updates : JSObject) (w : World) :
  OpportunityStore.update E id updates w =
  match opportunities w !! id with
  | None => (Throw (IdNotFound id), w)
  | Some existing =>
      let updated := merged id (Date_toISOString E (tick w)) updates existing in
      match OpportunityStore.validateOpportunity (JObj updated) with
      | Throw e => (Throw e, ticked w)
      | Return _ =>
          let m := <[id := updated]> (opportunities w) in
          let w1 := set_opportunities m (ticked w) in
          match fs_fault E (S (tick w)) with
          | Some code =>
              (Throw (SystemError code),
               called (FsWriteFile (saved_data E m)) w1)
          | None =>
              (Return updated,
               called (FsWriteFile (saved_data E m))
                      (set_fs_file (Some (saved_data E m)) w1))
          end
      end
  end.
Proof.
  unfold OpportunityStore.update, bind, read.
  destruct (opportunities w !! id) as [existing|]; [|reflexivity].
  unfold new_Date_toISOString, lift. fold (merged id (Date_toISOString E (tick w)) updates existing).
  destruct (OpportunityStore.validateOpportunity _); [|reflexivity].
  unfold OpportunityStore.set, OpportunityStore.save, OpportunityStore.values,
    modify, bind, read, fs.writeFile, ret. simpl.
  unfold saved_data. by destruct (fs_fault E (S (tick w))).
Qed.

(** [create], unfolded into its four exits. *)
Lemma create_unfold (E : Env) (opportunity : JSObject) (w : World) :
  OpportunityStore.create E opportunity w =
  match OpportunityStore.validateOpportunity (JObj opportunity) with
  | Throw e => (Throw e, w)
  | Return _ =>
      let id := Opportunity_id opportunity in
      match opportunities w !! id with
      | Some _ => (Throw (IdAlreadyExists id), w)
      | None =>
          let m := <[id := opportunity]> (opportunities w) in
          let w1 := set_opportunities m w in
          match fs_fault E (tick w) with
          | Some code =>
              (Throw (SystemError code),
               called (FsWriteFile (saved_data E m)) w1)
          | None =>
              (Return tt,
               called (FsWriteFile (saved_data E m))
                      (set_fs_file (Some (saved_data E m)) w1))
          end
      end
  end.
Proof.
  unfold OpportunityStore.create, bind, read, lift.
  destruct (OpportunityStore.validateOpportunity _); [|reflexivity].
  destruct (opportunities w !! Opportunity_id opportunity) as [o|] eqn:Hl.
  - rewrite bool_decide_eq_true_2 by eauto. reflexivity.
  - rewrite bool_decide_eq_false_2 by (by intros [? ?]).
    unfold OpportunityStore.set, OpportunityStore.save, OpportunityStore.values,
      modify, bind, read, fs.writeFile, ret. simpl.
    unfold saved_data. by destruct (fs_fault E (tick w)).
Qed.

(** Fields of the merged record. *)
Lemma merged_id id now updates existing :
  merged id now updates existing !! "id" = Some (JStr id).
Proof.
  unfold merged. rewrite lookup_insert_ne by done. apply lookup_insert_eq.
Qed.

Lemma merged_updatedAt id now updates existing :
  merged id now updates existing !! "updatedAt" = Some (JStr now).
Proof. unfold merged. apply lookup_insert_eq. Qed.

Lemma merged_other id now updates existing (k : string) :
  k <> "id" -> k <> "updatedAt" ->
  merged id now updates existing !! k =
  match updates !! k with
  | Some v => Some v
  | None => existing !! k
  end.
Proof.
  intros H1 H2. unfold merged.
  rewrite !lookup_insert_ne by done.
  rewrite lookup_union. by destruct (updates !! k), (existing !! k).
Qed.

(** Changing only the status of a valid record gives a valid record. *)
Lemma merged_status_valid id now (s : OpportunityStatus) (existing : JSObject) :
  stored_ok id existing ->
  valid_record (merged id now (status_update s) existing).
Proof.
  intros [Hv Hid]. apply validateOpportunity_valid in Hv.
  destruct Hv as ((id' & Hid' & Hne) & Hty & _ & Hsc).
  assert (id' = id) as -> by congruence.
  assert (Hs : forall k, k <> "status" -> status_update s !! k = None).
  { intros k Hk. unfold status_update, obj. simpl.
    rewrite lookup_insert_ne by done. apply lookup_empty. }
  repeat split.
  - exists id. by rewrite merged_id.
  - unfold prop. rewrite merged_other, Hs by done. exact Hty.
  - exists s. unfold prop. rewrite merged_other by done.
    unfold status_update, obj. simpl. by rewrite lookup_insert_eq.
  - unfold prop. rewrite merged_other, Hs by done. exact Hsc.
Qed.

(** Whatever [update] throws is a missing id, a validation error or a
    failed write: never an illegal transition. *)
Lemma update_throw_cases (E : Env) id updates w e w' :
  OpportunityStore.update E id updates w = (Throw e, w') ->
  e = IdNotFound id \/ kind_of e = InvalidRecord \/
  exists code, e = SystemError code.
Proof.
  rewrite update_unfold.
  destruct (opportunities w !! id) as [existing|].
  - simpl.
    destruct (OpportunityStore.validateOpportunity _) eqn:Hv.
    + destruct (fs_fault E (S (tick w))); intros; simplify_eq. eauto.
    + intros; simplify_eq. right; left.
      by eapply validateOpportunity_object_kind.
  - intros; simplify_eq. by left.
Qed.

(* ===================================================================== *)
(** ** The store: the contract of [update] *)
(* ===================================================================== *)

(** C8.  [update(id, updates)] throws the not-found error, leaving the
    world as it was, when no record is stored under [id].  When a record
    is stored and the merged record fails validation, it throws that
    validation error (an InvalidRecord) and the map of stored records is
    unchanged.  When the merged record is valid and the write succeeds it
    returns; and whenever it returns, the returned and stored record is
    the shallow merge [{...existing, ...updates}] except that [id] is the
    key it was stored under (its original value) and [updatedAt] is the
    clock's reading. *)
Theorem Store_update_contract (E : Env) (w : World) (id : string)
    (updates : JSObject) :
  let run := OpportunityStore.update E id updates w in
  (opportunities w !! id = None ->
     run = (Throw (IdNotFound id), w) /\
     kind_of (IdNotFound id) = NotFound) /\
  (forall existing, opportunities w !! id = Some existing ->
     let now := Date_toISOString E (tick w) in
     let updated := merged id now updates existing in
     (forall e, OpportunityStore.validateOpportunity (JObj updated) = Throw e ->
        run.1 = Throw e /\ kind_of e = InvalidRecord /\
        opportunities run.2 = opportunities w) /\
     (OpportunityStore.validateOpportunity (JObj updated) = Return tt ->
      fs_fault E (S (tick w)) = None ->
        run.1 = Return updated) /\
     (forall r, run.1 = Return r ->
        r = updated /\
        opportunities run.2 !! id = Some updated /\
        updated !! "id" = Some (JStr id) /\
        (stored_ok id existing -> updated !! "id" = existing !! "id") /\
        updated !! "updatedAt" = Some (JStr now) /\
        (forall k : string, k <> "id" -> k <> "updatedAt" ->
           updated !! k = match updates !! k with
                          | Some v => Some v
                          | None => existing !! k
                          end))).
Proof.
  intros run. subst run. rewrite update_unfold. split.
  - intros ->. done.
  - intros existing ->. cbv zeta. repeat split.
    + by rewrite H.
    + by eapply validateOpportunity_object_kind.
    + by rewrite H.
    + intros Hv Hfs. by rewrite Hv, Hfs.
    + destruct (OpportunityStore.validateOpportunity _); [|done].
      destruct (fs_fault E (S (tick w))); simpl in *; congruence.
    + destruct (OpportunityStore.validateOpportunity _); [|done].
      destruct (fs_fault E (S (tick w))); [done|]. simpl.
      apply lookup_insert_eq.
    + apply merged_id.
    + intros [_ ->]. apply merged_id.
    + apply merged_updatedAt.
    + intros k H1 H2. by apply merged_other.
Qed.

Lemma Store_update_contract_witness :
  (OpportunityStore.update (calm_env default_config) "non-existent"
     (status_update PROMOTED) (sample_world DETECTED)).1
    = Throw (IdNotFound "non-existent") /\
  (let run := OpportunityStore.update (calm_env default_config) "opp-123"
                (obj [("score", JNum 150)]) (sample_world DETECTED) in
   run.1 = Throw InvalidScore /\
   opportunities run.2 = opportunities (sample_world DETECTED)) /\
  (let run := OpportunityStore.update (calm_env default_config) "opp-123"
                (obj [("id", JStr "new-id"); ("score", JNum 90)])
                (sample_world DETECTED) in
   exists r, run.1 = Return r /\
     opportunities run.2 !! "opp-123" = Some r /\
     r !! "id" = Some (JStr "opp-123") /\
     r !! "score" = Some (JNum 90) /\
     r !! "title" = Some (JStr "Test Opportunity")).
Proof.
  split; [|split].
  - destruct (Store_update_contract (calm_env default_config)
                (sample_world DETECTED) "non-existent" (status_update PROMOTED))
      as [H _].
    destruct H as [H _]; [reflexivity|]. by rewrite H.
  - destruct (Store_update_contract (calm_env default_config)
                (sample_world DETECTED) "opp-123" (obj [("score", JNum 150)]))
      as [_ H].
    destruct (H (sample_opportunity DETECTED)) as [Hbad _]; [reflexivity|].
    destruct (Hbad InvalidScore) as (H1 & _ & H2); [vm_compute; reflexivity|].
    split; assumption.
  - destruct (Store_update_contract (calm_env default_config)
                (sample_world DETECTED) "opp-123"
                (obj [("id", JStr "new-id"); ("score", JNum 90)]))
      as [_ H].
    destruct (H (sample_opportunity DETECTED)) as (_ & Hok & Hret);
      [reflexivity|].
    eexists. split; [apply Hok; vm_compute; reflexivity|].
    destruct (Hret _ (Hok ltac:(vm_compute; reflexivity) eq_refl))
      as (_ & Hst & Hid & _ & _ & Hk).
    split; [exact Hst|]. split; [exact Hid|].
    split; [rewrite Hk by done; reflexivity|rewrite Hk by done; reflexivity].
Defined.

(* ===================================================================== *)
(** ** The store: no transition is refused *)
(* ===================================================================== *)

(** C10.  For a stored record (one that passes validation, under the key
    that is its id) and any member [s] of the status enum,
    [update(id, { status: s })] returns when the write succeeds, whatever
    the current status; the stored record then has status [s] and is again
    a valid stored record.  And no call of [update], with any field set,
    throws an illegal-transition error. *)
Theorem Store_update_any_status (E : Env) (w : World) (id : string)
    (existing : JSObject) (s : OpportunityStatus) :
  opportunities w !! id = Some existing ->
  stored_ok id existing ->
  (fs_fault E (S (tick w)) = None ->
   exists updated w',
     OpportunityStore.update E id (status_update s) w = (Return updated, w') /\
     prop updated "status" = JStr (status_value s) /\
     opportunities w' !! id = Some updated /\
     stored_ok id updated) /\
  (forall updates e w',
     OpportunityStore.update E id updates w = (Throw e, w') ->
     kind_of e <> IllegalTransition).
Proof.
  intros Hl Hok. split.
  - intros Hfs. rewrite update_unfold, Hl. cbv zeta.
    set (updated := merged id _ _ existing).
    assert (Hv : valid_record updated) by by apply merged_status_valid.
    pose proof Hv as Hv'. apply validateOpportunity_valid in Hv'.
    rewrite Hv', Hfs. eexists _, _. split; [reflexivity|].
    destruct Hv as (_ & _ & _ & _). repeat split.
    + unfold prop, updated. rewrite merged_other by done.
      unfold status_update, obj. simpl. by rewrite lookup_insert_eq.
    + simpl. apply lookup_insert_eq.
    + exact Hv'.
    + apply merged_id.
  - intros updates e w' H.
    apply update_throw_cases in H as [->|[H|[code ->]]]; [done| |done].
    rewrite H. done.
Qed.

Lemma Store_update_any_status_witness :
  exists updated w',
    OpportunityStore.update (calm_env default_config) "opp-123"
      (status_update DETECTED) (sample_world SHIPPED) = (Return updated, w') /\
    prop updated "status" = JStr "detected" /\
    opportunities w' !! "opp-123" = Some updated /\
    stored_ok "opp-123" updated.
Proof.
  apply (Store_update_any_status (calm_env default_config)
           (sample_world SHIPPED) "opp-123" (sample_opportunity SHIPPED)
           DETECTED).
  - reflexivity.
  - split; vm_compute; reflexivity.
  - reflexivity.
Defined.

(* ===================================================================== *)
(** ** The store: the invariant and what [getAll] lists *)
(* ===================================================================== *)

Lemma store_wf_insert m id o :
  store_wf m -> stored_ok id o -> store_wf (<[id := o]> m).
Proof. intros Hm Ho. by apply map_Forall_insert_2. Qed.

(** A valid record is a valid stored record under its own id. *)
Lemma valid_stored_ok (o : JSObject) :
  OpportunityStore.validateOpportunity (JObj o) = Return tt ->
  stored_ok (Opportunity_id o) o.
Proof.
  intros H. split; [done|].
  apply validateOpportunity_accepts in H as (o' & id & Heq & Hid & _ & Hoid).
  simplify_eq. done.
Qed.

(** [create] and [update] keep the invariant, whether they return or
    throw. *)
Lemma create_preserves_wf (E : Env) (o : JSObject) (w : World) :
  store_wf (opportunities w) ->
  store_wf (opportunities (OpportunityStore.create E o w).2).
Proof.
  intros Hwf. rewrite create_unfold.
  destruct (OpportunityStore.validateOpportunity (JObj o)) as [[]|] eqn:Hv;
    [|done].
  cbv zeta. destruct (opportunities w !! Opportunity_id o); [done|].
  destruct (fs_fault E (tick w)); simpl;
    apply store_wf_insert; auto using valid_stored_ok.
Qed.

Lemma update_preserves_wf (E : Env) id updates (w : World) :
  store_wf (opportunities w) ->
  store_wf (opportunities (OpportunityStore.update E id updates w).2).
Proof.
  intros Hwf. rewrite update_unfold.
  destruct (opportunities w !! id) as [existing|]; [|done]. cbv zeta.
  destruct (OpportunityStore.validateOpportunity _) as [[]|] eqn:Hv; [|done].
  destruct (fs_fault E (S (tick w))); simpl;
    apply store_wf_insert; auto; split; auto using merged_id.
Qed.

(** In a well-formed store, [getAll] lists exactly one record with a
    stored id: the one stored under it. *)
Lemma getAll_one_per_id (m : gmap string JSObject) (id : string) (o : JSObject) :
  store_wf m -> m !! id = Some o ->
  filter (fun r => Opportunity_id r = id) (map_to_list m).*2 = [o].
Proof.
  intros Hwf Hl. apply Permutation_singleton_r.
  rewrite <- (map_to_list_delete m id o Hl). rewrite fmap_cons. simpl.
  rewrite filter_cons_True.
  2:{ destruct (Hwf id o Hl) as [_ Hid]. unfold Opportunity_id. by rewrite Hid. }
  apply Permutation_singleton_r. f_equal.
  apply elem_of_nil_inv. intros r Hr.
  apply list_elem_of_filter in Hr as [Hp Hr].
  apply list_elem_of_fmap in Hr as ([k r'] & -> & Hin). simpl in Hp.
  apply elem_of_map_to_list in Hin.
  destruct (decide (k = id)) as [->|Hne].
  - by rewrite lookup_delete_eq in Hin.
  - rewrite lookup_delete_ne in Hin by done.
    destruct (Hwf k r' Hin) as [_ Hid]. unfold Opportunity_id in Hp.
    rewrite Hid in Hp. congruence.
Qed.

(* ===================================================================== *)
(** ** The store: creating twice under one id *)
(* ===================================================================== *)

(** C7, as stated, fails: [create] validates before it looks for a
    duplicate, so a second call whose record carries the same id but an
    out-of-range score throws the score error, not the already-exists
    error. *)
Lemma Store_create_twice_invalid_second :
  let E := calm_env default_config in
  let first := sample_record "opp-123" DETECTED 85 in
  let second := sample_record "opp-123" DETECTED 150 in
  let run1 := OpportunityStore.create E first empty_world in
  let run2 := OpportunityStore.create E second run1.2 in
  Opportunity_id second = Opportunity_id first /\
  run1.1 = Return tt /\
  run2.1 = Throw InvalidScore /\
  run2.1 <> Throw (IdAlreadyExists "opp-123") /\
  kind_of InvalidScore <> AlreadyExists.
Proof.
  cbv zeta.
  assert (H2 : (OpportunityStore.create (calm_env default_config)
                  (sample_record "opp-123" DETECTED 150)
                  (OpportunityStore.create (calm_env default_config)
                     (sample_record "opp-123" DETECTED 85) empty_world).2).1
               = Throw InvalidScore) by (vm_compute; reflexivity).
  split; [reflexivity|]. split; [vm_compute; reflexivity|].
  split; [exact H2|]. split; [rewrite H2; discriminate|discriminate].
Qed.

(** C7, amended.  When a valid record with a fresh id is created and
    [create] is called again with a record of the same id, the first call
    inserts its record and returns; the second call throws: the
    already-exists error when its record passes validation, and otherwise
    the validation error of that record (validation comes first).  Either
    way the store afterwards holds, under that id, the first call's
    record, and [getAll] lists exactly one record with that id: that
    one. *)
Theorem Store_create_twice (E : Env) (w : World) (first second : JSObject) :
  store_wf (opportunities w) ->
  OpportunityStore.validateOpportunity (JObj first) = Return tt ->
  opportunities w !! Opportunity_id first = None ->
  Opportunity_id second = Opportunity_id first ->
  fs_fault E (tick w) = None ->
  let id := Opportunity_id first in
  let run1 := OpportunityStore.create E first w in
  let run2 := OpportunityStore.create E second run1.2 in
  run1.1 = Return tt /\
  opportunities run1.2 !! id = Some first /\
  (OpportunityStore.validateOpportunity (JObj second) = Return tt ->
     run2.1 = Throw (IdAlreadyExists id)) /\
  (forall e, OpportunityStore.validateOpportunity (JObj second) = Throw e ->
     run2.1 = Throw e /\ kind_of e = InvalidRecord) /\
  opportunities run2.2 !! id = Some first /\
  exists all,
    OpportunityStore.getAll run2.2 = (Return all, run2.2) /\
    filter (fun r => Opportunity_id r = id) all = [first].
Proof.
  intros Hwf Hv Hfresh Hsame Hfs key run1 run2. subst key.
  set (m1 := <[Opportunity_id first := first]> (opportunities w)).
  assert (H1 : run1 = (Return tt,
            called (FsWriteFile (saved_data E m1))
              (set_fs_file (Some (saved_data E m1)) (set_opportunities m1 w)))).
  { subst run1. rewrite create_unfold, Hv. cbv zeta. by rewrite Hfresh, Hfs. }
  assert (Hl1 : opportunities run1.2 !! Opportunity_id first = Some first).
  { rewrite H1. simpl. apply lookup_insert_eq. }
  assert (Hwf1 : store_wf (opportunities run1.2)).
  { subst run1. by apply create_preserves_wf. }
  assert (H2 : run2 =
            match OpportunityStore.validateOpportunity (JObj second) with
            | Return _ => (Throw (IdAlreadyExists (Opportunity_id first)), run1.2)
            | Throw e => (Throw e, run1.2)
            end).
  { subst run2. rewrite create_unfold.
    destruct (OpportunityStore.validateOpportunity (JObj second)); [|done].
    cbv zeta. by rewrite Hsame, Hl1. }
  assert (Hw2 : run2.2 = run1.2).
  { rewrite H2.
    by destruct (OpportunityStore.validateOpportunity (JObj second)). }
  split; [by rewrite H1|]. split; [exact Hl1|].
  split; [intros Hv2; by rewrite H2, Hv2|].
  split.
  { intros e He. split; [by rewrite H2, He|].
    by eapply validateOpportunity_object_kind. }
  split; [by rewrite Hw2|].
  eexists. split; [reflexivity|]. rewrite Hw2.
  by apply getAll_one_per_id.
Qed.

Lemma Store_create_twice_witness :
  let E := calm_env default_config in
  let first := sample_record "opp-123" DETECTED 85 in
  let second := sample_record "opp-123" PROMOTED 40 in
  let run1 := OpportunityStore.create E first empty_world in
  let run2 := OpportunityStore.create E second run1.2 in
  run1.1 = Return tt /\
  run2.1 = Throw (IdAlreadyExists "opp-123") /\
  opportunities run2.2 !! "opp-123" = Some first.
Proof.
  cbv zeta.
  destruct (Store_create_twice (calm_env default_config) empty_world
              (sample_record "opp-123" DETECTED 85)
              (sample_record "opp-123" PROMOTED 40))
    as (H1 & _ & H2 & _ & H3 & _).
  - apply map_Forall_empty.
  - vm_compute; reflexivity.
  - reflexivity.
  - reflexivity.
  - reflexivity.
  - split; [exact H1|]. split; [|exact H3].
    apply H2. vm_compute; reflexivity.
Defined.

(* ===================================================================== *)
(** ** The store: [initialize] and [load] *)
(* ===================================================================== *)

(** What validation throws is neither a missing-file error nor a syntax
    error, so the handler of [load] rethrows it. *)
Lemma validateOpportunity_throw_rethrown (v : JSValue) (e : Exn) :
  OpportunityStore.validateOpportunity v = Throw e ->
  code_is_ENOENT e = false /\ instanceof_SyntaxError e = false.
Proof.
  destruct v as [| |b|n|s|l|o].
  1-6: intros H; cbv in H; by simplify_eq.
  intros H.
  destruct (validateOpportunity_object_cases o) as [H'|[H'|[H'|H']]];
    simpl in H'; rewrite H' in H; by simplify_eq.
Qed.

(** One turn of a [for ... of] loop. *)
Lemma for_of_cons {A : Type} (x : A) (xs : list A) (body : A -> M unit)
    (w : World) :
  for_of (x :: xs) body w =
  match body x w with
  | (Return _, w') => for_of xs body w'
  | (Throw e, w') => (Throw e, w')
  end.
Proof. reflexivity. Qed.

(** One turn of the loop of [load]. *)
Lemma load_record_unfold (r : JSValue) (w : World) :
  load_record r w =
  match OpportunityStore.validateOpportunity r with
  | Throw e => (Throw e, w)
  | Return _ =>
      match r with
      | JObj o =>
          (Return tt,
           set_opportunities (<[Opportunity_id o := o]> (opportunities w)) w)
      | _ => (Return tt, w)
      end
  end.
Proof.
  unfold load_record, bind, lift.
  destruct (OpportunityStore.validateOpportunity r); [|done].
  by destruct r.
Qed.

(** The loop of [load] touches nothing but the map of records. *)
Lemma load_loop_frame (records : list JSValue) (w : World) :
  same_outside w (for_of records load_record w).2.
Proof.
  revert w. induction records as [|r records IH]; intros w; [done|].
  rewrite for_of_cons, load_record_unfold.
  destruct (OpportunityStore.validateOpportunity r); [|done].
  destruct r; try apply IH.
  specialize (IH (set_opportunities
                    (<[Opportunity_id props := props]> (opportunities w)) w)).
  unfold same_outside in *. simpl in *. exact IH.
Qed.

(** The loop throws as soon as one record fails validation. *)
Lemma load_loop_throws (records : list JSValue) (w : World) (r : JSValue) :
  r ∈ records ->
  is_Return (OpportunityStore.validateOpportunity r) = false ->
  exists e, (for_of records load_record w).1 = Throw e /\
            code_is_ENOENT e = false /\ instanceof_SyntaxError e = false.
Proof.
  intros Hin Hbad. revert w.
  induction records as [|r' records IH]; intros w; [by inversion Hin|].
  rewrite for_of_cons, load_record_unfold.
  destruct (OpportunityStore.validateOpportunity r') as [[]|e] eqn:Hv.
  - apply elem_of_cons in Hin as [->|Hin]; [by rewrite Hv in Hbad|].
    destruct r'; by apply IH.
  - exists e. split; [done|]. by eapply validateOpportunity_throw_rethrown.
Qed.

(** The loop returns when every record passes, and what it stores is
    well formed. *)
Lemma load_loop_returns (records : list JSValue) (w : World) :
  Forall (fun r => OpportunityStore.validateOpportunity r = Return tt) records ->
  (for_of records load_record w).1 = Return tt /\
  (store_wf (opportunities w) ->
   store_wf (opportunities (for_of records load_record w).2)).
Proof.
  intros Hall. revert w.
  induction Hall as [|r records Hr Hall IH]; intros w; [done|].
  rewrite for_of_cons, load_record_unfold, Hr.
  pose proof Hr as Hacc.
  apply validateOpportunity_accepts in Hacc as (o & id & -> & Hid & Hne & Hoid).
  destruct (IH (set_opportunities
                  (<[Opportunity_id o := o]> (opportunities w)) w)) as [H1 H2].
  split; [exact H1|]. intros Hwf. apply H2. simpl.
  apply store_wf_insert; [done|]. by apply valid_stored_ok.
Qed.

(** Whether it returns or throws, the loop leaves a well-formed map. *)
Lemma load_loop_wf (records : list JSValue) (w : World) :
  store_wf (opportunities w) ->
  store_wf (opportunities (for_of records load_record w).2).
Proof.
  revert w. induction records as [|r records IH]; intros w Hwf; [done|].
  rewrite for_of_cons, load_record_unfold.
  destruct (OpportunityStore.validateOpportunity r) as [[]|e] eqn:Hv; [|done].
  pose proof Hv as Hacc.
  apply validateOpportunity_accepts in Hacc as (o & id & -> & Hid & Hne & Hoid).
  apply IH. simpl. apply store_wf_insert; [done|]. by apply valid_stored_ok.
Qed.

(** [ensureDirectoryExists] when the directory is there or can be made. *)
Lemma ensureDirectoryExists_ok (E : Env) (w : World) :
  fs_dir w = true \/ fs_fault E (tick w) = None ->
  exists w1, OpportunityStore.ensureDirectoryExists E w = (Return tt, w1) /\
    opportunities w1 = opportunities w /\ initialized w1 = initialized w /\
    fs_file w1 = fs_file w.
Proof.
  unfold OpportunityStore.ensureDirectoryExists, try_catch, fs.access_dir,
    fs.mkdir.
  intros H. destruct (fs_dir w) eqn:Hd; [by eexists|].
  destruct H as [H|H]; [done|]. rewrite H. by eexists.
Qed.

(** [load], unfolded.  The handler's two tests are written out on the
    exceptions of the loop; the other exceptions raised inside the [try]
    are the missing file, the syntax error and the value that is not
    iterable. *)
Lemma load_unfold (E : Env) (w : World) :
  OpportunityStore.load E w =
  match fs_file w with
  | None => (Return tt, set_opportunities ∅ w)
  | Some data =>
      if negb (truthy (JStr data)) || String.eqb (String_trim E data) ""
      then (Return tt, set_opportunities ∅ w)
      else
        match JSON_parse E data with
        | inl _ => (Return tt, set_opportunities ∅ w)
        | inr parsed =>
            match iterate parsed with
            | Throw e => (Throw e, set_opportunities ∅ w)
            | Return items =>
                match for_of items load_record (set_opportunities ∅ w) with
                | (Return _, w') => (Return tt, w')
                | (Throw e, w') =>
                    if code_is_ENOENT e
                    then (Return tt, set_opportunities ∅ w')
                    else if instanceof_SyntaxError e
                    then (Return tt, set_opportunities ∅ w')
                    else (Throw e, w')
                end
            end
        end
  end.
Proof.
  unfold OpportunityStore.load, try_catch, bind, fs.access_file, fs.readFile.
  destruct (fs_file w) as [data|] eqn:Hf; [|reflexivity].
  rewrite Hf.
  destruct (negb (truthy (JStr data)) || String.eqb (String_trim E data) "");
    [reflexivity|].
  unfold JSON_parse_call.
  destruct (JSON_parse E data) as [message|parsed]; [reflexivity|].
  unfold ret, OpportunityStore.clear, modify, lift.
  destruct (iterate parsed) as [items|e] eqn:Hit.
  - match goal with
    | |- context [for_of items ?body ?w0] =>
        change (for_of items body w0) with (for_of items load_record w0)
    end.
    destruct (for_of items load_record (set_opportunities ∅ w))
      as [[[]|e] w']; [reflexivity|].
    unfold throw. by destruct (code_is_ENOENT e), (instanceof_SyntaxError e).
  - destruct parsed; simpl in Hit; by simplify_eq.
Qed.

Lemma load_missing (E : Env) (w : World) :
  fs_file w = None ->
  OpportunityStore.load E w = (Return tt, set_opportunities ∅ w).
Proof. intros H. by rewrite load_unfold, H. Qed.

Lemma load_empty (E : Env) (w : World) (data : string) :
  fs_file w = Some data ->
  data = "" \/ String_trim E data = "" ->
  OpportunityStore.load E w = (Return tt, set_opportunities ∅ w).
Proof.
  intros H Hempty. rewrite load_unfold, H.
  assert (Hc : (negb (truthy (JStr data))
                || String.eqb (String_trim E data) "") = true).
  { destruct Hempty as [-> | ->]; [done|]. apply orb_true_r. }
  by rewrite Hc.
Qed.

Lemma load_unparsable (E : Env) (w : World) (data message : string) :
  fs_file w = Some data ->
  JSON_parse E data = inl message ->
  OpportunityStore.load E w = (Return tt, set_opportunities ∅ w).
Proof.
  intros H Hp. rewrite load_unfold, H, Hp.
  by destruct (negb (truthy (JStr data)) || String.eqb (String_trim E data) "").
Qed.

Lemma load_records (E : Env) (w : World) (data : string)
    (records : list JSValue) :
  fs_file w = Some data ->
  data <> "" -> String_trim E data <> "" ->
  JSON_parse E data = inr (JArr records) ->
  OpportunityStore.load E w =
  match for_of records load_record (set_opportunities ∅ w) with
  | (Return _, w') => (Return tt, w')
  | (Throw e, w') =>
      if code_is_ENOENT e then (Return tt, set_opportunities ∅ w')
      else if instanceof_SyntaxError e then (Return tt, set_opportunities ∅ w')
      else (Throw e, w')
  end.
Proof.
  intros H Hne Htrim Hp. rewrite load_unfold, H, Hp.
  assert (Hc : (negb (truthy (JStr data))
                || String.eqb (String_trim E data) "") = false).
  { apply orb_false_iff. split.
    - simpl. rewrite negb_involutive. by apply String.eqb_neq.
    - by apply String.eqb_neq. }
  by rewrite Hc.
Qed.

(** [initialize] on a store not yet initialized, once the directory is
    there: the outcome is that of [load]. *)
Lemma initialize_unfold (E : Env) (w : World) :
  initialized w = false ->
  fs_dir w = true \/ fs_fault E (tick w) = None ->
  exists w1,
    opportunities w1 = opportunities w /\ initialized w1 = false /\
    fs_file w1 = fs_file w /\
    OpportunityStore.initialize E w =
    match OpportunityStore.load E w1 with
    | (Return _, w2) => (Return tt, set_initialized true w2)
    | (Throw e, w2) => (Throw e, w2)
    end.
Proof.
  intros Hinit Hdir.
  destruct (ensureDirectoryExists_ok E w Hdir) as (w1 & Hens & Ho & Hi & Hf).
  exists w1. rewrite Hi. repeat split; try done.
  unfold OpportunityStore.initialize, bind at 1, read. rewrite Hinit.
  unfold try_catch, bind. rewrite Hens.
  by destruct (OpportunityStore.load E w1) as [[[]|e] w2].
Qed.

(** However [initialize] ends, the map it leaves is well formed: the
    records the orchestrators read back from the store pass validation and
    are stored under their own id. *)
Lemma initialize_wf (E : Env) (w : World) :
  store_wf (opportunities w) ->
  store_wf (opportunities (OpportunityStore.initialize E w).2).
Proof.
  intros Hwf.
  unfold OpportunityStore.initialize, bind at 1, read.
  destruct (initialized w); [done|].
  unfold try_catch, bind at 1.
  destruct (OpportunityStore.ensureDirectoryExists E w) as [[[]|e] w1] eqn:He.
  - assert (Ho : opportunities w1 = opportunities w).
    { revert He.
      unfold OpportunityStore.ensureDirectoryExists, try_catch, fs.access_dir,
        fs.mkdir.
      destruct (fs_dir w); [intros; by simplify_eq|].
      destruct (fs_fault E (tick w)); intros; by simplify_eq. }
    unfold bind. rewrite load_unfold.
    assert (Hempty : store_wf (opportunities (set_opportunities ∅ w1)))
      by apply map_Forall_empty.
    destruct (fs_file w1) as [data|]; [|done].
    destruct (negb (truthy (JStr data)) || String.eqb (String_trim E data) "");
      [done|].
    destruct (JSON_parse E data) as [message|parsed]; [done|].
    destruct (iterate parsed) as [items|e]; [|done].
    pose proof (load_loop_wf items (set_opportunities ∅ w1) Hempty) as Hloop.
    destruct (for_of items load_record (set_opportunities ∅ w1))
      as [[[]|e] w2]; [done|].
    by destruct (code_is_ENOENT e), (instanceof_SyntaxError e).
  - assert (Ho : opportunities w1 = opportunities w).
    { revert He.
      unfold OpportunityStore.ensureDirectoryExists, try_catch, fs.access_dir,
        fs.mkdir.
      destruct (fs_dir w); [intros; by simplify_eq|].
      destruct (fs_fault E (tick w)); intros; by simplify_eq. }
    unfold throw. simpl. by rewrite Ho.
Qed.

(** C6.  On a store that is not yet initialized and whose directory
    exists or can be created: when the backing file is missing, or is
    empty (or blank), [initialize] returns and the store is empty; when the
    contents of the file do not parse (SyntaxError), [initialize] returns
    and the store is empty; when they parse to an array one of whose
    records fails validation, [initialize] throws and the store is left
    uninitialized. *)
Theorem Store_initialize_contract (E : Env) (w : World) :
  initialized w = false ->
  fs_dir w = true \/ fs_fault E (tick w) = None ->
  let run := OpportunityStore.initialize E w in
  ((fs_file w = None \/
    exists data, fs_file w = Some data /\
                 (data = "" \/ String_trim E data = "")) ->
     run.1 = Return tt /\ opportunities run.2 = ∅ /\
     initialized run.2 = true) /\
  (forall data message,
     fs_file w = Some data -> JSON_parse E data = inl message ->
     run.1 = Return tt /\ opportunities run.2 = ∅ /\
     initialized run.2 = true) /\
  (forall data records r,
     fs_file w = Some data ->
     data <> "" -> String_trim E data <> "" ->
     JSON_parse E data = inr (JArr records) ->
     r ∈ records ->
     is_Return (OpportunityStore.validateOpportunity r) = false ->
     exists e, run.1 = Throw e /\ initialized run.2 = false).
Proof.
  intros Hinit Hdir run.
  destruct (initialize_unfold E w Hinit Hdir) as (w1 & Ho & Hi & Hf & Hrun).
  subst run. rewrite Hrun. clear Hrun. split; [|split].
  - intros [Hnone|(data & Hsome & Hempty)].
    + rewrite load_missing by congruence. done.
    + rewrite (load_empty E w1 data) by (congruence || done). done.
  - intros data message Hsome Hp.
    rewrite (load_unparsable E w1 data message) by (congruence || done). done.
  - intros data records r Hsome Hne Htrim Hp Hin Hbad.
    rewrite (load_records E w1 data records) by (congruence || done).
    destruct (load_loop_throws records (set_opportunities ∅ w1) r Hin Hbad)
      as (e & He & Hc & Hs).
    pose proof (load_loop_frame records (set_opportunities ∅ w1)) as (Hfi & _).
    destruct (for_of records load_record (set_opportunities ∅ w1))
      as [[[]|e'] w2]; simpl in He; simplify_eq.
    rewrite Hc, Hs. exists e. split; [done|]. simpl in *. congruence.
Qed.

Lemma Store_initialize_contract_witness :
  (let run := OpportunityStore.initialize (calm_env default_config)
                (fresh_world None) in
   run.1 = Return tt /\ opportunities run.2 = ∅ /\ initialized run.2 = true) /\
  (let run := OpportunityStore.initialize (calm_env default_config)
                (fresh_world (Some "{ not json")) in
   run.1 = Return tt /\ opportunities run.2 = ∅ /\ initialized run.2 = true) /\
  (let run := OpportunityStore.initialize
                (parsing_env (inr (JArr records_with_bad_score)))
                (fresh_world (Some "[...]")) in
   exists e, run.1 = Throw e /\ initialized run.2 = false).
Proof.
  split; [|split].
  - destruct (Store_initialize_contract (calm_env default_config)
                (fresh_world None)) as (H & _ & _);
      [reflexivity|by left|]. apply H. by left.
  - destruct (Store_initialize_contract (calm_env default_config)
                (fresh_world (Some "{ not json"))) as (_ & H & _);
      [reflexivity|by left|].
    by apply (H "{ not json" "Unexpected token").
  - destruct (Store_initialize_contract
                (parsing_env (inr (JArr records_with_bad_score)))
                (fresh_world (Some "[...]"))) as (_ & _ & H);
      [reflexivity|by left|].
    apply (H "[...]" records_with_bad_score
             (JObj (sample_record "opp-2" DETECTED 150))); try done.
    apply elem_of_cons. right. apply elem_of_cons. by left.
Defined.

(* ===================================================================== *)
(** ** The orchestrators: steps *)
(* ===================================================================== *)

(** An update that leaves [type] and [score] alone and sets [status], if
    at all, to a member of the enum, keeps a stored record valid. *)
Lemma merged_stored_ok id now (updates existing : JSObject) :
  stored_ok id existing ->
  updates !! "type" = None -> updates !! "score" = None ->
  (updates !! "status" = None \/
   exists s, updates !! "status" = Some (JStr (status_value s))) ->
  stored_ok id (merged id now updates existing).
Proof.
  intros [Hv Hid] Hty Hsc Hst. split; [|apply merged_id].
  apply validateOpportunity_valid. apply validateOpportunity_valid in Hv.
  destruct Hv as ((id' & Hid' & Hne) & Hty' & Hst' & Hsc').
  assert (id' = id) as -> by congruence.
  repeat split.
  - exists id. by rewrite merged_id.
  - unfold prop. rewrite merged_other, Hty by done. exact Hty'.
  - unfold prop. rewrite merged_other by done.
    destruct Hst as [->|[s ->]]; [exact Hst'|by exists s].
  - unfold prop. rewrite merged_other, Hsc by done. exact Hsc'.
Qed.

Lemma update_returns (E : Env) id updates (w : World) existing :
  opportunities w !! id = Some existing ->
  stored_ok id (merged id (Date_toISOString E (tick w)) updates existing) ->
  fs_fault E (S (tick w)) = None ->
  OpportunityStore.update E id updates w =
  (Return (merged id (Date_toISOString E (tick w)) updates existing),
   after_update E id
     (merged id (Date_toISOString E (tick w)) updates existing) w).
Proof.
  intros Hl [Hv _] Hfs. rewrite update_unfold, Hl. cbv zeta.
  by rewrite Hv, Hfs.
Qed.

Lemma update_slack_message_returns (E : Env) (o : JSObject) (w : World) :
  slack_reliable E ->
  update_slack_message E o w = (Return tt, after_slack o w).
Proof.
  intros Hs. unfold update_slack_message, after_slack.
  destruct (truthy (prop o "slackMessageTs")); [|done].
  unfold slack.updateOpportunity. by rewrite Hs.
Qed.

Lemma after_slack_opportunities o w :
  opportunities (after_slack o w) = opportunities w.
Proof. unfold after_slack. by destruct (truthy _). Qed.

Lemma after_update_lookup E id updated w :
  opportunities (after_update E id updated w) !! id = Some updated.
Proof. simpl. apply lookup_insert_eq. Qed.

(** Closure of [never_illegal] under the constructs of the code. *)
Lemma never_illegal_ret {A} (a : A) : never_illegal (ret a).
Proof. intros w e w' H. discriminate. Qed.

Lemma never_illegal_bind {A B} (c : M A) (k : A -> M B) :
  never_illegal c -> (forall a, never_illegal (k a)) ->
  never_illegal (bind c k).
Proof.
  intros Hc Hk w e w'. unfold bind.
  destruct (c w) as [[a|e1] w1] eqn:Hcw.
  - apply Hk.
  - intros; simplify_eq. by eapply Hc.
Qed.

Lemma never_illegal_try_catch {A} (c : M A) (h : Exn -> M A) :
  never_illegal c ->
  (forall e, kind_of e <> IllegalTransition -> never_illegal (h e)) ->
  never_illegal (try_catch c h).
Proof.
  intros Hc Hh w e w'. unfold try_catch.
  destruct (c w) as [[a|e1] w1] eqn:Hcw; [discriminate|].
  apply Hh. by eapply Hc.
Qed.

Lemma never_illegal_throw {A} (e : Exn) :
  kind_of e <> IllegalTransition -> never_illegal (@throw A e).
Proof. intros He w e' w' H. unfold throw in H. by simplify_eq. Qed.

Lemma never_illegal_if {A} (b : bool) (c1 c2 : M A) :
  never_illegal c1 -> never_illegal c2 ->
  never_illegal (if b then c1 else c2).
Proof. by destruct b. Qed.

Lemma never_illegal_update (E : Env) id updates :
  never_illegal (OpportunityStore.update E id updates).
Proof.
  intros w e w' H.
  apply update_throw_cases in H as [->|[H|[code ->]]]; [done| |done].
  by rewrite H.
Qed.

Lemma never_illegal_get id : never_illegal (OpportunityStore.get id).
Proof. intros w e w' H. discriminate. Qed.

Lemma never_illegal_date (E : Env) : never_illegal (new_Date_toISOString E).
Proof. intros w e w' H. discriminate. Qed.

Lemma never_illegal_slack_update (E : Env) ts o :
  never_illegal (slack.updateOpportunity E ts o).
Proof.
  intros w e w'. unfold slack.updateOpportunity.
  destruct (slack_updateOpportunity E (tick w) ts o); intros; by simplify_eq.
Qed.

Lemma never_illegal_update_slack_message (E : Env) o :
  never_illegal (update_slack_message E o).
Proof.
  unfold update_slack_message.
  apply never_illegal_if;
    [apply never_illegal_slack_update|apply never_illegal_ret].
Qed.

Lemma never_illegal_generateSpec (E : Env) request :
  never_illegal (kiro.generateSpec E request).
Proof.
  intros w e w'. unfold kiro.generateSpec.
  destruct (kiro_generateSpec E (tick w) request); intros; by simplify_eq.
Qed.

Lemma never_illegal_provideFeedback (E : Env) id feedback :
  never_illegal (kiro.provideFeedback E id feedback).
Proof.
  intros w e w'. unfold kiro.provideFeedback.
  destruct (kiro_provideFeedback E (tick w) id feedback);
    intros; by simplify_eq.
Qed.

Create HintDb never_illegal.
#[local] Hint Resolve never_illegal_ret never_illegal_update never_illegal_get
  never_illegal_date never_illegal_update_slack_message
  never_illegal_generateSpec never_illegal_provideFeedback
  never_illegal_throw : never_illegal.
#[local] Hint Extern 2 (never_illegal (bind _ _)) =>
  apply never_illegal_bind; [|intros ?] : never_illegal.
#[local] Hint Extern 2 (never_illegal (try_catch _ _)) =>
  apply never_illegal_try_catch; [|intros ? ?] : never_illegal.
#[local] Hint Extern 2 (never_illegal (if _ then _ else _)) =>
  apply never_illegal_if : never_illegal.
#[local] Hint Extern 3 (never_illegal (match ?x with _ => _ end)) =>
  destruct x : never_illegal.

(** No handler of [OpportunityOS] ever throws an illegal-transition
    error: the only errors are those of the store and of Slack and Kiro. *)
Lemma never_illegal_handleOpportunityAction (E : Env) id (A : Action) :
  never_illegal (OpportunityOS.handleOpportunityAction E id A).
Proof.
  unfold OpportunityOS.handleOpportunityAction,
    OpportunityOS.promoteOpportunity, OpportunityOS.dismissOpportunity,
    OpportunityOS.investigateOpportunity.
  auto 20 with never_illegal.
Qed.

Lemma never_illegal_markAsShipped (E : Env) id impact :
  never_illegal (OpportunityOS.markAsShipped E id impact).
Proof.
  unfold OpportunityOS.markAsShipped.
  auto 20 with never_illegal.
Qed.

(* ===================================================================== *)
(** ** The orchestrators: the flows of the actions *)
(* ===================================================================== *)

Lemma status_update_status s :
  status_update s !! "status" = Some (JStr (status_value s)).
Proof. unfold status_update, obj. simpl. apply lookup_insert_eq. Qed.

Lemma status_update_other s (k : string) :
  k <> "status" -> status_update s !! k = None.
Proof.
  intros Hk. unfold status_update, obj. simpl.
  rewrite lookup_insert_ne by done. apply lookup_empty.
Qed.

Lemma merged_from_updates id now updates existing (k : string) v :
  k <> "id" -> k <> "updatedAt" -> updates !! k = Some v ->
  prop (merged id now updates existing) k = v.
Proof. intros H1 H2 Hu. unfold prop. by rewrite merged_other, Hu. Qed.

Lemma merged_from_existing id now updates existing (k : string) :
  k <> "id" -> k <> "updatedAt" -> updates !! k = None ->
  merged id now updates existing !! k = existing !! k.
Proof. intros H1 H2 Hu. by rewrite merged_other, Hu. Qed.

Lemma stored_ok_Opportunity_id id o : stored_ok id o -> Opportunity_id o = id.
Proof. intros [_ H]. unfold Opportunity_id. by rewrite H. Qed.

Lemma status_update_stored_ok id now s existing :
  stored_ok id existing ->
  stored_ok id (merged id now (status_update s) existing).
Proof.
  intros H. apply merged_stored_ok; [done| | |].
  - by apply status_update_other.
  - by apply status_update_other.
  - right. exists s. apply status_update_status.
Qed.

(** The shape shared by [dismissOpportunity] and [investigateOpportunity]
    (and by the first two statements of [promoteOpportunity]): store the
    new status, then refresh the Slack message. *)
Lemma set_status_flow (E : Env) (s : OpportunityStatus) id opportunity w :
  opportunities w !! id = Some opportunity ->
  stored_ok id opportunity ->
  fs_reliable E -> slack_reliable E ->
  let updated :=
    merged id (Date_toISOString E (tick w)) (status_update s) opportunity in
  bind (OpportunityStore.update E (Opportunity_id opportunity) (status_update s))
       (fun updated => update_slack_message E updated) w
  = (Return tt, after_slack updated (after_update E id updated w)).
Proof.
  intros Hl Hok Hfs Hsl updated. unfold bind.
  rewrite (stored_ok_Opportunity_id id) by done.
  rewrite (update_returns E id _ w opportunity Hl)
    by (auto using status_update_stored_ok).
  by rewrite update_slack_message_returns.
Qed.

(** [promoteOpportunity] when Kiro answers: the record ends in
    [spec_generated] with the answer's [specUrl]. *)
Lemma promote_flow_spec (E : Env) id opportunity w response :
  opportunities w !! id = Some opportunity ->
  stored_ok id opportunity ->
  fs_reliable E -> slack_reliable E ->
  let promoted :=
    merged id (Date_toISOString E (tick w)) (status_update PROMOTED)
           opportunity in
  let w2 := after_slack promoted (after_update E id promoted w) in
  kiro_generateSpec E (tick w2) (spec_request opportunity) = inr response ->
  let w3 := called (KiroGenerateSpec (spec_request opportunity)) w2 in
  let withSpec :=
    merged id (Date_toISOString E (tick w3))
           (obj [ ("status", JStr (status_value SPEC_GENERATED));
                  ("specUrl", specUrl response) ])
           promoted in
  OpportunityOS.promoteOpportunity E opportunity w
  = (Return tt, after_slack withSpec (after_update E id withSpec w3)).
Proof.
  intros Hl Hok Hfs Hsl promoted w2 Hk w3 withSpec.
  unfold OpportunityOS.promoteOpportunity.
  pose proof (set_status_flow E PROMOTED id opportunity w Hl Hok Hfs Hsl)
    as Hflow.
  cbv zeta in Hflow. fold promoted in Hflow. fold w2 in Hflow.
  unfold bind at 1 2. unfold bind in Hflow.
  destruct (OpportunityStore.update E (Opportunity_id opportunity)
              (status_update PROMOTED) w) as [[u|e] w1] eqn:Hu;
    [|discriminate].
  rewrite Hflow. unfold try_catch, bind, kiro.generateSpec.
  rewrite Hk. fold w3.
  assert (Hl3 : opportunities w3 !! id = Some promoted).
  { unfold w3, w2. simpl.
    rewrite after_slack_opportunities. apply after_update_lookup. }
  assert (Hok3 : stored_ok id withSpec).
  { apply merged_stored_ok.
    - by apply status_update_stored_ok.
    - reflexivity.
    - reflexivity.
    - right. by exists SPEC_GENERATED. }
  rewrite (stored_ok_Opportunity_id id) by done.
  rewrite (update_returns E id _ w3 promoted Hl3) by auto.
  by rewrite update_slack_message_returns.
Qed.

(** [promoteOpportunity] when Kiro throws: the handler stores [promoted]
    again and rethrows Kiro's exception. *)
Lemma promote_flow_failure (E : Env) id opportunity w message :
  opportunities w !! id = Some opportunity ->
  stored_ok id opportunity ->
  fs_reliable E -> slack_reliable E ->
  let promoted :=
    merged id (Date_toISOString E (tick w)) (status_update PROMOTED)
           opportunity in
  let w2 := after_slack promoted (after_update E id promoted w) in
  kiro_generateSpec E (tick w2) (spec_request opportunity) = inl message ->
  let w3 := called (KiroGenerateSpec (spec_request opportunity)) w2 in
  let reverted :=
    merged id (Date_toISOString E (tick w3)) (status_update PROMOTED)
           promoted in
  OpportunityOS.promoteOpportunity E opportunity w
  = (Throw (CollaboratorError Kiro message), after_update E id reverted w3).
Proof.
  intros Hl Hok Hfs Hsl promoted w2 Hk w3 reverted.
  unfold OpportunityOS.promoteOpportunity.
  pose proof (set_status_flow E PROMOTED id opportunity w Hl Hok Hfs Hsl)
    as Hflow.
  cbv zeta in Hflow. fold promoted in Hflow. fold w2 in Hflow.
  unfold bind at 1 2. unfold bind in Hflow.
  destruct (OpportunityStore.update E (Opportunity_id opportunity)
              (status_update PROMOTED) w) as [[u|e] w1] eqn:Hu;
    [|discriminate].
  rewrite Hflow. unfold try_catch, bind, kiro.generateSpec.
  rewrite Hk. fold w3.
  assert (Hl3 : opportunities w3 !! id = Some promoted).
  { unfold w3, w2. simpl.
    rewrite after_slack_opportunities. apply after_update_lookup. }
  assert (Hok3 : stored_ok id reverted).
  { apply status_update_stored_ok. by apply status_update_stored_ok. }
  rewrite (stored_ok_Opportunity_id id) by done.
  rewrite (update_returns E id _ w3 promoted Hl3) by auto.
  reflexivity.
Qed.

Lemma generateSpec_called_after_update E id updated w :
  generateSpec_called (after_update E id updated w) = generateSpec_called w.
Proof. reflexivity. Qed.

Lemma generateSpec_called_after_slack o w :
  generateSpec_called (after_slack o w) = generateSpec_called w.
Proof. unfold after_slack. by destruct (truthy _). Qed.

(** [handleOpportunityAction] on a stored id runs the handler of the
    action and passes on what it returns or throws. *)
Lemma handleOpportunityAction_found (E : Env) id opportunity (A : Action) w :
  opportunities w !! id = Some opportunity ->
  OpportunityOS.handleOpportunityAction E id A w =
  match A with
  | promote => OpportunityOS.promoteOpportunity E opportunity w
  | dismiss => OpportunityOS.dismissOpportunity E opportunity w
  | investigate => OpportunityOS.investigateOpportunity E opportunity w
  end.
Proof.
  intros Hl.
  unfold OpportunityOS.handleOpportunityAction, OpportunityStore.get, bind,
    read, try_catch, throw.
  rewrite Hl. destruct A.
  - by destruct (OpportunityOS.promoteOpportunity E opportunity w) as [[[]|e] w'].
  - by destruct (OpportunityOS.dismissOpportunity E opportunity w) as [[[]|e] w'].
  - by destruct (OpportunityOS.investigateOpportunity E opportunity w)
      as [[[]|e] w'].
Qed.

(* ===================================================================== *)
(** ** The orchestrator: actions and the current status *)
(* ===================================================================== *)

(** C1, as stated, fails: the handler does not look at the current
    status.  On a dismissed opportunity, [investigate] returns and the
    stored status becomes [investigating]. *)
Lemma handleOpportunityAction_on_dismissed :
  let run := OpportunityOS.handleOpportunityAction (calm_env default_config)
               "opp-123" investigate (sample_world DISMISSED) in
  status_of (sample_world DISMISSED) "opp-123" = Some (JStr "dismissed") /\
  run.1 = Return tt /\
  status_of run.2 "opp-123" = Some (JStr "investigating").
Proof. vm_compute. repeat split; reflexivity. Qed.

(** The double click of the specification's sixth scenario: the second
    [promote] returns as the first did. *)
Lemma handleOpportunityAction_promote_twice :
  let E := calm_env default_config in
  let run1 := OpportunityOS.handleOpportunityAction E "opp-123" promote
                (sample_world DETECTED) in
  let run2 := OpportunityOS.handleOpportunityAction E "opp-123" promote
                run1.2 in
  run1.1 = Return tt /\ run2.1 = Return tt.
Proof. vm_compute. split; reflexivity. Qed.

(** C1, amended.  For a stored opportunity, whatever its current status,
    [handleOpportunityAction(id, A)] returns for each of the three actions
    when the file write, Slack and Kiro do not fail; after [dismiss] the
    stored status is [dismissed] and after [investigate] it is
    [investigating].  No call ever throws an illegal-transition error. *)
Theorem handleOpportunityAction_any_status (E : Env) (w : World) (id : string)
    (opportunity : JSObject) (A : Action) :
  opportunities w !! id = Some opportunity ->
  stored_ok id opportunity ->
  (fs_reliable E -> slack_reliable E -> kiro_reliable E ->
   exists w',
     OpportunityOS.handleOpportunityAction E id A w = (Return tt, w') /\
     match A with
     | promote => True
     | dismiss => status_of w' id = Some (JStr (status_value DISMISSED))
     | investigate =>
         status_of w' id = Some (JStr (status_value INVESTIGATING))
     end) /\
  (forall e w',
     OpportunityOS.handleOpportunityAction E id A w = (Throw e, w') ->
     kind_of e <> IllegalTransition).
Proof.
  intros Hl Hok. split; [|apply never_illegal_handleOpportunityAction].
  intros Hfs Hsl [Hgen _].
  rewrite (handleOpportunityAction_found E id opportunity A w Hl).
  destruct A.
  - destruct (Hgen (tick (after_slack
                 (merged id (Date_toISOString E (tick w))
                         (status_update PROMOTED) opportunity)
                 (after_update E id
                    (merged id (Date_toISOString E (tick w))
                            (status_update PROMOTED) opportunity) w)))
                (spec_request opportunity)) as [response Hk].
    rewrite (promote_flow_spec E id opportunity w response) by done.
    by eexists.
  - unfold OpportunityOS.dismissOpportunity.
    rewrite (set_status_flow E DISMISSED id opportunity w) by done.
    eexists. split; [reflexivity|].
    unfold status_of.
    rewrite after_slack_opportunities, after_update_lookup. simpl.
    f_equal. apply merged_from_updates; [done|done|].
    apply status_update_status.
  - unfold OpportunityOS.investigateOpportunity.
    rewrite (set_status_flow E INVESTIGATING id opportunity w) by done.
    eexists. split; [reflexivity|].
    unfold status_of.
    rewrite after_slack_opportunities, after_update_lookup. simpl.
    f_equal. apply merged_from_updates; [done|done|].
    apply status_update_status.
Qed.

Lemma calm_env_reliable cfg :
  fs_reliable (calm_env cfg) /\ slack_reliable (calm_env cfg) /\
  kiro_reliable (calm_env cfg).
Proof.
  split; [|split; [|split]].
  - intros n. reflexivity.
  - intros n ts o. reflexivity.
  - intros n request. eexists. reflexivity.
  - intros n id feedback. reflexivity.
Defined.

Lemma sample_stored_ok s : stored_ok "opp-123" (sample_opportunity s).
Proof. split; destruct s; vm_compute; reflexivity. Defined.

Lemma handleOpportunityAction_any_status_witness :
  exists w',
    OpportunityOS.handleOpportunityAction (calm_env default_config) "opp-123"
      dismiss (sample_world SHIPPED) = (Return tt, w') /\
    status_of w' "opp-123" = Some (JStr "dismissed").
Proof.
  destruct (handleOpportunityAction_any_status (calm_env default_config)
              (sample_world SHIPPED) "opp-123" (sample_opportunity SHIPPED)
              dismiss) as [H _].
  - reflexivity.
  - apply sample_stored_ok.
  - apply H; apply calm_env_reliable.
Defined.

(* ===================================================================== *)
(** ** The orchestrator: promotion and spec generation *)
(* ===================================================================== *)

(** C4 (what the code does where the claim expects otherwise).  With
    [autoGenerateSpecs] off, promoting a stored opportunity through
    [OpportunityOS] still calls [kiro.generateSpec]; when Kiro answers, the
    stored record ends in [spec_generated] with the answer's [specUrl].
    [promoteOpportunity] never reads the setting. *)
Theorem promote_generates_spec_with_setting_off (E : Env) (w : World)
    (id : string) (opportunity : JSObject) :
  autoGenerateSpecs (config E) = false ->
  opportunities w !! id = Some opportunity ->
  stored_ok id opportunity ->
  fs_reliable E -> slack_reliable E -> kiro_reliable E ->
  exists w' response stored,
    OpportunityOS.handleOpportunityAction E id promote w = (Return tt, w') /\
    generateSpec_called w' = true /\
    opportunities w' !! id = Some stored /\
    prop stored "status" = JStr (status_value SPEC_GENERATED) /\
    prop stored "specUrl" = specUrl response.
Proof.
  intros _ Hl Hok Hfs Hsl [Hgen _].
  rewrite (handleOpportunityAction_found E id opportunity promote w Hl).
  set (promoted := merged id (Date_toISOString E (tick w))
                          (status_update PROMOTED) opportunity).
  set (w2 := after_slack promoted (after_update E id promoted w)).
  destruct (Hgen (tick w2) (spec_request opportunity)) as [response Hk].
  rewrite (promote_flow_spec E id opportunity w response) by done.
  eexists _, response, _. split; [reflexivity|].
  split; [|split; [|split]].
  - rewrite generateSpec_called_after_slack, generateSpec_called_after_update.
    reflexivity.
  - rewrite after_slack_opportunities. apply after_update_lookup.
  - by apply merged_from_updates.
  - by apply merged_from_updates.
Qed.

Lemma promote_generates_spec_with_setting_off_witness :
  autoGenerateSpecs default_config = false /\
  status_of (sample_world DETECTED) "opp-123" = Some (JStr "detected") /\
  exists w' response stored,
    OpportunityOS.handleOpportunityAction (calm_env default_config) "opp-123"
      promote (sample_world DETECTED) = (Return tt, w') /\
    generateSpec_called w' = true /\
    opportunities w' !! "opp-123" = Some stored /\
    prop stored "status" = JStr "spec_generated" /\
    prop stored "specUrl" = specUrl response.
Proof.
  split; [reflexivity|]. split; [reflexivity|].
  apply (promote_generates_spec_with_setting_off (calm_env default_config)
           (sample_world DETECTED) "opp-123" (sample_opportunity DETECTED)).
  - reflexivity.
  - reflexivity.
  - apply sample_stored_ok.
  - apply calm_env_reliable.
  - apply calm_env_reliable.
  - apply calm_env_reliable.
Defined.

(** The sibling [DemoOpportunityOS.promoteOpportunity] does read the
    setting: with it off, the record ends in [promoted], its [specUrl] is
    untouched and Kiro is not called. *)
Lemma Demo_promote_with_setting_off (E : Env) (w : World) (id : string)
    (opportunity : JSObject) :
  autoGenerateSpecs (config E) = false ->
  opportunities w !! id = Some opportunity ->
  stored_ok id opportunity ->
  fs_reliable E -> slack_reliable E ->
  exists w' stored,
    DemoOpportunityOS.promoteOpportunity E opportunity w = (Return tt, w') /\
    generateSpec_called w' = generateSpec_called w /\
    opportunities w' !! id = Some stored /\
    prop stored "status" = JStr (status_value PROMOTED) /\
    stored !! "specUrl" = opportunity !! "specUrl".
Proof.
  intros Hoff Hl Hok Hfs Hsl.
  unfold DemoOpportunityOS.promoteOpportunity. rewrite Hoff. simpl.
  pose proof (set_status_flow E PROMOTED id opportunity w Hl Hok Hfs Hsl)
    as Hflow.
  cbv zeta in Hflow. unfold bind in *.
  destruct (OpportunityStore.update E (Opportunity_id opportunity)
              (status_update PROMOTED) w) as [[u|e] w1] eqn:Hu;
    [|discriminate].
  destruct (update_slack_message E u w1) as [[[]|e] w2] eqn:Hs;
    [|discriminate].
  eexists _, _. split; [reflexivity|]. simplify_eq.
  split; [|split; [|split]].
  - by rewrite generateSpec_called_after_slack,
      generateSpec_called_after_update.
  - rewrite after_slack_opportunities. apply after_update_lookup.
  - apply merged_from_updates; [done|done|apply status_update_status].
  - by apply merged_from_existing.
Qed.

(** The one status check in the modelled sources: the manual trigger of
    [DemoOpportunityOS] refuses a record that is not [promoted], and that
    refusal is what the taxonomy calls an illegal transition. *)
Lemma Demo_generateSpec_requires_promoted (E : Env) (w : World) (id : string)
    (opportunity : JSObject) :
  opportunities w !! id = Some opportunity ->
  prop opportunity "status" <> JStr (status_value PROMOTED) ->
  DemoOpportunityOS.generateSpec E id w
    = (Throw (MustBePromoted (prop opportunity "status")), w) /\
  kind_of (MustBePromoted (prop opportunity "status")) = IllegalTransition.
Proof.
  intros Hl Hst. split; [|reflexivity].
  unfold DemoOpportunityOS.generateSpec, OpportunityStore.get, bind, read.
  rewrite Hl.
  assert (Hne : strict_eq_str (prop opportunity "status")
                              (status_value PROMOTED) = false).
  { destruct (prop opportunity "status") as [| | | |s| |]; try reflexivity.
    simpl. apply String.eqb_neq. intros ->. by apply Hst. }
  by rewrite Hne.
Qed.

(** C5.  When [kiro.generateSpec] throws during a promote (the store's
    write and Slack not failing), the promote action throws Kiro's
    exception to its caller, Kiro was indeed called, and the stored record
    has status [promoted] and the [specUrl] it had before: unset if it was
    unset. *)
Theorem promote_spec_failure_reverts (E : Env) (w : World) (id : string)
    (opportunity : JSObject) (message : string) :
  opportunities w !! id = Some opportunity ->
  stored_ok id opportunity ->
  fs_reliable E -> slack_reliable E ->
  kiro_generateSpec_throws E message ->
  exists w' stored,
    OpportunityOS.handleOpportunityAction E id promote w
      = (Throw (CollaboratorError Kiro message), w') /\
    generateSpec_called w' = true /\
    opportunities w' !! id = Some stored /\
    prop stored "status" = JStr (status_value PROMOTED) /\
    stored !! "specUrl" = opportunity !! "specUrl" /\
    (prop opportunity "specUrl" = JUndefined ->
     prop stored "specUrl" = JUndefined).
Proof.
  intros Hl Hok Hfs Hsl Hk.
  rewrite (handleOpportunityAction_found E id opportunity promote w Hl).
  rewrite (promote_flow_failure E id opportunity w message) by done.
  eexists _, _. split; [reflexivity|].
  assert (Hspec :
    merged id
      (Date_toISOString E
         (tick (called (KiroGenerateSpec (spec_request opportunity))
                  (after_slack
                     (merged id (Date_toISOString E (tick w))
                             (status_update PROMOTED) opportunity)
                     (after_update E id
                        (merged id (Date_toISOString E (tick w))
                                (status_update PROMOTED) opportunity) w)))))
      (status_update PROMOTED)
      (merged id (Date_toISOString E (tick w)) (status_update PROMOTED)
              opportunity) !! "specUrl"
    = opportunity !! "specUrl").
  { rewrite !merged_from_existing by (done || by apply status_update_other).
    reflexivity. }
  split; [|split; [|split; [|split]]].
  - rewrite generateSpec_called_after_update. reflexivity.
  - apply after_update_lookup.
  - apply merged_from_updates; [done|done|apply status_update_status].
  - exact Hspec.
  - unfold prop. rewrite Hspec. done.
Qed.

Lemma promote_spec_failure_reverts_witness :
  exists w' stored,
    OpportunityOS.handleOpportunityAction (kiro_down_env default_config)
      "opp-123" promote (sample_world DETECTED)
      = (Throw (CollaboratorError Kiro "Request failed with status code 500"),
         w') /\
    generateSpec_called w' = true /\
    opportunities w' !! "opp-123" = Some stored /\
    prop stored "status" = JStr "promoted" /\
    prop stored "specUrl" = JUndefined.
Proof.
  destruct (promote_spec_failure_reverts (kiro_down_env default_config)
              (sample_world DETECTED) "opp-123" (sample_opportunity DETECTED)
              "Request failed with status code 500")
    as (w' & stored & H1 & H2 & H3 & H4 & _ & H6).
  - reflexivity.
  - apply sample_stored_ok.
  - intros n. reflexivity.
  - intros n ts o. reflexivity.
  - intros n request. reflexivity.
  - exists w', stored. repeat split; try assumption.
    apply H6. reflexivity.
Defined.

(* ===================================================================== *)
(** ** The orchestrator: marking as shipped *)
(* ===================================================================== *)

(** C2, as stated, fails: [markAsShipped] does not look at the current
    status.  On an opportunity that is only [detected] it returns, and the
    stored record becomes [shipped]. *)
Lemma markAsShipped_on_detected :
  let run := OpportunityOS.markAsShipped (calm_env default_config)
               "opp-123" sample_impact (sample_world DETECTED) in
  status_of (sample_world DETECTED) "opp-123" = Some (JStr "detected") /\
  run.1 = Return tt /\
  status_of run.2 "opp-123" = Some (JStr "shipped") /\
  opportunities run.2 <> opportunities (sample_world DETECTED).
Proof.
  cbv zeta. split; [reflexivity|]. split; [vm_compute; reflexivity|].
  assert (H : status_of
                (OpportunityOS.markAsShipped (calm_env default_config)
                   "opp-123" sample_impact (sample_world DETECTED)).2
                "opp-123"
              = Some (JStr "shipped")) by (vm_compute; reflexivity).
  split; [exact H|].
  intros Heq. unfold status_of in H. rewrite Heq in H.
  vm_compute in H. discriminate.
Qed.

(** C2, amended.  For a stored opportunity, whatever its current status,
    [markAsShipped(id, impact)] returns when the file write, Slack and
    Kiro do not fail; the stored record then has status [shipped] and the
    given impact, stamped with the time of the call.  No call ever throws
    an illegal-transition error. *)
Theorem markAsShipped_any_status (E : Env) (w : World) (id : string)
    (opportunity impact : JSObject) :
  opportunities w !! id = Some opportunity ->
  stored_ok id opportunity ->
  (fs_reliable E -> slack_reliable E -> kiro_reliable E ->
   exists w' stored,
     OpportunityOS.markAsShipped E id impact w = (Return tt, w') /\
     opportunities w' !! id = Some stored /\
     prop stored "status" = JStr (status_value SHIPPED) /\
     prop stored "actualImpact" =
       JObj (<["measuredAt" := JStr (Date_toISOString E (tick w))]> impact)) /\
  (forall e w',
     OpportunityOS.markAsShipped E id impact w = (Throw e, w') ->
     kind_of e <> IllegalTransition).
Proof.
  intros Hl Hok. split; [|apply never_illegal_markAsShipped].
  intros Hfs Hsl [_ Hfb].
  unfold OpportunityOS.markAsShipped, OpportunityStore.get, bind at 1, read.
  rewrite Hl. unfold bind at 1, new_Date_toISOString.
  set (updates := obj [ ("status", JStr (status_value SHIPPED));
                        ("actualImpact",
                         JObj (<["measuredAt" := JStr (Date_toISOString E (tick w))]>
                                 impact)) ]).
  set (shipped := merged id (Date_toISOString E (tick (ticked w))) updates
                         opportunity).
  assert (Hok' : stored_ok id shipped).
  { apply merged_stored_ok; [done|reflexivity|reflexivity|].
    right. by exists SHIPPED. }
  unfold bind at 1.
  rewrite (update_returns E id updates (ticked w) opportunity) by auto.
  fold shipped. unfold bind.
  rewrite update_slack_message_returns by done.
  assert (Hst : prop shipped "status" = JStr (status_value SHIPPED))
    by by apply merged_from_updates.
  assert (Him : prop shipped "actualImpact" =
                JObj (<["measuredAt" := JStr (Date_toISOString E (tick w))]>
                        impact))
    by by apply merged_from_updates.
  destruct (truthy (prop opportunity "specUrl")).
  - unfold kiro.provideFeedback. rewrite Hfb.
    eexists _, shipped. split; [reflexivity|]. simpl.
    rewrite after_slack_opportunities. simpl.
    rewrite lookup_insert_eq. done.
  - eexists _, shipped. split; [reflexivity|].
    rewrite after_slack_opportunities. simpl.
    rewrite lookup_insert_eq. done.
Qed.

Lemma markAsShipped_any_status_witness :
  exists w' stored,
    OpportunityOS.markAsShipped (calm_env default_config) "opp-123"
      sample_impact (sample_world INVESTIGATING) = (Return tt, w') /\
    opportunities w' !! "opp-123" = Some stored /\
    prop stored "status" = JStr "shipped".
Proof.
  destruct (markAsShipped_any_status (calm_env default_config)
              (sample_world INVESTIGATING) "opp-123"
              (sample_opportunity INVESTIGATING) sample_impact)
    as [H _].
  - reflexivity.
  - apply sample_stored_ok.
  - destruct H as (w' & stored & H1 & H2 & H3 & _);
      try apply calm_env_reliable.
    by exists w', stored.
Defined.

(* ===================================================================== *)
(** ** The detector: scores *)
(* ===================================================================== *)









(** C3 (where the code departs from the claim).  The aggregate score -100
    with 100 responses is valid satisfaction data, and
    [calculateNPSScore] gives it 290: the base term is not capped at 70.
    With the default threshold the detector emits a candidate carrying
    that score, and the store refuses the candidate with its score
    error. *)
Theorem calculateNPSScore_exceeds_100 :
  (-100 <= nps_score all_detractors_nps <= 100)%Q /\
  (0 <= responseCount all_detractors_nps)%Q /\
  OpportunityDetector.calculateNPSScore (nps_score all_detractors_nps)
    (responseCount all_detractors_nps) = 290%Z /\
  exists candidate w',
    OpportunityDetector.detectNPSOpportunities (calm_env default_config)
      all_detractors_nps empty_world = (Return [candidate], w') /\
    prop candidate "score" = JNum 290 /\
    (OpportunityStore.create (calm_env default_config) candidate w').1
      = Throw InvalidScore.
Proof.
  split; [split; vm_compute; discriminate|].
  split; [vm_compute; discriminate|].
  split; [vm_compute; reflexivity|].
  eexists _, _. split; [vm_compute; reflexivity|].
  split; vm_compute; reflexivity.
Qed.

(* ===================================================================== *)
(** ** The detector: funnel candidates *)
(* ===================================================================== *)

(** One turn of a collecting loop. *)
Lemma collect_cons {A B : Type} (body : nat -> A -> M (list B)) (i : nat)
    (x : A) (xs : list A) (w : World) :
  collect body i (x :: xs) w =
  match body i x w with
  | (Return pushed, w1) =>
      match collect body (S i) xs w1 with
      | (Return more, w2) => (Return (pushed ++ more), w2)
      | (Throw e, w2) => (Throw e, w2)
      end
  | (Throw e, w1) => (Throw e, w1)
  end.
Proof.
  simpl. unfold bind, ret.
  destruct (body i x w) as [[pushed|e] w1]; [|done].
  by destruct (collect body (S i) xs w1) as [[more|e] w2].
Qed.







(** The funnel of the detector's test, three steps of which one exceeds
    the dropoff threshold: one candidate, of score 72. *)
Lemma detectFunnelOpportunities_checkout :
  exists candidate w',
    OpportunityDetector.detectFunnelOpportunities (calm_env default_config)
      [checkout_funnel] empty_world = (Return [candidate], w') /\
    prop candidate "score" = JNum 72.
Proof. eexists _, _. split; vm_compute; reflexivity. Qed.

(* ===================================================================== *)
(** ** The store: further properties *)
(* ===================================================================== *)

(** X1.  What [create] or [update] has stored, [get] hands back: after
    [create] returns, [get] of the record's id returns that record; after
    [update] returns a record, [get] of the id returns that same record.
    [get] itself never throws and changes nothing. *)
Theorem Store_get_after_write (E : Env) (w : World) :
  (forall o,
     (OpportunityStore.create E o w).1 = Return tt ->
     OpportunityStore.get (Opportunity_id o) (OpportunityStore.create E o w).2
       = (Return (Some o), (OpportunityStore.create E o w).2)) /\
  (forall id updates r,
     (OpportunityStore.update E id updates w).1 = Return r ->
     OpportunityStore.get id (OpportunityStore.update E id updates w).2
       = (Return (Some r), (OpportunityStore.update E id updates w).2)) /\
  (forall id, exists found, OpportunityStore.get id w = (Return found, w)).
Proof.
  split; [|split].
  - intros o. rewrite create_unfold.
    destruct (OpportunityStore.validateOpportunity (JObj o)); [|done].
    cbv zeta. destruct (opportunities w !! Opportunity_id o); [done|].
    destruct (fs_fault E (tick w)); [done|]. intros _.
    unfold OpportunityStore.get, read. simpl. by rewrite lookup_insert_eq.
  - intros id updates r. rewrite update_unfold.
    destruct (opportunities w !! id) as [existing|]; [|done]. cbv zeta.
    destruct (OpportunityStore.validateOpportunity _); [|done].
    destruct (fs_fault E (S (tick w))); [done|]. simpl. intros [= <-].
    unfold OpportunityStore.get, read. simpl. by rewrite lookup_insert_eq.
  - intros id. by eexists.
Qed.

Lemma Store_get_after_write_witness :
  let E := calm_env default_config in
  let run := OpportunityStore.create E (sample_opportunity DETECTED)
               empty_world in
  OpportunityStore.get "opp-123" run.2
    = (Return (Some (sample_opportunity DETECTED)), run.2).
Proof.
  cbv zeta.
  destruct (Store_get_after_write (calm_env default_config) empty_world)
    as [H _].
  apply (H (sample_opportunity DETECTED)). vm_compute. reflexivity.
Defined.



(** X3.  [create] and [update] touch one record only: whatever they
    return or throw, the record stored under any other id is what it
    was. *)
Theorem Store_write_leaves_other_ids (E : Env) (w : World) (other : string) :
  (forall o, other <> Opportunity_id o ->
     opportunities (OpportunityStore.create E o w).2 !! other
       = opportunities w !! other) /\
  (forall id updates, other <> id ->
     opportunities (OpportunityStore.update E id updates w).2 !! other
       = opportunities w !! other).
Proof.
  split.
  - intros o Hne. rewrite create_unfold.
    destruct (OpportunityStore.validateOpportunity (JObj o)); [|done].
    cbv zeta. destruct (opportunities w !! Opportunity_id o); [done|].
    destruct (fs_fault E (tick w)); simpl; by rewrite lookup_insert_ne.
  - intros id updates Hne. rewrite update_unfold.
    destruct (opportunities w !! id) as [existing|]; [|done]. cbv zeta.
    destruct (OpportunityStore.validateOpportunity _); [|done].
    destruct (fs_fault E (S (tick w))); simpl; by rewrite lookup_insert_ne.
Qed.

Lemma Store_write_leaves_other_ids_witness :
  opportunities
    (OpportunityStore.update (calm_env default_config) "opp-456"
       (status_update PROMOTED) (sample_world DETECTED)).2 !! "opp-123"
  = Some (sample_opportunity DETECTED).
Proof.
  destruct (Store_write_leaves_other_ids (calm_env default_config)
              (sample_world DETECTED) "opp-123") as [_ H].
  rewrite H; [reflexivity|discriminate].
Defined.

(** X4.  Every successful mutation rewrites the whole file: whenever
    [create] or [update] returns, the file holds the serialization of the
    complete current map. *)
Theorem Store_file_in_sync_after_write (E : Env) (w : World) :
  (forall o,
     (OpportunityStore.create E o w).1 = Return tt ->
     file_in_sync E (OpportunityStore.create E o w).2) /\
  (forall id updates r,
     (OpportunityStore.update E id updates w).1 = Return r ->
     file_in_sync E (OpportunityStore.update E id updates w).2).
Proof.
  unfold file_in_sync. split.
  - intros o. rewrite create_unfold.
    destruct (OpportunityStore.validateOpportunity (JObj o)); [|done].
    cbv zeta. destruct (opportunities w !! Opportunity_id o); [done|].
    by destruct (fs_fault E (tick w)).
  - intros id updates r. rewrite update_unfold.
    destruct (opportunities w !! id) as [existing|]; [|done]. cbv zeta.
    destruct (OpportunityStore.validateOpportunity _); [|done].
    by destruct (fs_fault E (S (tick w))).
Qed.

Lemma Store_file_in_sync_after_write_witness :
  file_in_sync (calm_env default_config)
    (OpportunityStore.update (calm_env default_config) "opp-123"
       (status_update PROMOTED) (sample_world DETECTED)).2.
Proof.
  destruct (Store_file_in_sync_after_write (calm_env default_config)
              (sample_world DETECTED)) as [_ H].
  eapply (H "opp-123" (status_update PROMOTED)). vm_compute. reflexivity.
Defined.

(** X5.  [initialize] runs once.  When it has returned, the store is
    marked initialized, and any later call returns at once without
    touching anything: not even a backing file that has changed in the
    meantime is read again. *)
Theorem Store_initialize_once (E : Env) (w : World) :
  (OpportunityStore.initialize E w).1 = Return tt ->
  initialized (OpportunityStore.initialize E w).2 = true /\
  forall (E' : Env) (file' : option string),
    let w1 := set_fs_file file' (OpportunityStore.initialize E w).2 in
    OpportunityStore.initialize E' w1 = (Return tt, w1).
Proof.
  intros Hret.
  assert (Hinit : initialized (OpportunityStore.initialize E w).2 = true).
  { revert Hret.
    unfold OpportunityStore.initialize, bind, read, try_catch.
    destruct (initialized w) eqn:Hi; [intros _; exact Hi|].
    destruct (OpportunityStore.ensureDirectoryExists E w) as [[[]|e] w1];
      [|done].
    by destruct (OpportunityStore.load E w1) as [[[]|e] w2]. }
  split; [exact Hinit|].
  intros E' file' w1.
  unfold OpportunityStore.initialize, bind, read.
  subst w1. simpl. by rewrite Hinit.
Qed.

Lemma Store_initialize_once_witness :
  let w1 := set_fs_file (Some "[...]")
              (OpportunityStore.initialize (calm_env default_config)
                 (fresh_world None)).2 in
  OpportunityStore.initialize
    (parsing_env (inr (JArr records_with_bad_score))) w1 = (Return tt, w1).
Proof.
  cbv zeta.
  destruct (Store_initialize_once (calm_env default_config) (fresh_world None))
    as [_ H]; [vm_compute; reflexivity|].
  apply H.
Defined.

(** The loop of [load] leaves alone every id that no record carries. *)
Lemma load_loop_other_ids (records : list JSValue) (w : World) (id : string) :
  (forall o, JObj o ∈ records -> Opportunity_id o <> id) ->
  opportunities (for_of records load_record w).2 !! id = opportunities w !! id.
Proof.
  revert w. induction records as [|r records IH]; intros w Hno; [done|].
  rewrite for_of_cons, load_record_unfold.
  destruct (OpportunityStore.validateOpportunity r); [|done].
  assert (Hrest : forall o, JObj o ∈ records -> Opportunity_id o <> id).
  { intros o Ho. apply Hno. by apply elem_of_cons; right. }
  destruct r as [| | | | | |o]; try by apply IH.
  rewrite IH by done. simpl. apply lookup_insert_ne.
  apply Hno. by apply elem_of_cons; left.
Qed.

(** What the loop of [load] leaves in the map was there before or comes
    from the list, filed under its own id. *)
Lemma load_loop_origin (records : list JSValue) (w : World) (id : string)
    (o : JSObject) :
  opportunities (for_of records load_record w).2 !! id = Some o ->
  opportunities w !! id = Some o \/
  (JObj o ∈ records /\ Opportunity_id o = id).
Proof.
  revert w. induction records as [|r records IH]; intros w; [by left|].
  rewrite for_of_cons, load_record_unfold.
  destruct (OpportunityStore.validateOpportunity r); [|by left].
  assert (Hcons : forall w',
            opportunities (for_of records load_record w').2 !! id = Some o ->
            opportunities w' !! id = Some o \/
            (JObj o ∈ r :: records /\ Opportunity_id o = id)).
  { intros w' H. destruct (IH w' H) as [?|[? ?]]; [by left|].
    right. split; [by apply elem_of_cons; right|done]. }
  destruct r as [| | | | | |o']; try apply Hcons.
  intros H. destruct (Hcons _ H) as [Hl|?]; [|by right].
  simpl in Hl. destruct (decide (Opportunity_id o' = id)) as [Heq|Hne].
  - rewrite Heq, lookup_insert_eq in Hl. simplify_eq.
    right. split; [by apply elem_of_cons; left|done].
  - rewrite lookup_insert_ne in Hl by done. by left.
Qed.

(** Of the valid records the loop of [load] visits, the last one with a
    given id is the one stored under it. *)
Lemma load_loop_last_wins (records : list JSValue) (w : World) (i : nat)
    (o : JSObject) :
  Forall (fun r => OpportunityStore.validateOpportunity r = Return tt) records ->
  records !! i = Some (JObj o) ->
  (forall (j : nat) o', (i < j)%nat -> records !! j = Some (JObj o') ->
                Opportunity_id o' <> Opportunity_id o) ->
  opportunities (for_of records load_record w).2 !! Opportunity_id o = Some o.
Proof.
  intros Hall. revert w i.
  induction Hall as [|r rest Hr Hall IH]; intros w i Hi Hlast;
    [by rewrite lookup_nil in Hi|].
  rewrite for_of_cons, load_record_unfold, Hr.
  destruct i as [|i].
  - simpl in Hi. simplify_eq.
    rewrite load_loop_other_ids.
    + simpl. apply lookup_insert_eq.
    + intros o' Ho'. apply list_elem_of_lookup in Ho' as [j Hj].
      apply (Hlast (S j) o'); [lia|done].
  - simpl in Hi.
    assert (Hstep : forall w',
              opportunities (for_of rest load_record w').2
                !! Opportunity_id o = Some o).
    { intros w'. apply (IH w' i Hi).
      intros j o' Hij Hj. apply (Hlast (S j) o'); [lia|done]. }
    destruct r; apply Hstep.
Qed.

(** X6.  Loading is a round trip of the parsed file.  When the file
    parses to an array of records that all pass validation, [initialize]
    returns with the store initialized; every stored record is one of the
    file's records, filed under its own id; and every record of the file
    that no later record of the file shares its id with is retrievable by
    that id (of records with one id, the last one wins: loading never
    reports a duplicate). *)
Theorem Store_initialize_loads_file (E : Env) (w : World) (data : string)
    (records : list JSValue) :
  initialized w = false ->
  fs_dir w = true \/ fs_fault E (tick w) = None ->
  fs_file w = Some data ->
  data <> "" -> String_trim E data <> "" ->
  JSON_parse E data = inr (JArr records) ->
  Forall (fun r => OpportunityStore.validateOpportunity r = Return tt) records ->
  let run := OpportunityStore.initialize E w in
  run.1 = Return tt /\
  initialized run.2 = true /\
  (forall id o,
     opportunities run.2 !! id = Some o ->
     JObj o ∈ records /\ Opportunity_id o = id) /\
  (forall (i : nat) o,
     records !! i = Some (JObj o) ->
     (forall (j : nat) o', (i < j)%nat -> records !! j = Some (JObj o') ->
                   Opportunity_id o' <> Opportunity_id o) ->
     opportunities run.2 !! Opportunity_id o = Some o).
Proof.
  intros Hinit Hdir Hfile Hne Htrim Hparse Hall run.
  destruct (initialize_unfold E w Hinit Hdir) as (w1 & Ho & Hi & Hf & Hrun).
  subst run. rewrite Hrun. clear Hrun.
  rewrite (load_records E w1 data records) by (congruence || done).
  destruct (load_loop_returns records (set_opportunities ∅ w1) Hall)
    as [Hret _].
  destruct (for_of records load_record (set_opportunities ∅ w1))
    as [[[]|e] w2] eqn:Hloop; [|done].
  assert (Hw2 : w2 = (for_of records load_record (set_opportunities ∅ w1)).2)
    by by rewrite Hloop.
  split; [done|]. split; [done|]. simpl. split.
  - intros id o Hl. rewrite Hw2 in Hl.
    apply load_loop_origin in Hl as [Hl|Hl]; [|done].
    simpl in Hl. by rewrite lookup_empty in Hl.
  - intros i o Hi' Hlast. rewrite Hw2. by apply (load_loop_last_wins _ _ i).
Qed.

Lemma Store_initialize_loads_file_witness :
  let run := OpportunityStore.initialize
               (parsing_env (inr (JArr [JObj (sample_record "opp-1" DETECTED 85);
                                        JObj (sample_record "opp-1" PROMOTED 90)])))
               (fresh_world (Some "[...]")) in
  run.1 = Return tt /\
  opportunities run.2 !! "opp-1" = Some (sample_record "opp-1" PROMOTED 90).
Proof.
  cbv zeta.
  assert (Hall : Forall (fun r => OpportunityStore.validateOpportunity r
                                  = Return tt)
                   [JObj (sample_record "opp-1" DETECTED 85);
                    JObj (sample_record "opp-1" PROMOTED 90)])
    by (repeat constructor).
  destruct (Store_initialize_loads_file
              (parsing_env (inr (JArr [JObj (sample_record "opp-1" DETECTED 85);
                                       JObj (sample_record "opp-1" PROMOTED 90)])))
              (fresh_world (Some "[...]")) "[...]"
              [JObj (sample_record "opp-1" DETECTED 85);
               JObj (sample_record "opp-1" PROMOTED 90)]
              eq_refl (or_introl eq_refl) eq_refl
              ltac:(discriminate) ltac:(discriminate) eq_refl Hall)
    as (H1 & _ & _ & H4).
  split; [exact H1|].
  apply (H4 1%nat (sample_record "opp-1" PROMOTED 90)); [reflexivity|].
  intros [|[|j]] o' Hlt Hj; try lia. discriminate.
Defined.

Lemma status_value_inj (s s' : OpportunityStatus) :
  status_value s = status_value s' -> s = s'.
Proof. by destruct s, s'. Qed.

(** X7.  [getByStatus] reads the store without changing it and returns
    exactly the stored records whose status is the one asked for.  In a
    store whose records are valid, the six status lists partition it:
    every stored record is listed under exactly one status. *)
Theorem Store_getByStatus_partition (w : World) :
  (forall s, exists listed,
     OpportunityStore.getByStatus s w = (Return listed, w) /\
     forall o, o ∈ listed <->
               (exists id, opportunities w !! id = Some o) /\ has_status s o) /\
  (store_wf (opportunities w) ->
   forall id o, opportunities w !! id = Some o ->
     exists s,
       (forall listed, OpportunityStore.getByStatus s w = (Return listed, w) ->
                       o ∈ listed) /\
       (forall s' listed,
          OpportunityStore.getByStatus s' w = (Return listed, w) ->
          o ∈ listed -> s' = s)).
Proof.
  assert (Hrun : forall s,
    OpportunityStore.getByStatus s w =
    (Return (filter (has_status s) (map_to_list (opportunities w)).*2), w))
    by reflexivity.
  assert (Hmem : forall s o,
    o ∈ filter (has_status s) (map_to_list (opportunities w)).*2 <->
    (exists id, opportunities w !! id = Some o) /\ has_status s o).
  { intros s o. rewrite list_elem_of_filter, list_elem_of_fmap. split.
    - intros [Hs ([id o'] & -> & Hin)]. split; [|done].
      exists id. by apply elem_of_map_to_list.
    - intros [[id Hl] Hs]. split; [done|].
      exists (id, o). split; [done|]. by apply elem_of_map_to_list. }
  split.
  - intros s. eexists. split; [apply Hrun|apply Hmem].
  - intros Hwf id o Hl.
    destruct (Hwf id o Hl) as [Hv _].
    apply validateOpportunity_valid in Hv as (_ & _ & [s Hs] & _).
    exists s. split.
    + intros listed Hg. rewrite Hrun in Hg. simplify_eq.
      apply Hmem. split; [by exists id|].
      unfold has_status. rewrite Hs. simpl. apply String.eqb_refl.
    + intros s' listed Hg Hin. rewrite Hrun in Hg. simplify_eq.
      apply Hmem in Hin as [_ Hs']. unfold has_status in Hs'.
      rewrite Hs in Hs'. simpl in Hs'. apply String.eqb_eq in Hs'.
      symmetry. by apply status_value_inj.
Qed.

Lemma Store_getByStatus_partition_witness :
  exists s,
    (forall listed,
       OpportunityStore.getByStatus s (sample_world PROMOTED)
         = (Return listed, sample_world PROMOTED) ->
       sample_opportunity PROMOTED ∈ listed) /\
    (forall s' listed,
       OpportunityStore.getByStatus s' (sample_world PROMOTED)
         = (Return listed, sample_world PROMOTED) ->
       sample_opportunity PROMOTED ∈ listed -> s' = s).
Proof.
  destruct (Store_getByStatus_partition (sample_world PROMOTED)) as [_ H].
  apply (H ltac:(apply map_Forall_singleton; apply sample_stored_ok)
           "opp-123").
  reflexivity.
Defined.

(** X8.  The verdicts of [validateOpportunity] on an object, in the order
    it gives them.  A missing, empty or non-string [id] gives the id error
    whatever the rest.  Otherwise a missing or empty [type], or a [status]
    outside the enum, gives the status error: a record without a type is
    reported as having an invalid status even when its status is valid.
    Otherwise a [score] that is not a number, is negative or exceeds 100
    gives the score error.  Otherwise the record is accepted; the bounds 0
    and 100 themselves are accepted. *)
Theorem validateOpportunity_verdicts (o : JSObject) :
  let id_ok := truthy (prop o "id") && typeof_string (prop o "id") in
  let status_ok := truthy (prop o "type")
                   && includes OpportunityStatus_values (prop o "status") in
  (id_ok = false ->
     OpportunityStore.validateOpportunity (JObj o) = Throw InvalidId) /\
  (id_ok = true -> status_ok = false ->
     OpportunityStore.validateOpportunity (JObj o)
       = Throw (InvalidStatus (prop o "status"))) /\
  (id_ok = true -> status_ok = true ->
     (forall n, prop o "score" = JNum n -> (n < 0)%Q \/ (100 < n)%Q ->
        OpportunityStore.validateOpportunity (JObj o) = Throw InvalidScore) /\
     (typeof_number (prop o "score") = false ->
        OpportunityStore.validateOpportunity (JObj o) = Throw InvalidScore) /\
     (forall n, prop o "score" = JNum n -> (0 <= n)%Q -> (n <= 100)%Q ->
        OpportunityStore.validateOpportunity (JObj o) = Return tt)).
Proof.
  intros id_ok status_ok. subst id_ok status_ok.
  unfold OpportunityStore.validateOpportunity. simpl.
  split; [|split].
  - intros H. apply andb_false_iff in H.
    assert (negb (truthy (prop o "id")) || negb (typeof_string (prop o "id"))
            = true) as ->; [|done].
    apply orb_true_iff. destruct H as [-> | ->]; auto.
  - intros Hid Hst. apply andb_true_iff in Hid as [-> ->]. simpl.
    apply andb_false_iff in Hst.
    assert (negb (truthy (prop o "type"))
            || negb (includes OpportunityStatus_values (prop o "status"))
            = true) as ->; [|done].
    apply orb_true_iff. destruct Hst as [-> | ->]; auto.
  - intros Hid Hst. apply andb_true_iff in Hid as [-> ->].
    apply andb_true_iff in Hst as [-> ->]. simpl. split; [|split].
    + intros n -> Hn. simpl.
      destruct Hn as [Hn|Hn]; apply Qlt_bool_true_iff in Hn; rewrite Hn;
        [done|by rewrite orb_true_r].
    + by intros ->.
    + intros n -> Hlo Hhi. simpl.
      apply Qlt_bool_false_iff in Hlo, Hhi. by rewrite Hlo, Hhi.
Qed.

Lemma validateOpportunity_verdicts_witness :
  OpportunityStore.validateOpportunity
    (JObj (delete "type" (sample_opportunity DETECTED)))
  = Throw (InvalidStatus (JStr "detected")) /\
  OpportunityStore.validateOpportunity
    (JObj (sample_record "opp-123" DETECTED 100)) = Return tt.
Proof.
  split.
  - destruct (validateOpportunity_verdicts
                (delete "type" (sample_opportunity DETECTED))) as (_ & H & _).
    apply H; reflexivity.
  - destruct (validateOpportunity_verdicts
                (sample_record "opp-123" DETECTED 100)) as (_ & _ & H).
    destruct H as (_ & _ & H); [reflexivity|reflexivity|].
    apply (H 100%Q); [reflexivity|discriminate|discriminate].
Defined.

(* ===================================================================== *)
(** ** The detector: further properties of the scores *)
(* ===================================================================== *)









(* ===================================================================== *)
(** ** The detector: the three loops *)
(* ===================================================================== *)

Lemma after_ticks_add (a b : nat) (w : World) :
  after_ticks a (after_ticks b w) = after_ticks (a + b) w.
Proof. unfold after_ticks. by rewrite Nat.iter_add. Qed.

Lemma after_ticks_fields (k : nat) (w : World) :
  opportunities (after_ticks k w) = opportunities w /\
  initialized (after_ticks k w) = initialized w /\
  fs_dir (after_ticks k w) = fs_dir w /\
  fs_file (after_ticks k w) = fs_file w /\
  trace (after_ticks k w) = trace w /\
  tick (after_ticks k w) = (k + tick w)%nat.
Proof.
  induction k as [|k IH]; [done|].
  unfold after_ticks in *. simpl. destruct IH as (?&?&?&?&?&?).
  repeat split; try done. simpl. by f_equal.
Qed.

(** A collecting loop whose body only draws candidates. *)
Lemma collect_candidates {A X : Type} (sel : A -> list X)
    (R : X -> JSObject -> Prop) (body : nat -> A -> M (list JSObject)) :
  (forall i x w, exists cs,
      body i x w = (Return cs, after_ticks (3 * length cs) w) /\
      Forall2 R (sel x) cs) ->
  forall xs i w, exists cs,
    collect body i xs w = (Return cs, after_ticks (3 * length cs) w) /\
    Forall2 R (concat (map sel xs)) cs.
Proof.
  intros Hbody xs. induction xs as [|x xs IH]; intros i w.
  - exists []. split; [reflexivity|constructor].
  - rewrite collect_cons.
    destruct (Hbody i x w) as (cs1 & -> & H1).
    destruct (IH (S i) (after_ticks (3 * length cs1) w)) as (cs2 & -> & H2).
    exists (cs1 ++ cs2). split.
    + rewrite after_ticks_add, length_app. do 2 f_equal. lia.
    + simpl. by apply Forall2_app.
Qed.

Lemma concat_map_filter {A : Type} (test : A -> bool) (xs : list A) :
  concat (map (fun x => if test x then [x] else []) xs) = List.filter test xs.
Proof.
  induction xs as [|x xs IH]; [done|]. simpl. rewrite IH.
  by destruct (test x).
Qed.

Lemma concat_map_filter_steps (test : FunnelStep -> bool)
    (funnels : list FunnelData) :
  concat (map (fun funnel => List.filter test (steps funnel)) funnels)
  = List.filter test (all_steps funnels).
Proof.
  unfold all_steps. induction funnels as [|f fs IH]; [done|].
  simpl. by rewrite IH, List.filter_app.
Qed.

Lemma createFunnelOpportunity_detected (E : Env) funnel step i (score : Z) w :
  exists o,
    OpportunityDetector.createFunnelOpportunity E funnel step i score w
      = (Return o, after_ticks 3 w) /\
    detected_as E FUNNEL_DROP score o.
Proof.
  unfold OpportunityDetector.createFunnelOpportunity, bind, new_uuidv4,
    new_Date_toISOString, ret.
  eexists. split; [reflexivity|].
  split; [by eexists|]. repeat split.
Qed.

Lemma createNPSOpportunity_detected (E : Env) npsData (score : Z) w :
  exists o,
    OpportunityDetector.createNPSOpportunity E npsData score w
      = (Return o, after_ticks 3 w) /\
    detected_as E LOW_NPS score o.
Proof.
  unfold OpportunityDetector.createNPSOpportunity, bind, new_uuidv4,
    new_Date_toISOString, ret.
  eexists. split; [reflexivity|].
  split; [by eexists|]. repeat split.
Qed.

Lemma createFeatureUsageOpportunity_detected (E : Env) feature (score : Z) w :
  exists o,
    OpportunityDetector.createFeatureUsageOpportunity E feature score w
      = (Return o, after_ticks 3 w) /\
    detected_as E FEATURE_UNDERUSE score o.
Proof.
  unfold OpportunityDetector.createFeatureUsageOpportunity, bind, new_uuidv4,
    new_Date_toISOString, ret.
  eexists. split; [reflexivity|].
  split; [by eexists|]. repeat split.
Qed.

(** The funnel detector, with the world it leaves. *)
Lemma detectFunnelOpportunities_detected (E : Env)
    (funnels : list FunnelData) (w : World) :
  exists cs,
    OpportunityDetector.detectFunnelOpportunities E funnels w
      = (Return cs, after_ticks (3 * length cs) w) /\
    Forall2 (fun step o => detected_as E FUNNEL_DROP (funnel_score step) o)
      (List.filter (funnel_candidate (minOpportunityScore (config E)))
                   (all_steps funnels))
      cs.
Proof.
  unfold OpportunityDetector.detectFunnelOpportunities. cbv zeta.
  rewrite <- concat_map_filter_steps.
  apply collect_candidates. intros _ funnel w0.
  rewrite <- concat_map_filter.
  apply collect_candidates. intros i step w1.
  unfold funnel_candidate, funnel_score.
  destruct (Qlt_bool (3 # 10) (dropoffRate step)); simpl andb;
    [|exists []; split; [reflexivity|constructor]].
  destruct (Qle_bool _ _);
    [|exists []; split; [reflexivity|constructor]].
  destruct (createFunnelOpportunity_detected E funnel step i
              (OpportunityDetector.calculateFunnelScore
                 (dropoffRate step) (userCount step)) w1) as (o & Ho & Hd).
  exists [o]. split; [|constructor; [exact Hd|constructor]].
  unfold bind. by rewrite Ho.
Qed.

(** The satisfaction detector, with the world it leaves. *)
Lemma detectNPSOpportunities_detected (E : Env) (npsData : NPSData)
    (w : World) :
  exists cs,
    OpportunityDetector.detectNPSOpportunities E npsData w
      = (Return cs, after_ticks (3 * length cs) w) /\
    Forall2 (fun n o => detected_as E LOW_NPS (nps_opportunity_score n) o)
      (if nps_candidate (minOpportunityScore (config E)) npsData
       then [npsData] else [])
      cs.
Proof.
  unfold OpportunityDetector.detectNPSOpportunities. cbv zeta.
  unfold nps_candidate, nps_opportunity_score.
  destruct (Qlt_bool (nps_score npsData) 30 && Qle_bool 20 (responseCount npsData));
    simpl andb; [|exists []; split; [reflexivity|constructor]].
  destruct (Qle_bool _ _);
    [|exists []; split; [reflexivity|constructor]].
  destruct (createNPSOpportunity_detected E npsData
              (OpportunityDetector.calculateNPSScore
                 (nps_score npsData) (responseCount npsData)) w)
    as (o & Ho & Hd).
  exists [o]. split; [|constructor; [exact Hd|constructor]].
  unfold bind. by rewrite Ho.
Qed.

(** The feature detector, with the world it leaves. *)
Lemma detectFeatureUsageOpportunities_detected (E : Env)
    (features : list FeatureUsageData) (w : World) :
  exists cs,
    OpportunityDetector.detectFeatureUsageOpportunities E features w
      = (Return cs, after_ticks (3 * length cs) w) /\
    Forall2 (fun f o => detected_as E FEATURE_UNDERUSE (feature_score f) o)
      (List.filter (feature_candidate (minOpportunityScore (config E)))
                   features)
      cs.
Proof.
  unfold OpportunityDetector.detectFeatureUsageOpportunities. cbv zeta.
  rewrite <- concat_map_filter.
  apply collect_candidates. intros _ feature w1.
  unfold feature_candidate, feature_score.
  destruct (Qlt_bool (usageRate feature) (2 # 10)
            && Qle_bool 100 (totalUsers feature));
    simpl andb; [|exists []; split; [reflexivity|constructor]].
  destruct (Qle_bool _ _);
    [|exists []; split; [reflexivity|constructor]].
  destruct (createFeatureUsageOpportunity_detected E feature
              (OpportunityDetector.calculateFeatureUsageScore
                 (usageRate feature) (totalUsers feature)) w1)
    as (o & Ho & Hd).
  exists [o]. split; [|constructor; [exact Hd|constructor]].
  unfold bind. by rewrite Ho.
Qed.












(** X14.  Detection alone has no effect outside the detector: the three
    detectors never throw, and the world they leave differs from the one
    they started in only by the call counter, advanced by three for each
    candidate (one uuid drawn, the clock read twice).  No record is
    stored, the file is not written, and no Slack or Kiro call is made. *)
Theorem detectors_only_read_clock (E : Env) (funnels : list FunnelData)
    (npsData : NPSData) (features : list FeatureUsageData) (w : World) :
  (exists cs,
     OpportunityDetector.detectFunnelOpportunities E funnels w
       = (Return cs, after_ticks (3 * length cs) w)) /\
  (exists cs,
     OpportunityDetector.detectNPSOpportunities E npsData w
       = (Return cs, after_ticks (3 * length cs) w)) /\
  (exists cs,
     OpportunityDetector.detectFeatureUsageOpportunities E features w
       = (Return cs, after_ticks (3 * length cs) w)) /\
  (forall k,
     opportunities (after_ticks k w) = opportunities w /\
     initialized (after_ticks k w) = initialized w /\
     fs_dir (after_ticks k w) = fs_dir w /\
     fs_file (after_ticks k w) = fs_file w /\
     trace (after_ticks k w) = trace w /\
     tick (after_ticks k w) = (k + tick w)%nat).
Proof.
  split; [|split; [|split]].
  - destruct (detectFunnelOpportunities_detected E funnels w) as (cs & H & _).
    by exists cs.
  - destruct (detectNPSOpportunities_detected E npsData w) as (cs & H & _).
    by exists cs.
  - destruct (detectFeatureUsageOpportunities_detected E features w)
      as (cs & H & _).
    by exists cs.
  - intros k. apply after_ticks_fields.
Qed.



(* ===================================================================== *)
(** ** The orchestrators: unknown ids and failing collaborators *)
(* ===================================================================== *)

(** X16.  An id the store does not hold.  [handleOpportunityAction]
    returns without an exception and without any effect, whatever the
    action; [markAsShipped] and the manual [generateSpec] of the demo
    throw their not-found error, also without any effect. *)
Theorem actions_on_unknown_id (E : Env) (w : World) (id : string)
    (impact : JSObject) :
  opportunities w !! id = None ->
  (forall A, OpportunityOS.handleOpportunityAction E id A w = (Return tt, w)) /\
  OpportunityOS.markAsShipped E id impact w
    = (Throw (OpportunityNotFound id), w) /\
  DemoOpportunityOS.generateSpec E id w = (Throw (OpportunityNotFound id), w) /\
  kind_of (OpportunityNotFound id) = NotFound.
Proof.
  intros Hl. repeat split.
  - intros A. unfold OpportunityOS.handleOpportunityAction,
      OpportunityStore.get, bind, read. by rewrite Hl.
  - unfold OpportunityOS.markAsShipped, OpportunityStore.get, bind, read.
    by rewrite Hl.
  - unfold DemoOpportunityOS.generateSpec, OpportunityStore.get, bind, read.
    by rewrite Hl.
Qed.

Lemma actions_on_unknown_id_witness :
  (forall A, OpportunityOS.handleOpportunityAction (calm_env default_config)
               "opp-404" A (sample_world DETECTED)
             = (Return tt, sample_world DETECTED)) /\
  OpportunityOS.markAsShipped (calm_env default_config) "opp-404"
    sample_impact (sample_world DETECTED)
    = (Throw (OpportunityNotFound "opp-404"), sample_world DETECTED).
Proof.
  destruct (actions_on_unknown_id (calm_env default_config)
              (sample_world DETECTED) "opp-404" sample_impact eq_refl)
    as (H1 & H2 & _).
  split; [exact H1|exact H2].
Defined.

Lemma status_update_slackMessageTs id now s (opportunity : JSObject) :
  prop (merged id now (status_update s) opportunity) "slackMessageTs"
  = prop opportunity "slackMessageTs".
Proof.
  unfold prop. rewrite merged_from_existing; [done|done|done|].
  by apply status_update_other.
Qed.

(** X17.  When Slack refuses the update of the message, the action fails
    with Slack's error, but the status the action stores first has
    already been written: dismissed, investigating or promoted.  For
    promote, the failure comes before the spec is requested: Kiro is not
    called. *)
Theorem action_slack_failure_keeps_status (E : Env) (w : World) (id : string)
    (opportunity : JSObject) (A : Action) (message : string) :
  opportunities w !! id = Some opportunity ->
  stored_ok id opportunity ->
  truthy (prop opportunity "slackMessageTs") = true ->
  fs_reliable E ->
  (forall n ts o, slack_updateOpportunity E n ts o = Some message) ->
  exists w' stored,
    OpportunityOS.handleOpportunityAction E id A w
      = (Throw (CollaboratorError Slack message), w') /\
    opportunities w' !! id = Some stored /\
    prop stored "status" = JStr (status_value (first_status A)) /\
    fs_file w' = Some (saved_data E (opportunities w')) /\
    generateSpec_called w' = generateSpec_called w.
Proof.
  intros Hl Hok Hts Hfs Hsl.
  rewrite (handleOpportunityAction_found E id opportunity A w Hl).
  set (updated := merged id (Date_toISOString E (tick w))
                         (status_update (first_status A)) opportunity).
  assert (Hupd : OpportunityStore.update E (Opportunity_id opportunity)
                   (status_update (first_status A)) w
                 = (Return updated, after_update E id updated w)).
  { rewrite (stored_ok_Opportunity_id id) by done.
    apply update_returns; [done| |apply Hfs].
    by apply status_update_stored_ok. }
  assert (Hslack : update_slack_message E updated (after_update E id updated w)
                   = (Throw (CollaboratorError Slack message),
                      called (SlackUpdateOpportunity
                                (prop updated "slackMessageTs") updated)
                             (after_update E id updated w))).
  { unfold update_slack_message, updated.
    rewrite status_update_slackMessageTs, Hts.
    unfold slack.updateOpportunity. by rewrite Hsl. }
  eexists _, updated.
  split; [|split; [|split; [|split]]].
  - destruct A; simpl in Hupd;
      unfold OpportunityOS.promoteOpportunity,
        OpportunityOS.dismissOpportunity,
        OpportunityOS.investigateOpportunity;
      unfold bind at 1; rewrite Hupd;
      try unfold bind at 1; rewrite Hslack; reflexivity.
  - simpl. apply lookup_insert_eq.
  - apply merged_from_updates; [done|done|apply status_update_status].
  - reflexivity.
  - reflexivity.
Qed.

Lemma slack_down_env_refuses cfg :
  fs_reliable (slack_down_env cfg) /\
  (forall n ts o, slack_updateOpportunity (slack_down_env cfg) n ts o
                  = Some "channel_not_found").
Proof. split; [intros n|intros n ts o]; reflexivity. Defined.

Lemma action_slack_failure_keeps_status_witness :
  exists w' stored,
    OpportunityOS.handleOpportunityAction (slack_down_env default_config)
      "opp-123" promote (sample_world DETECTED)
      = (Throw (CollaboratorError Slack "channel_not_found"), w') /\
    opportunities w' !! "opp-123" = Some stored /\
    prop stored "status" = JStr (status_value (first_status promote)) /\
    fs_file w' = Some (saved_data (slack_down_env default_config)
                                  (opportunities w')) /\
    generateSpec_called w' = generateSpec_called (sample_world DETECTED).
Proof.
  apply (action_slack_failure_keeps_status (slack_down_env default_config)
           (sample_world DETECTED) "opp-123" (sample_opportunity DETECTED)
           promote "channel_not_found").
  - reflexivity.
  - apply sample_stored_ok.
  - reflexivity.
  - apply slack_down_env_refuses.
  - apply slack_down_env_refuses.
Defined.

Lemma spec_update_stored_ok id now response existing :
  stored_ok id existing ->
  stored_ok id (merged id now (spec_update response) existing).
Proof.
  intros H. apply merged_stored_ok; [done|reflexivity|reflexivity|].
  right. by exists SPEC_GENERATED.
Qed.

Lemma spec_update_slackMessageTs id now response (existing : JSObject) :
  prop (merged id now (spec_update response) existing) "slackMessageTs"
  = prop existing "slackMessageTs".
Proof. unfold prop. by rewrite merged_from_existing. Qed.

(** X18.  The handler for a failed spec generation also catches what
    fails after the spec was generated.  When Kiro answers but Slack then
    refuses to show the record with its generated spec, promote fails with
    Slack's error and the handler stores the status promoted again; the
    spec URL stored just before stays in the record, which ends as
    promoted with a spec URL. *)
Theorem promote_late_failure_keeps_specUrl (E : Env) (w : World) (id : string)
    (opportunity : JSObject) (message : string) :
  opportunities w !! id = Some opportunity ->
  stored_ok id opportunity ->
  truthy (prop opportunity "slackMessageTs") = true ->
  fs_reliable E ->
  (forall n ts o,
     slack_updateOpportunity E n ts o
     = if strict_eq_str (prop o "status") (status_value SPEC_GENERATED)
       then Some message else None) ->
  (forall n request, exists response,
     kiro_generateSpec E n request = inr response) ->
  exists w' stored response n,
    OpportunityOS.handleOpportunityAction E id promote w
      = (Throw (CollaboratorError Slack message), w') /\
    kiro_generateSpec E n (spec_request opportunity) = inr response /\
    opportunities w' !! id = Some stored /\
    prop stored "status" = JStr (status_value PROMOTED) /\
    prop stored "specUrl" = specUrl response /\
    generateSpec_called w' = true.
Proof.
  intros Hl Hok Hts Hfs Hsl Hk.
  rewrite (handleOpportunityAction_found E id opportunity promote w Hl).
  unfold OpportunityOS.promoteOpportunity.
  rewrite (stored_ok_Opportunity_id id) by done.
  (* the first update and the first Slack update *)
  set (promoted := merged id (Date_toISOString E (tick w))
                          (status_update PROMOTED) opportunity).
  assert (Hok1 : stored_ok id promoted) by by apply status_update_stored_ok.
  assert (H1 : OpportunityStore.update E id (status_update PROMOTED) w
               = (Return promoted, after_update E id promoted w))
    by (apply update_returns; [done|done|apply Hfs]).
  set (w1 := after_update E id promoted w) in *.
  set (ts := prop opportunity "slackMessageTs") in *.
  assert (Hts1 : prop promoted "slackMessageTs" = ts)
    by apply status_update_slackMessageTs.
  assert (Hst1 : prop promoted "status" = JStr (status_value PROMOTED))
    by (apply merged_from_updates; [done|done|apply status_update_status]).
  set (w2 := called (SlackUpdateOpportunity ts promoted) w1).
  assert (H2 : update_slack_message E promoted w1 = (Return tt, w2)).
  { unfold update_slack_message. rewrite Hts1, Hts.
    unfold slack.updateOpportunity. by rewrite Hsl, Hst1. }
  (* Kiro answers *)
  destruct (Hk (tick w2) (spec_request opportunity)) as [response Hresp].
  set (w3 := called (KiroGenerateSpec (spec_request opportunity)) w2).
  assert (H3 : kiro.generateSpec E (spec_request opportunity) w2
               = (Return response, w3))
    by (unfold kiro.generateSpec; by rewrite Hresp).
  (* the record with its spec is stored, and Slack refuses to show it *)
  set (withSpec := merged id (Date_toISOString E (tick w3))
                          (spec_update response) promoted).
  assert (Hok4 : stored_ok id withSpec) by by apply spec_update_stored_ok.
  assert (Hl3 : opportunities w3 !! id = Some promoted)
    by (simpl; apply lookup_insert_eq).
  assert (H4 : OpportunityStore.update E id (spec_update response) w3
               = (Return withSpec, after_update E id withSpec w3))
    by (apply update_returns; [done|done|apply Hfs]).
  set (w4 := after_update E id withSpec w3) in *.
  assert (Hts4 : prop withSpec "slackMessageTs" = ts).
  { unfold withSpec. by rewrite spec_update_slackMessageTs. }
  assert (Hst4 : prop withSpec "status" = JStr (status_value SPEC_GENERATED))
    by by apply merged_from_updates.
  set (w5 := called (SlackUpdateOpportunity ts withSpec) w4).
  assert (H5 : update_slack_message E withSpec w4
               = (Throw (CollaboratorError Slack message), w5)).
  { unfold update_slack_message. rewrite Hts4, Hts.
    unfold slack.updateOpportunity. by rewrite Hsl, Hst4. }
  (* the handler *)
  set (reverted := merged id (Date_toISOString E (tick w5))
                          (status_update PROMOTED) withSpec).
  assert (Hok6 : stored_ok id reverted) by by apply status_update_stored_ok.
  assert (Hl5 : opportunities w5 !! id = Some withSpec)
    by (simpl; apply lookup_insert_eq).
  assert (H6 : OpportunityStore.update E id (status_update PROMOTED) w5
               = (Return reverted, after_update E id reverted w5))
    by (apply update_returns; [done|done|apply Hfs]).
  exists (after_update E id reverted w5), reverted, response, (tick w2).
  split; [|split; [exact Hresp|split; [|split; [|split]]]].
  - unfold try_catch, bind, throw. rewrite H1, H2, H3.
    fold (spec_update response). rewrite H4, H5, H6. reflexivity.
  - simpl. apply lookup_insert_eq.
  - apply merged_from_updates; [done|done|apply status_update_status].
  - unfold prop, reverted.
    rewrite merged_from_existing; [|done|done|by apply status_update_other].
    unfold withSpec. by rewrite merged_other.
  - reflexivity.
Qed.

Lemma promote_late_failure_keeps_specUrl_witness :
  exists w' stored response n,
    OpportunityOS.handleOpportunityAction
      (slack_refusing_spec_env default_config) "opp-123" promote
      (sample_world DETECTED)
      = (Throw (CollaboratorError Slack "rate_limited"), w') /\
    kiro_generateSpec (slack_refusing_spec_env default_config) n
      (spec_request (sample_opportunity DETECTED)) = inr response /\
    opportunities w' !! "opp-123" = Some stored /\
    prop stored "status" = JStr (status_value PROMOTED) /\
    prop stored "specUrl" = specUrl response /\
    generateSpec_called w' = true.
Proof.
  apply (promote_late_failure_keeps_specUrl
           (slack_refusing_spec_env default_config) (sample_world DETECTED)
           "opp-123" (sample_opportunity DETECTED) "rate_limited").
  - reflexivity.
  - apply sample_stored_ok.
  - reflexivity.
  - intros n. reflexivity.
  - intros n ts o. reflexivity.
  - intros n request. eexists. reflexivity.
Defined.

(** X19.  [markAsShipped] and the feedback to Kiro.  With the file write
    and Slack not failing, the record is stored as shipped first.  When
    the record had no spec URL before the call, Kiro is not called and the
    call returns.  When it had one, the feedback [{rating: 5,
    actualImpact: metricsAfter}] is sent for the id; the call returns if
    Kiro accepts it and throws Kiro's error if not, and in both cases the
    record stays shipped. *)
Theorem markAsShipped_feedback (E : Env) (w : World) (id : string)
    (opportunity impact : JSObject) :
  opportunities w !! id = Some opportunity ->
  stored_ok id opportunity ->
  fs_reliable E -> slack_reliable E ->
  exists w1 stored,
    opportunities w1 !! id = Some stored /\
    prop stored "status" = JStr (status_value SHIPPED) /\
    provideFeedback_called w1 = provideFeedback_called w /\
    OpportunityOS.markAsShipped E id impact w
    = if truthy (prop opportunity "specUrl")
      then (match kiro_provideFeedback E (tick w1) id
                    (shipped_feedback impact) with
            | Some message => Throw (CollaboratorError Kiro message)
            | None => Return tt
            end,
            called (KiroProvideFeedback id (shipped_feedback impact)) w1)
      else (Return tt, w1).
Proof.
  intros Hl Hok Hfs Hsl.
  unfold OpportunityOS.markAsShipped, OpportunityStore.get, bind at 1, read.
  rewrite Hl. unfold bind at 1, new_Date_toISOString.
  set (updates := obj [ ("status", JStr (status_value SHIPPED));
                        ("actualImpact",
                         JObj (<["measuredAt" := JStr (Date_toISOString E (tick w))]>
                                 impact)) ]).
  set (shipped := merged id (Date_toISOString E (tick (ticked w))) updates
                         opportunity).
  assert (Hok' : stored_ok id shipped).
  { apply merged_stored_ok; [done|reflexivity|reflexivity|].
    right. by exists SHIPPED. }
  unfold bind at 1.
  rewrite (update_returns E id updates (ticked w) opportunity) by auto.
  fold shipped. unfold bind.
  rewrite update_slack_message_returns by done.
  exists (after_slack shipped (after_update E id shipped (ticked w))), shipped.
  split; [|split; [|split]].
  - rewrite after_slack_opportunities. simpl. apply lookup_insert_eq.
  - by apply merged_from_updates.
  - unfold after_slack. by destruct (truthy _).
  - fold (shipped_feedback impact).
    destruct (truthy (prop opportunity "specUrl")); [|reflexivity].
    unfold kiro.provideFeedback. by destruct (kiro_provideFeedback _ _ _ _).
Qed.

Lemma feedback_down_env_reliable cfg :
  fs_reliable (feedback_down_env cfg) /\ slack_reliable (feedback_down_env cfg).
Proof. split; [intros n|intros n ts o]; reflexivity. Defined.

Lemma sample_with_spec_stored_ok s : stored_ok "opp-123" (sample_with_spec s).
Proof. by destruct s. Defined.

Lemma markAsShipped_feedback_witness :
  exists w' stored,
    OpportunityOS.markAsShipped (feedback_down_env default_config) "opp-123"
      sample_impact (spec_world SPEC_GENERATED)
    = (Throw (CollaboratorError Kiro "Request failed with status code 503"),
       w') /\
    opportunities w' !! "opp-123" = Some stored /\
    prop stored "status" = JStr (status_value SHIPPED).
Proof.
  destruct (markAsShipped_feedback (feedback_down_env default_config)
              (spec_world SPEC_GENERATED) "opp-123"
              (sample_with_spec SPEC_GENERATED) sample_impact eq_refl
              (sample_with_spec_stored_ok SPEC_GENERATED)
              (proj1 (feedback_down_env_reliable default_config))
              (proj2 (feedback_down_env_reliable default_config)))
    as (w1 & stored & Hl & Hst & _ & Hrun).
  exists (called (KiroProvideFeedback "opp-123" (shipped_feedback sample_impact))
                 w1), stored.
  split; [exact Hrun|]. split; [exact Hl|exact Hst].
Defined.

(* ===================================================================== *)
(** ** The demo orchestrator *)
(* ===================================================================== *)

(** X20.  The manual trigger of the demo, on a stored record.  If the
    record is not promoted, it throws its must-be-promoted error and has
    no effect.  If the record is promoted and Kiro answers (the file write
    and Slack not failing), it returns and the record is stored as
    spec_generated with the answer's spec URL.  If the record is promoted
    and Kiro throws, Kiro's error is thrown and the record is left as it
    was: unlike promote, there is nothing to revert. *)
Theorem Demo_generateSpec_contract (E : Env) (w : World) (id : string)
    (opportunity : JSObject) :
  opportunities w !! id = Some opportunity ->
  stored_ok id opportunity ->
  let request := spec_request opportunity in
  (prop opportunity "status" <> JStr (status_value PROMOTED) ->
   DemoOpportunityOS.generateSpec E id w
     = (Throw (MustBePromoted (prop opportunity "status")), w)) /\
  (prop opportunity "status" = JStr (status_value PROMOTED) ->
   forall response,
     kiro_generateSpec E (tick w) request = inr response ->
     fs_reliable E -> slack_reliable E ->
     exists w' stored,
       DemoOpportunityOS.generateSpec E id w = (Return tt, w') /\
       opportunities w' !! id = Some stored /\
       prop stored "status" = JStr (status_value SPEC_GENERATED) /\
       prop stored "specUrl" = specUrl response) /\
  (prop opportunity "status" = JStr (status_value PROMOTED) ->
   forall message,
     kiro_generateSpec E (tick w) request = inl message ->
     DemoOpportunityOS.generateSpec E id w
       = (Throw (CollaboratorError Kiro message),
          called (KiroGenerateSpec request) w)).
Proof.
  intros Hl Hok request. subst request. split; [|split].
  - intros Hst.
    by destruct (Demo_generateSpec_requires_promoted E w id opportunity Hl Hst).
  - intros Hst response Hk Hfs Hsl.
    unfold DemoOpportunityOS.generateSpec, OpportunityStore.get, bind at 1, read.
    rewrite Hl, Hst.
    change (strict_eq_str (JStr (status_value PROMOTED))
                          (status_value PROMOTED)) with true.
    change (negb true) with false. cbv iota.
    unfold bind at 1, kiro.generateSpec. rewrite Hk.
    set (w1 := called (KiroGenerateSpec (spec_request opportunity)) w).
    set (withSpec := merged id (Date_toISOString E (tick w1))
                            (spec_update response) opportunity).
    assert (Hok' : stored_ok id withSpec) by by apply spec_update_stored_ok.
    rewrite (stored_ok_Opportunity_id id) by done.
    fold (spec_update response). unfold bind.
    rewrite (update_returns E id _ w1 opportunity) by auto.
    fold withSpec. rewrite update_slack_message_returns by done.
    eexists _, withSpec. split; [reflexivity|].
    rewrite after_slack_opportunities. split; [apply after_update_lookup|].
    split; by apply merged_from_updates.
  - intros Hst message Hk.
    unfold DemoOpportunityOS.generateSpec, OpportunityStore.get, bind at 1, read.
    rewrite Hl, Hst.
    change (strict_eq_str (JStr (status_value PROMOTED))
                          (status_value PROMOTED)) with true.
    change (negb true) with false. cbv iota.
    unfold bind at 1, kiro.generateSpec. by rewrite Hk.
Qed.

Lemma Demo_generateSpec_contract_witness :
  DemoOpportunityOS.generateSpec (kiro_down_env default_config) "opp-123"
    (sample_world PROMOTED)
  = (Throw (CollaboratorError Kiro "Request failed with status code 500"),
     called (KiroGenerateSpec (spec_request (sample_opportunity PROMOTED)))
            (sample_world PROMOTED)).
Proof.
  destruct (Demo_generateSpec_contract (kiro_down_env default_config)
              (sample_world PROMOTED) "opp-123" (sample_opportunity PROMOTED)
              eq_refl (sample_stored_ok PROMOTED)) as (_ & _ & H).
  apply H; reflexivity.
Defined.

(** X21.  The demo's promote against the orchestrator's.  With automatic
    spec generation switched on, the two succeed on exactly the same
    inputs and leave the same world; where the demo's throws, the
    orchestrator's throws as well (after storing the status promoted once
    more).  With it switched off, the demo's promote does what the second
    half of the orchestrator's never runs: it behaves as the store's
    update to promoted followed by the Slack update, nothing else. *)
Theorem Demo_promote_against_orchestrator (E : Env) (w : World)
    (opportunity : JSObject) :
  (autoGenerateSpecs (config E) = true ->
   (forall w',
      DemoOpportunityOS.promoteOpportunity E opportunity w = (Return tt, w') <->
      OpportunityOS.promoteOpportunity E opportunity w = (Return tt, w')) /\
   (forall e w',
      DemoOpportunityOS.promoteOpportunity E opportunity w = (Throw e, w') ->
      exists e' w'',
        OpportunityOS.promoteOpportunity E opportunity w = (Throw e', w''))) /\
  (autoGenerateSpecs (config E) = false ->
   DemoOpportunityOS.promoteOpportunity E opportunity w
   = bind (OpportunityStore.update E (Opportunity_id opportunity)
             (status_update PROMOTED))
          (fun updated => update_slack_message E updated) w).
Proof.
  split.
  - intros Hon.
    unfold DemoOpportunityOS.promoteOpportunity,
      OpportunityOS.promoteOpportunity.
    rewrite Hon. change (negb true) with false. cbv iota.
    unfold try_catch, bind, throw.
    repeat match goal with
           | |- context [match ?c with pair _ _ => _ end] =>
               destruct c as [[?|?] ?]
           end;
      (split;
       [intros w'; split; intros H; (exact H || discriminate)
       |intros ? w' H; (discriminate || by eexists _, _)]).
  - intros Hoff. unfold DemoOpportunityOS.promoteOpportunity.
    rewrite Hoff. change (negb false) with true. cbv iota.
    unfold bind, ret.
    destruct (OpportunityStore.update E (Opportunity_id opportunity)
                (status_update PROMOTED) w) as [[u|e0] w1]; [|done].
    by destruct (update_slack_message E u w1) as [[[]|e0] w2].
Qed.

Lemma Demo_promote_against_orchestrator_witness :
  let run := OpportunityOS.promoteOpportunity (calm_env auto_config)
               (sample_opportunity DETECTED) (sample_world DETECTED) in
  run.1 = Return tt /\
  DemoOpportunityOS.promoteOpportunity (calm_env auto_config)
    (sample_opportunity DETECTED) (sample_world DETECTED) = (Return tt, run.2).
Proof.
  intros run.
  assert (Hrun : run = (Return tt, run.2)) by (vm_compute; reflexivity).
  split; [by rewrite Hrun|].
  destruct (Demo_promote_against_orchestrator (calm_env auto_config)
              (sample_world DETECTED) (sample_opportunity DETECTED))
    as [H _].
  destruct (H eq_refl) as [Hiff _]. apply Hiff. exact Hrun.
Defined.

(* ===================================================================== *)
(** ** Invariants of the store across every operation *)
(* ===================================================================== *)

Section Respects.
Context (R : World -> World -> Prop) `{!Reflexive R} `{!Transitive R}.

Lemma respects_ret {A} (a : A) : respects R (ret a).
Proof. intros w r w' H. unfold ret in H. by simplify_eq. Qed.

Lemma respects_throw {A} (e : Exn) : respects R (throw (A := A) e).
Proof. intros w r w' H. unfold throw in H. by simplify_eq. Qed.

Lemma respects_lift {A} (c : Outcome A) : respects R (lift c).
Proof. intros w r w' H. unfold lift in H. by simplify_eq. Qed.

Lemma respects_read {A} (f : World -> A) : respects R (read f).
Proof. intros w r w' H. unfold read in H. by simplify_eq. Qed.

Lemma respects_bind {A B} (c : M A) (k : A -> M B) :
  respects R c -> (forall a, respects R (k a)) -> respects R (bind c k).
Proof.
  intros Hc Hk w r w' H. unfold bind in H.
  destruct (c w) as [[a|e] w1] eqn:Hcw.
  - etransitivity; [by eapply Hc|by eapply Hk].
  - simplify_eq. by eapply Hc.
Qed.

Lemma respects_try_catch {A} (c : M A) (h : Exn -> M A) :
  respects R c -> (forall e, respects R (h e)) -> respects R (try_catch c h).
Proof.
  intros Hc Hh w r w' H. unfold try_catch in H.
  destruct (c w) as [[a|e] w1] eqn:Hcw.
  - simplify_eq. by eapply Hc.
  - etransitivity; [by eapply Hc|by eapply Hh].
Qed.

Lemma respects_if {A} (b : bool) (c1 c2 : M A) :
  respects R c1 -> respects R c2 -> respects R (if b then c1 else c2).
Proof. by destruct b. Qed.

Lemma respects_for_of {A} (xs : list A) (body : A -> M unit) :
  (forall x, respects R (body x)) -> respects R (for_of xs body).
Proof.
  intros Hb. induction xs as [|x xs IH]; simpl.
  - apply respects_ret.
  - apply respects_bind; [apply Hb|intros _; apply IH].
Qed.
End Respects.

Lemma respects_weaken {A} (R R' : World -> World -> Prop) (c : M A) :
  (forall w w', R w w' -> R' w w') -> respects R c -> respects R' c.
Proof. intros HR Hc w r w' H. apply HR. by eapply Hc. Qed.


#[local] Instance wf_step_refl : Reflexive wf_step.
Proof. by intros w H. Qed.

#[local] Instance wf_step_trans : Transitive wf_step.
Proof. intros w1 w2 w3 H1 H2 H. auto. Qed.

#[local] Instance same_records_refl : Reflexive same_records.
Proof. by intros w. Qed.

#[local] Instance same_records_trans : Transitive same_records.
Proof. unfold same_records. intros w1 w2 w3 H1 H2. congruence. Qed.

#[local] Instance only_touches_refl id keys : Reflexive (only_touches id keys).
Proof.
  intros w. split; [done|]. split; [done|].
  intros o o' H1 H2 k _ _. congruence.
Qed.

#[local] Instance only_touches_trans id keys :
  Transitive (only_touches id keys).
Proof.
  intros w1 w2 w3 (Ha1 & Hb1 & Hc1) (Ha2 & Hb2 & Hc2).
  split; [|split].
  - intros other Hne. rewrite Ha2, Ha1; done.
  - by rewrite Hb2, Hb1.
  - intros o o' H1 H3 k Hid Hk.
    destruct (proj2 Hb1 (mk_is_Some _ _ H1)) as [o2 H2].
    rewrite (Hc2 o2 o' H2 H3 k Hid Hk). by apply Hc1.
Qed.

#[local] Instance records_kept_refl : Reflexive records_kept.
Proof. by intros w id o H. Qed.

#[local] Instance records_kept_trans : Transitive records_kept.
Proof. intros w1 w2 w3 H1 H2 id o H. auto. Qed.

Lemma same_records_wf_step w w' : same_records w w' -> wf_step w w'.
Proof. unfold same_records, wf_step. by intros ->. Qed.

Lemma same_records_only_touches id keys w w' :
  same_records w w' -> only_touches id keys w w'.
Proof.
  unfold same_records. intros H. split; [|split].
  - intros other _. by rewrite H.
  - by rewrite H.
  - intros o o' H1 H2 k _ _. rewrite H in H2. congruence.
Qed.

Lemma same_records_records_kept w w' : same_records w w' -> records_kept w w'.
Proof. unfold same_records, records_kept. by intros ->. Qed.

(** Reading the clock, drawing a uuid and calling Slack or Kiro leave the
    records alone. *)
Lemma same_records_date (E : Env) : respects same_records (new_Date_toISOString E).
Proof. intros w r w' H. unfold new_Date_toISOString in H. by simplify_eq. Qed.

Lemma same_records_get id : respects same_records (OpportunityStore.get id).
Proof. apply respects_read. apply _. Qed.

Lemma same_records_slack_post (E : Env) o :
  respects same_records (slack.postOpportunity E o).
Proof.
  intros w r w' H. unfold slack.postOpportunity in H.
  destruct (slack_postOpportunity E (tick w) o); by simplify_eq.
Qed.

Lemma same_records_slack_update (E : Env) ts o :
  respects same_records (slack.updateOpportunity E ts o).
Proof.
  intros w r w' H. unfold slack.updateOpportunity in H.
  destruct (slack_updateOpportunity E (tick w) ts o); by simplify_eq.
Qed.

Lemma same_records_update_slack_message (E : Env) o :
  respects same_records (update_slack_message E o).
Proof.
  unfold update_slack_message. apply respects_if.
  - apply same_records_slack_update.
  - apply respects_ret. apply _.
Qed.

Lemma same_records_generateSpec (E : Env) request :
  respects same_records (kiro.generateSpec E request).
Proof.
  intros w r w' H. unfold kiro.generateSpec in H.
  destruct (kiro_generateSpec E (tick w) request); by simplify_eq.
Qed.

Lemma same_records_provideFeedback (E : Env) id feedback :
  respects same_records (kiro.provideFeedback E id feedback).
Proof.
  intros w r w' H. unfold kiro.provideFeedback in H.
  destruct (kiro_provideFeedback E (tick w) id feedback); by simplify_eq.
Qed.

Lemma same_records_detect_all (E : Env) funnels npsData features :
  respects same_records (detect_all E funnels npsData features).
Proof.
  intros w r w' H. unfold detect_all, bind, ret in H.
  destruct (detectFunnelOpportunities_detected E funnels w) as (c1 & H1 & _).
  rewrite H1 in H.
  destruct (detectNPSOpportunities_detected E npsData
              (after_ticks (3 * length c1) w)) as (c2 & H2 & _).
  rewrite H2 in H.
  destruct (detectFeatureUsageOpportunities_detected E features
              (after_ticks (3 * length c2) (after_ticks (3 * length c1) w)))
    as (c3 & H3 & _).
  rewrite H3 in H. simplify_eq. unfold same_records.
  by rewrite !(proj1 (after_ticks_fields _ _)).
Qed.

(** [update] respects the three relations. *)
Lemma wf_step_update (E : Env) id updates :
  respects wf_step (OpportunityStore.update E id updates).
Proof.
  intros w r w' H Hwf.
  pose proof (update_preserves_wf E id updates w Hwf) as H'.
  by rewrite H in H'.
Qed.

Lemma wf_step_create (E : Env) o :
  respects wf_step (OpportunityStore.create E o).
Proof.
  intros w r w' H Hwf.
  pose proof (create_preserves_wf E o w Hwf) as H'.
  by rewrite H in H'.
Qed.

Lemma wf_step_initialize (E : Env) :
  respects wf_step (OpportunityStore.initialize E).
Proof.
  intros w r w' H Hwf.
  pose proof (initialize_wf E w Hwf) as H'.
  by rewrite H in H'.
Qed.

Lemma only_touches_update (E : Env) id updates keys :
  "updatedAt" ∈ keys ->
  (forall k : string, k ∉ keys -> updates !! k = None) ->
  respects (only_touches id keys) (OpportunityStore.update E id updates).
Proof.
  intros Hua Hkeys w r w' H. rewrite update_unfold in H.
  destruct (opportunities w !! id) as [existing|] eqn:Hl;
    [|simplify_eq; reflexivity].
  cbv zeta in H.
  assert (Hins : only_touches id keys w
                   (set_opportunities
                      (<[id := merged id (Date_toISOString E (tick w))
                                      updates existing]> (opportunities w))
                      (ticked w))).
  { split; [|split]; simpl.
    - intros other Hne. by rewrite lookup_insert_ne.
    - rewrite lookup_insert_eq, Hl. split; eauto.
    - intros o o' H1 H2 k Hid Hk. rewrite lookup_insert_eq in H2.
      simplify_eq. apply merged_from_existing; [done| |by apply Hkeys].
      intros ->. done. }
  destruct (OpportunityStore.validateOpportunity _);
    [|simplify_eq; by apply same_records_only_touches].
  destruct (fs_fault E (S (tick w))); simplify_eq; exact Hins.
Qed.

Ltac respects_step :=
  first
    [ apply respects_ret; apply _
    | apply respects_throw; apply _
    | apply respects_lift; apply _
    | apply respects_read; apply _
    | apply respects_bind; [apply _| |intros ?]
    | apply respects_try_catch; [apply _| |intros ?]
    | apply respects_if
    | match goal with
      | |- respects _ (match ?x with _ => _ end) => destruct x
      end ].

(** The promote, dismiss and investigate handlers, [markAsShipped] and the
    demo's two entry points are made of updates of one id and of calls
    that leave the records alone. *)
Lemma respects_set_status (R : World -> World -> Prop)
    `{!Reflexive R} `{!Transitive R} (E : Env) id (s : OpportunityStatus) :
  (forall w w', same_records w w' -> R w w') ->
  (forall updates,
     (forall k : string, k ∉ action_fields -> updates !! k = None) ->
     respects R (OpportunityStore.update E id updates)) ->
  respects R (bind (OpportunityStore.update E id (status_update s))
                   (fun updated => update_slack_message E updated)).
Proof.
  intros Hsame Hupd. apply respects_bind; [apply _| |intros updated].
  - apply Hupd. intros k Hk. apply status_update_other. intros ->.
    apply Hk. unfold action_fields. set_solver.
  - eapply respects_weaken; [exact Hsame|].
    apply same_records_update_slack_message.
Qed.

Lemma same_records_detectFunnel (E : Env) funnels :
  respects same_records (OpportunityDetector.detectFunnelOpportunities E funnels).
Proof.
  intros w r w' H.
  destruct (detectFunnelOpportunities_detected E funnels w) as (cs & H1 & _).
  rewrite H1 in H. simplify_eq. apply after_ticks_fields.
Qed.

Lemma same_records_detectNPS (E : Env) npsData :
  respects same_records (OpportunityDetector.detectNPSOpportunities E npsData).
Proof.
  intros w r w' H.
  destruct (detectNPSOpportunities_detected E npsData w) as (cs & H1 & _).
  rewrite H1 in H. simplify_eq. apply after_ticks_fields.
Qed.

Lemma same_records_detectFeatureUsage (E : Env) features :
  respects same_records
    (OpportunityDetector.detectFeatureUsageOpportunities E features).
Proof.
  intros w r w' H.
  destruct (detectFeatureUsageOpportunities_detected E features w)
    as (cs & H1 & _).
  rewrite H1 in H. simplify_eq. apply after_ticks_fields.
Qed.

Section Handlers.
Context (R : World -> World -> Prop) `{!Reflexive R} `{!Transitive R}.
Context (E : Env) (id : string).
Hypothesis Hsame : forall w w', same_records w w' -> R w w'.
Hypothesis Hupd : forall updates,
  (forall k : string, k ∉ action_fields -> updates !! k = None) ->
  respects R (OpportunityStore.update E id updates).

Lemma respects_spec_flow (request : JSObject) :
  respects R
    (spec <- kiro.generateSpec E request ;;
     withSpec <- OpportunityStore.update E id
                   (obj [ ("status", JStr (status_value SPEC_GENERATED));
                          ("specUrl", specUrl spec) ]) ;;
     update_slack_message E withSpec).
Proof.
  apply respects_bind; [apply _| |intros spec].
  - eapply respects_weaken; [exact Hsame|apply same_records_generateSpec].
  - apply respects_bind; [apply _| |intros withSpec].
    + apply Hupd. intros k Hk. unfold obj. simpl.
      rewrite !lookup_insert_ne; [done| |];
        intros <-; apply Hk; unfold action_fields; set_solver.
    + eapply respects_weaken; [exact Hsame|].
      apply same_records_update_slack_message.
Qed.

Lemma respects_promoteOpportunity (opportunity : JSObject) :
  Opportunity_id opportunity = id ->
  respects R (OpportunityOS.promoteOpportunity E opportunity).
Proof.
  intros Hid. unfold OpportunityOS.promoteOpportunity. rewrite Hid.
  apply respects_bind; [apply _| |intros updated].
  { apply Hupd. intros k Hk. apply status_update_other. intros ->.
    apply Hk. unfold action_fields. set_solver. }
  apply respects_bind; [apply _| |intros _].
  { eapply respects_weaken; [exact Hsame|].
    apply same_records_update_slack_message. }
  apply respects_try_catch; [apply _| |intros error].
  - apply respects_spec_flow.
  - apply respects_bind; [apply _| |intros _; apply respects_throw; apply _].
    apply Hupd. intros k Hk. apply status_update_other. intros ->.
    apply Hk. unfold action_fields. set_solver.
Qed.

Lemma respects_dismissOpportunity (opportunity : JSObject) :
  Opportunity_id opportunity = id ->
  respects R (OpportunityOS.dismissOpportunity E opportunity).
Proof.
  intros Hid. unfold OpportunityOS.dismissOpportunity. rewrite Hid.
  by apply respects_set_status.
Qed.

Lemma respects_investigateOpportunity (opportunity : JSObject) :
  Opportunity_id opportunity = id ->
  respects R (OpportunityOS.investigateOpportunity E opportunity).
Proof.
  intros Hid. unfold OpportunityOS.investigateOpportunity. rewrite Hid.
  by apply respects_set_status.
Qed.

Lemma respects_Demo_promoteOpportunity (opportunity : JSObject) :
  Opportunity_id opportunity = id ->
  respects R (DemoOpportunityOS.promoteOpportunity E opportunity).
Proof.
  intros Hid. unfold DemoOpportunityOS.promoteOpportunity. rewrite Hid.
  apply respects_bind; [apply _| |intros updated].
  { apply Hupd. intros k Hk. apply status_update_other. intros ->.
    apply Hk. unfold action_fields. set_solver. }
  apply respects_bind; [apply _| |intros _].
  { eapply respects_weaken; [exact Hsame|].
    apply same_records_update_slack_message. }
  cbv zeta. apply respects_if; [apply respects_ret; apply _|].
  apply respects_spec_flow.
Qed.

Lemma respects_markAsShipped_found (opportunity impact : JSObject) :
  respects R
    (measuredAt <- new_Date_toISOString E ;;
     updated <- OpportunityStore.update E id
                  (obj [ ("status", JStr (status_value SHIPPED));
                         ("actualImpact",
                          JObj (<["measuredAt" := JStr measuredAt]> impact)) ]) ;;
     update_slack_message E updated ;;
     if truthy (prop opportunity "specUrl")
     then kiro.provideFeedback E id
            (obj [ ("rating", JNum 5);
                   ("actualImpact", prop impact "metricsAfter") ])
     else ret tt).
Proof.
  apply respects_bind; [apply _| |intros measuredAt].
  { eapply respects_weaken; [exact Hsame|apply same_records_date]. }
  apply respects_bind; [apply _| |intros updated].
  { apply Hupd. intros k Hk. unfold obj. simpl.
    rewrite !lookup_insert_ne; [done| |];
      intros <-; apply Hk; unfold action_fields; set_solver. }
  apply respects_bind; [apply _| |intros _].
  { eapply respects_weaken; [exact Hsame|].
    apply same_records_update_slack_message. }
  apply respects_if; [|apply respects_ret; apply _].
  eapply respects_weaken; [exact Hsame|apply same_records_provideFeedback].
Qed.

Lemma respects_Demo_generateSpec_found (opportunity : JSObject) :
  Opportunity_id opportunity = id ->
  respects R
    (if negb (strict_eq_str (prop opportunity "status")
                            (status_value PROMOTED))
     then throw (MustBePromoted (prop opportunity "status"))
     else
       (spec <- kiro.generateSpec E (spec_request opportunity) ;;
        withSpec <- OpportunityStore.update E (Opportunity_id opportunity)
                      (obj [ ("status", JStr (status_value SPEC_GENERATED));
                             ("specUrl", specUrl spec) ]) ;;
        update_slack_message E withSpec)).
Proof.
  intros Hid. rewrite Hid.
  apply respects_if; [apply respects_throw; apply _|apply respects_spec_flow].
Qed.
End Handlers.

Lemma actions_unknown_unfold (E : Env) (w : World) (id : string)
    (impact : JSObject) :
  opportunities w !! id = None ->
  (forall A, OpportunityOS.handleOpportunityAction E id A w = (Return tt, w)) /\
  OpportunityOS.markAsShipped E id impact w
    = (Throw (OpportunityNotFound id), w) /\
  DemoOpportunityOS.generateSpec E id w = (Throw (OpportunityNotFound id), w).
Proof.
  intros Hl. repeat split.
  - intros A. unfold OpportunityOS.handleOpportunityAction,
      OpportunityStore.get, bind, read. by rewrite Hl.
  - unfold OpportunityOS.markAsShipped, OpportunityStore.get, bind, read.
    by rewrite Hl.
  - unfold DemoOpportunityOS.generateSpec, OpportunityStore.get, bind, read.
    by rewrite Hl.
Qed.

(** X22.  An action touches one record and few of its fields.  Whatever
    [handleOpportunityAction], [markAsShipped] or the demo's manual
    [generateSpec] does for an id, and whether it returns or throws, no
    record is added to or removed from a well-formed store, every record
    under another id is as it was, and in the record under the id itself
    only status, updatedAt, specUrl and actualImpact can differ: type,
    score, title, description, evidence, createdAt and slackMessageTs are
    never changed.  The store is well formed afterwards. *)
Theorem actions_touch_one_record (E : Env) (w : World) (id : string)
    (A : Action) (impact : JSObject) :
  store_wf (opportunities w) ->
  forall c : M unit,
    c = OpportunityOS.handleOpportunityAction E id A \/
    c = OpportunityOS.markAsShipped E id impact \/
    c = DemoOpportunityOS.generateSpec E id ->
    forall r w', c w = (r, w') ->
    only_touches id action_fields w w' /\ store_wf (opportunities w').
Proof.
  intros Hwf c Hc r w' Hrun.
  set (R := fun w w' => only_touches id action_fields w w' /\ wf_step w w').
  assert (HR : Reflexive R) by (intros x; split; reflexivity).
  assert (HT : Transitive R).
  { intros x y z [H1 H2] [H3 H4]. split; etransitivity; eauto. }
  assert (Hsame : forall w w', same_records w w' -> R w w').
  { intros x y H. split;
      [by apply same_records_only_touches|by apply same_records_wf_step]. }
  assert (Hupd : forall updates,
             (forall k : string, k ∉ action_fields -> updates !! k = None) ->
             respects R (OpportunityStore.update E id updates)).
  { intros updates Hk x r0 y H. split.
    - eapply (only_touches_update E id updates action_fields);
        [by right; left|done|exact H].
    - by eapply wf_step_update. }
  assert (Hgoal : R w w'); [|destruct Hgoal as [H1 H2]; auto].
  destruct (opportunities w !! id) as [opportunity|] eqn:Hl.
  - assert (Hid : Opportunity_id opportunity = id)
      by (apply stored_ok_Opportunity_id; by apply (Hwf id)).
    destruct Hc as [-> | [-> | ->]].
    + rewrite (handleOpportunityAction_found E id opportunity A w Hl) in Hrun.
      destruct A.
      * by eapply (respects_promoteOpportunity R E id).
      * by eapply (respects_dismissOpportunity R E id).
      * by eapply (respects_investigateOpportunity R E id).
    + unfold OpportunityOS.markAsShipped, OpportunityStore.get, bind at 1,
        read in Hrun.
      rewrite Hl in Hrun.
      by eapply (respects_markAsShipped_found R E id Hsame Hupd opportunity
                   impact).
    + unfold DemoOpportunityOS.generateSpec, OpportunityStore.get, bind at 1,
        read in Hrun.
      rewrite Hl in Hrun.
      by eapply (respects_Demo_generateSpec_found R E id Hsame Hupd
                   opportunity).
  - destruct (actions_unknown_unfold E w id impact Hl) as (H1 & H2 & H3).
    destruct Hc as [-> | [-> | ->]].
    + rewrite (H1 A) in Hrun. simplify_eq. reflexivity.
    + rewrite H2 in Hrun. simplify_eq. reflexivity.
    + rewrite H3 in Hrun. simplify_eq. reflexivity.
Qed.

Lemma actions_touch_one_record_witness :
  let run := OpportunityOS.handleOpportunityAction (kiro_down_env default_config)
               "opp-123" promote (sample_world DETECTED) in
  only_touches "opp-123" action_fields (sample_world DETECTED) run.2 /\
  store_wf (opportunities run.2).
Proof.
  intros run.
  apply (actions_touch_one_record (kiro_down_env default_config)
           (sample_world DETECTED) "opp-123" promote sample_impact
           ltac:(apply map_Forall_singleton; apply sample_stored_ok)
           _ (or_introl eq_refl) run.1).
  subst run. apply surjective_pairing.
Defined.

(* ===================================================================== *)
(** ** [runDetection] *)
(* ===================================================================== *)

(** [runDetection] is the detectors followed by the storing loop. *)
Lemma runDetection_unfold (E : Env) funnels npsData features (w : World) :
  OpportunityOS.runDetection E (inr (funnels, npsData, features)) w =
  match detect_all E funnels npsData features w with
  | (Return opps, w1) =>
      match for_of opps (store_and_post E) w1 with
      | (Return _, w2) => (Return opps, w2)
      | (Throw e, w2) => (Throw e, w2)
      end
  | (Throw e, w1) => (Throw e, w1)
  end.
Proof.
  unfold OpportunityOS.runDetection, detect_all, try_catch, bind, lift, ret,
    throw.
  destruct (OpportunityDetector.detectFunnelOpportunities E funnels w)
    as [[c1|e] w1]; [|done].
  destruct (OpportunityDetector.detectNPSOpportunities E npsData w1)
    as [[c2|e] w2]; [|done].
  destruct (OpportunityDetector.detectFeatureUsageOpportunities E features w2)
    as [[c3|e] w3]; [|done].
  change (for_of (c1 ++ c2 ++ c3) _ w3)
    with (for_of (c1 ++ c2 ++ c3) (store_and_post E) w3).
  by destruct (for_of (c1 ++ c2 ++ c3) (store_and_post E) w3) as [[[]|e] w4].
Qed.

Lemma runDetection_fetch_failed (E : Env) (e : Exn) (w : World) :
  OpportunityOS.runDetection E (inl e) w = (Throw e, w).
Proof. reflexivity. Qed.

(** A relation kept by the detectors and by each turn of the loop is kept
    by [runDetection]. *)
Lemma respects_runDetection (R : World -> World -> Prop)
    `{!Reflexive R} `{!Transitive R} (E : Env) (fetched : Fetched) :
  (forall funnels npsData features,
     respects R (detect_all E funnels npsData features)) ->
  (forall opp, respects R (store_and_post E opp)) ->
  respects R (OpportunityOS.runDetection E fetched).
Proof.
  intros Hdetect Hbody w r w' H.
  destruct fetched as [e|[[funnels npsData] features]].
  - rewrite runDetection_fetch_failed in H. simplify_eq. reflexivity.
  - rewrite runDetection_unfold in H.
    destruct (detect_all E funnels npsData features w) as [[opps|e] w1] eqn:Hd.
    + apply Hdetect in Hd.
      etransitivity; [exact Hd|].
      destruct (for_of opps (store_and_post E) w1) as [[[]|e] w2] eqn:Hloop;
        simplify_eq; by eapply (respects_for_of R).
    + simplify_eq. by eapply Hdetect.
Qed.

#[local] Instance same_kiro_calls_refl : Reflexive same_kiro_calls.
Proof. by intros w. Qed.

#[local] Instance same_kiro_calls_trans : Transitive same_kiro_calls.
Proof. unfold same_kiro_calls. intros w1 w2 w3 H1 H2. congruence. Qed.

Lemma same_kiro_calls_detect_all (E : Env) funnels npsData features :
  respects same_kiro_calls (detect_all E funnels npsData features).
Proof.
  intros w r w' H. unfold detect_all, bind, ret in H.
  destruct (detectFunnelOpportunities_detected E funnels w) as (c1 & H1 & _).
  rewrite H1 in H.
  destruct (detectNPSOpportunities_detected E npsData
              (after_ticks (3 * length c1) w)) as (c2 & H2 & _).
  rewrite H2 in H.
  destruct (detectFeatureUsageOpportunities_detected E features
              (after_ticks (3 * length c2) (after_ticks (3 * length c1) w)))
    as (c3 & H3 & _).
  rewrite H3 in H. simplify_eq. unfold same_kiro_calls, kiro_calls.
  f_equal.
  pose proof (after_ticks_fields (3 * length c3)
                (after_ticks (3 * length c2) (after_ticks (3 * length c1) w)))
    as (_ & _ & _ & _ & -> & _).
  pose proof (after_ticks_fields (3 * length c2)
                (after_ticks (3 * length c1) w)) as (_ & _ & _ & _ & -> & _).
  apply after_ticks_fields.
Qed.

Lemma same_kiro_calls_store_and_post (E : Env) opp :
  respects same_kiro_calls (store_and_post E opp).
Proof.
  intros w r w' H. unfold store_and_post, bind at 1 in H.
  rewrite create_unfold in H.
  destruct (OpportunityStore.validateOpportunity (JObj opp));
    [|by simplify_eq].
  cbv zeta in H.
  destruct (opportunities w !! Opportunity_id opp); [by simplify_eq|].
  destruct (fs_fault E (tick w)); [by simplify_eq|].
  unfold bind at 1, slack.postOpportunity in H. simpl in H.
  destruct (slack_postOpportunity E _ opp) as [message|messageTs];
    [by simplify_eq|].
  unfold bind at 1 in H. rewrite update_unfold in H. simpl in H.
  rewrite lookup_insert_eq in H. cbv zeta in H.
  destruct (OpportunityStore.validateOpportunity _); [|by simplify_eq].
  destruct (fs_fault E _); unfold ret in H; by simplify_eq.
Qed.

Lemma wf_step_store_and_post (E : Env) opp :
  respects wf_step (store_and_post E opp).
Proof.
  unfold store_and_post.
  apply respects_bind; [apply _|apply wf_step_create|intros _].
  apply respects_bind; [apply _| |intros messageTs].
  { eapply respects_weaken; [apply same_records_wf_step|].
    apply same_records_slack_post. }
  apply respects_bind; [apply _|apply wf_step_update|intros _].
  apply respects_ret. apply _.
Qed.

(** One turn of the loop writes under the id of its candidate, and only
    if the store did not hold that id. *)
Lemma records_kept_store_and_post (E : Env) opp :
  respects records_kept (store_and_post E opp).
Proof.
  intros w r w' H. unfold store_and_post, bind at 1 in H.
  rewrite create_unfold in H.
  destruct (OpportunityStore.validateOpportunity (JObj opp));
    [|simplify_eq; reflexivity].
  cbv zeta in H.
  destruct (opportunities w !! Opportunity_id opp) eqn:Hl;
    [simplify_eq; reflexivity|].
  assert (Hins : forall o' : JSObject, forall w2,
             opportunities w2 = <[Opportunity_id opp := o']> (opportunities w) ->
             records_kept w w2).
  { intros o' w2 Hw2 id o Hid. rewrite Hw2, lookup_insert_ne; [done|].
    intros <-. congruence. }
  destruct (fs_fault E (tick w));
    [simplify_eq; by eapply Hins|].
  unfold bind at 1, slack.postOpportunity in H. simpl in H.
  destruct (slack_postOpportunity E _ opp) as [message|messageTs];
    [simplify_eq; by eapply Hins|].
  unfold bind at 1 in H. rewrite update_unfold in H. simpl in H.
  rewrite lookup_insert_eq in H. cbv zeta in H.
  destruct (OpportunityStore.validateOpportunity _);
    [|simplify_eq; by eapply Hins].
  destruct (fs_fault E _); unfold ret in H; simplify_eq;
    eapply Hins; exact (insert_insert_eq _ _ _ _).
Qed.

(** X23.  What [runDetection] never does.  When the fetch from Userpilot
    fails, it throws the fetch's error and has no effect at all.  In
    every case, returning or throwing, it changes and removes no record
    the store already held (a candidate whose id is taken is refused by
    [create]), it leaves a well-formed store well formed, and it never
    calls Kiro. *)
Theorem runDetection_keeps_records (E : Env) (fetched : Fetched) (w : World) :
  (forall e, fetched = inl e ->
     OpportunityOS.runDetection E fetched w = (Throw e, w)) /\
  (forall r w',
     OpportunityOS.runDetection E fetched w = (r, w') ->
     records_kept w w' /\
     (store_wf (opportunities w) -> store_wf (opportunities w')) /\
     kiro_calls w' = kiro_calls w).
Proof.
  split; [by intros e ->|].
  intros r w' H. split; [|split].
  - eapply (respects_runDetection records_kept); [| |exact H].
    + intros funnels npsData features.
      eapply respects_weaken; [apply same_records_records_kept|].
      apply same_records_detect_all.
    + apply records_kept_store_and_post.
  - eapply (respects_runDetection wf_step); [| |exact H].
    + intros funnels npsData features.
      eapply respects_weaken; [apply same_records_wf_step|].
      apply same_records_detect_all.
    + apply wf_step_store_and_post.
  - eapply (respects_runDetection same_kiro_calls); [| |exact H].
    + apply same_kiro_calls_detect_all.
    + apply same_kiro_calls_store_and_post.
Qed.

Lemma runDetection_keeps_records_witness :
  OpportunityOS.runDetection (calm_env default_config)
    (inl (SystemError "ECONNREFUSED")) (sample_world DETECTED)
  = (Throw (SystemError "ECONNREFUSED"), sample_world DETECTED).
Proof.
  destruct (runDetection_keeps_records (calm_env default_config)
              (inl (SystemError "ECONNREFUSED"))
              (sample_world DETECTED)) as [H _].
  by apply H.
Defined.

Lemma wf_step_call (E : Env) (op : Operation) : respects wf_step (call E op).
Proof.
  assert (Hsame : forall w w', same_records w w' -> wf_step w w')
    by apply same_records_wf_step.
  assert (Hupd : forall id updates,
             (forall k : string, k ∉ action_fields -> updates !! k = None) ->
             respects wf_step (OpportunityStore.update E id updates))
    by (intros; apply wf_step_update).
  destruct op as [|o|id updates|fetched|id A|id impact|id|id]; simpl.
  - apply wf_step_initialize.
  - apply wf_step_create.
  - apply respects_bind; [apply _|apply wf_step_update|intros _].
    apply respects_ret. apply _.
  - apply respects_bind; [apply _| |intros _; apply respects_ret; apply _].
    apply respects_runDetection; [apply _|apply _| |].
    + intros funnels npsData features.
      eapply respects_weaken; [exact Hsame|apply same_records_detect_all].
    + apply wf_step_store_and_post.
  - unfold OpportunityOS.handleOpportunityAction.
    apply respects_bind; [apply _| |intros [opportunity|]].
    + eapply respects_weaken; [exact Hsame|apply same_records_get].
    + apply respects_try_catch;
        [apply _| |intros error; apply respects_throw; apply _].
      destruct A.
      * apply (respects_promoteOpportunity wf_step E
                    (Opportunity_id opportunity)); [exact Hsame|apply Hupd|reflexivity].
      * apply (respects_dismissOpportunity wf_step E
                    (Opportunity_id opportunity)); [exact Hsame|apply Hupd|reflexivity].
      * apply (respects_investigateOpportunity wf_step E
                    (Opportunity_id opportunity)); [exact Hsame|apply Hupd|reflexivity].
    + apply respects_ret. apply _.
  - unfold OpportunityOS.markAsShipped.
    apply respects_bind; [apply _| |intros [opportunity|]].
    + eapply respects_weaken; [exact Hsame|apply same_records_get].
    + apply (respects_markAsShipped_found wf_step E id); [exact Hsame|apply Hupd].
    + apply respects_throw. apply _.
  - apply respects_bind; [apply _| |intros [opportunity|]].
    + eapply respects_weaken; [exact Hsame|apply same_records_get].
    + apply (respects_Demo_promoteOpportunity wf_step E
                  (Opportunity_id opportunity)); [exact Hsame|apply Hupd|reflexivity].
    + apply respects_ret. apply _.
  - unfold DemoOpportunityOS.generateSpec.
    apply respects_bind; [apply _| |intros [opportunity|]].
    + eapply respects_weaken; [exact Hsame|apply same_records_get].
    + apply (respects_Demo_generateSpec_found wf_step E
                  (Opportunity_id opportunity)); [exact Hsame|apply Hupd|reflexivity].
    + apply respects_throw. apply _.
Qed.

(** X24.  The invariant of the store.  Start from a store in which every
    record passes the validation and is filed under its own id (an empty
    store, for one) and make any calls in any order: initialize, create,
    update, runDetection, the three Slack actions, markAsShipped, the
    demo's promote and manual spec generation, with any arguments, any
    answers of the outside world, and going on after the calls that
    throw.  Then every record of the store still passes the validation
    and is filed under its own id. *)
Theorem store_invariant (E : Env) (ops : list Operation) (w : World) :
  (forall id o, opportunities w !! id = Some o ->
     OpportunityStore.validateOpportunity (JObj o) = Return tt /\
     o !! "id" = Some (JStr id)) ->
  forall id o, opportunities (calls E ops w) !! id = Some o ->
    OpportunityStore.validateOpportunity (JObj o) = Return tt /\
    o !! "id" = Some (JStr id).
Proof.
  intros Hwf. change (store_wf (opportunities (calls E ops w))).
  change (store_wf (opportunities w)) in Hwf.
  revert w Hwf. induction ops as [|op ops IH]; intros w Hwf; [done|].
  simpl. apply IH.
  destruct (call E op w) as [r w'] eqn:Hc. simpl.
  by apply (wf_step_call E op w r w').
Qed.

Lemma store_invariant_witness :
  let w' := calls (kiro_down_env default_config)
              [ call_create (sample_record "opp-7" DETECTED 150);
                call_handleOpportunityAction "opp-123" promote;
                call_update "opp-123" (obj [("score", JNum 101)]);
                call_markAsShipped "opp-123" sample_impact ]
              (sample_world DETECTED) in
  exists o,
    opportunities w' !! "opp-123" = Some o /\
    prop o "status" = JStr (status_value SHIPPED) /\
    OpportunityStore.validateOpportunity (JObj o) = Return tt /\
    o !! "id" = Some (JStr "opp-123").
Proof.
  intros w'.
  assert (Hl : exists o, opportunities w' !! "opp-123" = Some o /\
                         prop o "status" = JStr (status_value SHIPPED))
    by (vm_compute; eexists; split; reflexivity).
  destruct Hl as (o & Hl & Hst). exists o.
  split; [exact Hl|]. split; [exact Hst|].
  apply (store_invariant (kiro_down_env default_config)
           [ call_create (sample_record "opp-7" DETECTED 150);
             call_handleOpportunityAction "opp-123" promote;
             call_update "opp-123" (obj [("score", JNum 101)]);
             call_markAsShipped "opp-123" sample_impact ]
           (sample_world DETECTED)
           ltac:(apply map_Forall_singleton; apply sample_stored_ok)
           "opp-123" o Hl).
Defined.

(* ===================================================================== *)
(** ** [runDetection]: storing and posting the candidates *)
(* ===================================================================== *)


















(* ===================================================================== *)
(** ** The configuration manager *)
(* ===================================================================== *)

Lemma js_or_idem (a d : JSValue) : js_or (js_or a d) d = js_or a d.
Proof.
  unfold js_or. destruct (truthy a) eqn:Ha; [by rewrite Ha|].
  by destruct (truthy d).
Qed.

Lemma js_nullish_idem (a d : JSValue) :
  d <> JUndefined -> d <> JNull -> js_nullish (js_nullish a d) d = js_nullish a d.
Proof. intros H1 H2. by destruct a, d. Qed.

(** What a successful normalization says of its argument and result. *)
Lemma validateAndNormalize_inr (config normalized : JSObject) :
  ConfigurationManagerClass.validateAndNormalize config = inr normalized ->
  Forall (fun v => truthy v = true) (required_settings config) /\
  normalized = obj
    [ ("userpilot", JObj (obj
         [ ("apiToken", optional_member (prop config "userpilot") "apiToken");
           ("baseUrl", js_or (optional_member (prop config "userpilot") "baseUrl")
                             (JStr "https://api.userpilot.io/v1")) ]));
      ("slack", JObj (obj
         [ ("botToken", optional_member (prop config "slack") "botToken");
           ("appToken", optional_member (prop config "slack") "appToken");
           ("channelId", optional_member (prop config "slack") "channelId") ]));
      ("kiro", JObj (obj
         [ ("apiKey", optional_member (prop config "kiro") "apiKey");
           ("baseUrl", js_or (optional_member (prop config "kiro") "baseUrl")
                             (JStr "https://api.kiro.ai/v1")) ]));
      ("detectionSchedule",
       js_or (prop config "detectionSchedule") (JStr "0 9 * * 1"));
      ("dataStorePath",
       js_or (prop config "dataStorePath") (JStr "./data/opportunities.json"));
      ("logLevel", js_or (prop config "logLevel") (JStr "info"));
      ("minOpportunityScore",
       js_nullish (prop config "minOpportunityScore") (JNum 60));
      ("autoGenerateSpecs",
       js_nullish (prop config "autoGenerateSpecs") (JBool false)) ].
Proof.
  unfold ConfigurationManagerClass.validateAndNormalize, required_settings.
  cbv zeta.
  destruct (truthy (optional_member (prop config "userpilot") "apiToken"))
    eqn:H1; [|discriminate].
  destruct (truthy (optional_member (prop config "slack") "botToken"))
    eqn:H2; [|discriminate].
  destruct (truthy (optional_member (prop config "slack") "appToken"))
    eqn:H3; [|discriminate].
  destruct (truthy (optional_member (prop config "slack") "channelId"))
    eqn:H4; [|discriminate].
  destruct (truthy (optional_member (prop config "kiro") "apiKey"))
    eqn:H5; [|discriminate].
  simpl negb. cbv iota. intros H. injection H as <-.
  split; [|reflexivity].
  repeat (constructor; [assumption|]). constructor.
Qed.

(** The verdict depends on the five required settings only. *)
Ltac first_missing :=
  eexists; split; [reflexivity|]; split; [reflexivity|]; split; [assumption|];
  simpl; repeat (constructor; [assumption|]); constructor.

(** The verdict depends on the five required settings only. *)
Lemma validateAndNormalize_verdict (config : JSObject) :
  match ConfigurationManagerClass.validateAndNormalize config with
  | inr _ => Forall (fun v => truthy v = true) (required_settings config)
  | inl e =>
      exists i v, configuration_errors !! i = Some e /\
                  required_settings config !! i = Some v /\
                  truthy v = false /\
                  Forall (fun v => truthy v = true)
                         (take i (required_settings config))
  end.
Proof.
  unfold ConfigurationManagerClass.validateAndNormalize, required_settings.
  cbv zeta.
  destruct (truthy (optional_member (prop config "userpilot") "apiToken"))
    eqn:H1; simpl negb; cbv iota; [|exists 0%nat; first_missing].
  destruct (truthy (optional_member (prop config "slack") "botToken"))
    eqn:H2; simpl negb; cbv iota; [|exists 1%nat; first_missing].
  destruct (truthy (optional_member (prop config "slack") "appToken"))
    eqn:H3; simpl negb; cbv iota; [|exists 2%nat; first_missing].
  destruct (truthy (optional_member (prop config "slack") "channelId"))
    eqn:H4; simpl negb; cbv iota; [|exists 3%nat; first_missing].
  destruct (truthy (optional_member (prop config "kiro") "apiKey"))
    eqn:H5; simpl negb; cbv iota; [|exists 4%nat; first_missing].
  repeat (constructor; [assumption|]). constructor.
Qed.

(** X26.  What the configuration manager requires.  A configuration is
    accepted, by the constructor and by the static [validate], exactly
    when its five credentials (userpilot.apiToken, slack.botToken,
    slack.appToken, slack.channelId, kiro.apiKey) are all truthy; a
    missing section counts as a missing credential.  When it is refused,
    the error names the first credential, in that order, that is not
    truthy. *)
Theorem ConfigurationManager_requires (config : JSObject) :
  (ConfigurationManagerClass.validate config = true <->
   Forall (fun v => truthy v = true) (required_settings config)) /\
  (forall e,
     ConfigurationManagerClass.new config = inl e <->
     exists i v, configuration_errors !! i = Some e /\
                 required_settings config !! i = Some v /\
                 truthy v = false /\
                 Forall (fun v => truthy v = true)
                        (take i (required_settings config))) /\
  (forall section : string,
     config !! section = None ->
     section ∈ ["userpilot"; "slack"; "kiro"] ->
     ConfigurationManagerClass.validate config = false).
Proof.
  pose proof (validateAndNormalize_verdict config) as Hv.
  unfold ConfigurationManagerClass.validate, ConfigurationManagerClass.new.
  split; [|split].
  - destruct (ConfigurationManagerClass.validateAndNormalize config)
      as [e|n]; [|done].
    split; [done|]. intros Hall.
    destruct Hv as (i & v & _ & Hi & Hf & _).
    rewrite Forall_forall in Hall.
    rewrite (Hall v) in Hf; [done|]. by eapply list_elem_of_lookup_2.
  - intros e.
    destruct (ConfigurationManagerClass.validateAndNormalize config)
      as [e'|n].
    + split; [by intros [= <-]|].
      intros (i & v & He & Hi & Hf & Hbefore).
      destruct Hv as (i' & v' & He' & Hi' & Hf' & Hbefore').
      f_equal.
      destruct (Nat.lt_trichotomy i i') as [Hlt|[->|Hgt]].
      * rewrite Forall_forall in Hbefore'.
        rewrite (Hbefore' v) in Hf; [done|].
        eapply list_elem_of_lookup_2. by rewrite lookup_take_lt.
      * congruence.
      * rewrite Forall_forall in Hbefore.
        rewrite (Hbefore v') in Hf'; [done|].
        eapply list_elem_of_lookup_2. by rewrite lookup_take_lt.
    + split; [done|]. intros (i & v & _ & Hi & Hf & _).
      rewrite Forall_forall in Hv.
      rewrite (Hv v) in Hf; [done|]. by eapply list_elem_of_lookup_2.
  - intros section Hnone Hin.
    destruct (ConfigurationManagerClass.validateAndNormalize config)
      as [e|n]; [done|].
    exfalso. unfold required_settings in Hv.
    assert (Hp : prop config section = JUndefined)
      by (unfold prop; by rewrite Hnone).
    repeat (apply Forall_cons in Hv as [? Hv]).
    repeat (apply elem_of_cons in Hin as [->|Hin]);
      [| | |by apply elem_of_nil in Hin];
      rewrite Hp in *; discriminate.
Qed.

Lemma ConfigurationManager_requires_witness :
  ConfigurationManagerClass.validate credentials = true /\
  ConfigurationManagerClass.validate (delete "kiro" credentials) = false.
Proof.
  split.
  - apply (ConfigurationManager_requires credentials).
    repeat constructor.
  - apply (ConfigurationManager_requires (delete "kiro" credentials)) with "kiro".
    + reflexivity.
    + by do 2 right; left.
Defined.

(** X27.  What the configuration manager keeps.  The configuration it
    accepts is stored with exactly eight settings, whatever else was
    passed.  Normalizing it again changes nothing, so an update with no
    setting leaves it as it is; an update that is refused leaves it as it
    is as well.  The two thresholds fall back to their defaults only when
    absent or null (a minimum score of 0 and a switch set to false are
    kept), and agree with what the detector and the orchestrators read;
    the schedule falls back to its default whenever it is falsy, the empty
    string included.  An update merges one level deep only: replacing the
    slack section by one that has a bot token but no app token is refused
    for the missing app token, although the stored section had one. *)
Theorem ConfigurationManager_keeps (config normalized : JSObject) :
  ConfigurationManagerClass.new config = inr normalized ->
  (forall k : string, k ∉ configuration_keys -> normalized !! k = None) /\
  ConfigurationManagerClass.validateAndNormalize normalized = inr normalized /\
  ConfigurationManagerClass.update normalized ∅ = (None, normalized) /\
  (forall updates e,
     (ConfigurationManagerClass.update normalized updates).1 = Some e ->
     (ConfigurationManagerClass.update normalized updates).2 = normalized) /\
  (forall p : PartialConfig,
     prop config "minOpportunityScore"
       = from_option JNum JUndefined (partial_minOpportunityScore p) ->
     prop config "autoGenerateSpecs"
       = from_option JBool JUndefined (partial_autoGenerateSpecs p) ->
     ConfigurationManagerClass.get normalized "minOpportunityScore"
       = JNum (minOpportunityScore (ConfigurationManager.validateAndNormalize p)) /\
     ConfigurationManagerClass.get normalized "autoGenerateSpecs"
       = JBool (autoGenerateSpecs (ConfigurationManager.validateAndNormalize p))) /\
  (truthy (prop config "detectionSchedule") = false ->
   ConfigurationManagerClass.get normalized "detectionSchedule"
     = JStr "0 9 * * 1") /\
  (forall updates slack : JSObject,
     updates !! "userpilot" = None ->
     updates !! "slack" = Some (JObj slack) ->
     truthy (prop slack "botToken") = true ->
     slack !! "appToken" = None ->
     ConfigurationManagerClass.update normalized updates
       = (Some slack_appToken_required, normalized)).
Proof.
  unfold ConfigurationManagerClass.new. intros Hnew.
  destruct (validateAndNormalize_inr config normalized Hnew) as [Hall Heq].
  unfold required_settings in Hall.
  apply Forall_cons in Hall as [T1 Hall]. apply Forall_cons in Hall as [T2 Hall].
  apply Forall_cons in Hall as [T3 Hall]. apply Forall_cons in Hall as [T4 Hall].
  apply Forall_cons in Hall as [T5 _].
  assert (A1 : optional_member (prop normalized "userpilot") "apiToken"
               = optional_member (prop config "userpilot") "apiToken")
    by (rewrite Heq; reflexivity).
  assert (A2 : optional_member (prop normalized "userpilot") "baseUrl"
               = js_or (optional_member (prop config "userpilot") "baseUrl")
                       (JStr "https://api.userpilot.io/v1"))
    by (rewrite Heq; reflexivity).
  assert (B1 : optional_member (prop normalized "slack") "botToken"
               = optional_member (prop config "slack") "botToken")
    by (rewrite Heq; reflexivity).
  assert (B2 : optional_member (prop normalized "slack") "appToken"
               = optional_member (prop config "slack") "appToken")
    by (rewrite Heq; reflexivity).
  assert (B3 : optional_member (prop normalized "slack") "channelId"
               = optional_member (prop config "slack") "channelId")
    by (rewrite Heq; reflexivity).
  assert (C1 : optional_member (prop normalized "kiro") "apiKey"
               = optional_member (prop config "kiro") "apiKey")
    by (rewrite Heq; reflexivity).
  assert (C2 : optional_member (prop normalized "kiro") "baseUrl"
               = js_or (optional_member (prop config "kiro") "baseUrl")
                       (JStr "https://api.kiro.ai/v1"))
    by (rewrite Heq; reflexivity).
  assert (D1 : prop normalized "detectionSchedule"
               = js_or (prop config "detectionSchedule") (JStr "0 9 * * 1"))
    by (rewrite Heq; reflexivity).
  assert (D2 : prop normalized "dataStorePath"
               = js_or (prop config "dataStorePath")
                       (JStr "./data/opportunities.json"))
    by (rewrite Heq; reflexivity).
  assert (D3 : prop normalized "logLevel"
               = js_or (prop config "logLevel") (JStr "info"))
    by (rewrite Heq; reflexivity).
  assert (D4 : prop normalized "minOpportunityScore"
               = js_nullish (prop config "minOpportunityScore") (JNum 60))
    by (rewrite Heq; reflexivity).
  assert (D5 : prop normalized "autoGenerateSpecs"
               = js_nullish (prop config "autoGenerateSpecs") (JBool false))
    by (rewrite Heq; reflexivity).
  assert (Hidem : ConfigurationManagerClass.validateAndNormalize normalized
                  = inr normalized).
  { unfold ConfigurationManagerClass.validateAndNormalize. cbv zeta.
    rewrite A1, A2, B1, B2, B3, C1, C2, D1, D2, D3, D4, D5.
    rewrite T1, T2, T3, T4, T5. simpl negb. cbv iota.
    rewrite !js_or_idem, !js_nullish_idem by done.
    by rewrite Heq. }
  split; [|split; [exact Hidem|split; [|split; [|split; [|split]]]]].
  - intros k Hk. unfold configuration_keys in Hk.
    rewrite !not_elem_of_cons in Hk.
    destruct Hk as (K1 & K2 & K3 & K4 & K5 & K6 & K7 & K8 & _).
    rewrite Heq. unfold obj. simpl list_to_map.
    rewrite !lookup_insert_ne by done. apply lookup_empty.
  - unfold ConfigurationManagerClass.update.
    rewrite (left_id_L ∅ (∪)). by rewrite Hidem.
  - intros updates e. unfold ConfigurationManagerClass.update.
    destruct (ConfigurationManagerClass.validateAndNormalize
                (updates ∪ normalized)) as [e'|n];
      intros H; simpl in H |- *; [reflexivity|discriminate H].
  - intros p Hmin Hauto. unfold ConfigurationManagerClass.get.
    rewrite D4, D5, Hmin, Hauto.
    by destruct p as [[m|] [a|]].
  - intros Hfalsy. unfold ConfigurationManagerClass.get.
    rewrite D1. unfold js_or. by rewrite Hfalsy.
  - intros updates slack Hup Hslack Hbot Happ.
    unfold ConfigurationManagerClass.update,
      ConfigurationManagerClass.validateAndNormalize. cbv zeta.
    assert (P1 : prop (updates ∪ normalized) "userpilot"
                 = prop normalized "userpilot")
      by (unfold prop; by rewrite lookup_union_r).
    assert (P2 : prop (updates ∪ normalized) "slack" = JObj slack).
    { unfold prop. by rewrite (lookup_union_Some_l _ _ _ _ Hslack). }
    rewrite P1, P2, A1, T1. simpl optional_member. rewrite Hbot.
    assert (P3 : prop slack "appToken" = JUndefined)
      by (unfold prop; by rewrite Happ).
    by rewrite P3.
Qed.

Lemma ConfigurationManager_keeps_witness :
  ConfigurationManagerClass.get normalized_credentials "minOpportunityScore"
    = JNum 60 /\
  ConfigurationManagerClass.update normalized_credentials
    (obj [("slack", JObj (obj [("botToken", JStr "xoxb-new")]))])
  = (Some slack_appToken_required, normalized_credentials).
Proof.
  destruct (ConfigurationManager_keeps credentials normalized_credentials
              eq_refl) as (_ & _ & _ & _ & Hmodel & _ & Hshallow).
  split.
  - apply (Hmodel {| partial_minOpportunityScore := None;
                     partial_autoGenerateSpecs := None |}); reflexivity.
  - apply Hshallow with (obj [("botToken", JStr "xoxb-new")]); reflexivity.
Defined.
